(** * KITTIFull: tracklet assembly, indexing and caching (datasets/kitti_full.py)

    A shallow embedding of the [KITTIFull] dataset class.  Python integers
    are [Z], lists are [list], dictionaries are [gmap]; a raised exception is
    a [Raise] result.  Code that lives outside [kitti_full.py] (numpy, the
    [.utils] geometry helpers) is taken through the interfaces [NumpyOps]
    and [GeometryUtils].  The cross attention of
    [modules/transformer_layer.py] is embedded at the level of tensor
    shapes. *)

From stdpp Require Import gmap strings list fin_maps pretty.
From Stdlib Require Import ZArith Lia Ascii Sorted.

Open Scope Z_scope.

(** ** Exceptions and results *)

Inductive exn :=
| AssertionError
| IndexError
| KeyError
| TypeError
| FileNotFoundError
| OSError
| ValueError
| LinAlgError.

Inductive result (A : Type) :=
| Ok (a : A)
| Raise (e : exn).
Arguments Ok {A} a.
Arguments Raise {A} e.

#[global] Instance result_ret : MRet result := λ A a, Ok a.

#[global] Instance result_bind : MBind result := λ A B k m,
  match m with
  | Ok a => k a
  | Raise e => Raise e
  end.

#[global] Instance result_fmap : FMap result := λ A B f m,
  match m with
  | Ok a => Ok (f a)
  | Raise e => Raise e
  end.

(** [assert b] *)
Definition py_assert (b : bool) : result unit :=
  if b then Ok tt else Raise AssertionError.

(** ** Python list primitives *)

Section PyList.
Context {A : Type}.

(** [len(l)] *)
Definition len (l : list A) : Z := Z.of_nat (length l).

(** [l[i]]: a negative index counts from the end, an index out of range
    raises IndexError. *)
Definition py_index (l : list A) (i : Z) : result A :=
  let j := if i <? 0 then i + len l else i in
  if (0 <=? j) && (j <? len l) then
    match l !! Z.to_nat j with
    | Some a => Ok a
    | None => Raise IndexError
    end
  else Raise IndexError.

(** [l[i::k]] for a start [0 <= i] and a step [k >= 1]: the elements at
    positions [i], [i+k], [i+2k], ...  [skip] counts the elements still to
    pass over before the next one is taken. *)
Fixpoint stride_from (skip k : nat) (l : list A) : list A :=
  match l with
  | [] => []
  | a :: r =>
      match skip with
      | O => a :: stride_from (Nat.pred k) k r
      | S s => stride_from s k r
      end
  end.

Definition py_slice_step (i : nat) (k : Z) (l : list A) : list A :=
  stride_from i (Z.to_nat k) l.

(** [range(n)] as the list of its values *)
Definition py_range (n : Z) : list nat := seq 0 (Z.to_nat n).
End PyList.

(** ** [bisect.bisect_right] (Python standard library)

    [while lo < hi: mid = (lo + hi) // 2;
       if x < a[mid]: hi = mid  else: lo = mid + 1]
    The loop is run on [fuel]; [bisect_right] gives it [length a] steps,
    which [bisect_loop_spec] shows to be enough. *)

Fixpoint bisect_loop (fuel : nat) (a : list Z) (x : Z) (lo hi : nat) : nat :=
  match fuel with
  | O => lo
  | S fuel' =>
      if (lo <? hi)%nat then
        let mid := ((lo + hi) / 2)%nat in
        match a !! mid with
        | Some am =>
            if x <? am then bisect_loop fuel' a x lo mid
            else bisect_loop fuel' a x (S mid) hi
        | None => lo
        end
      else lo
  end.

Definition bisect_right (a : list Z) (x : Z) : Z :=
  Z.of_nat (bisect_loop (length a) a x 0 (length a)).

(** ** Index boundaries ([__init__], lines 43-52) *)

(** The loop over [tracklet_num_frames]; the accumulators are
    [last_ed_frame_id] and the two boundary lists. *)
Fixpoint index_loop (nums : list Z) (last_ed_frame_id : Z) (st ed : list Z)
  : result (list Z * list Z) :=
  match nums with
  | [] => Ok (st, ed)
  | num_frames :: rest =>
      _ ← py_assert (0 <? num_frames);
      index_loop rest (last_ed_frame_id + num_frames)
        (st ++ [last_ed_frame_id]) (ed ++ [last_ed_frame_id + num_frames])
  end.

Definition build_index (nums : list Z) : result (list Z * list Z) :=
  index_loop nums 0 [] [].

(** [get_tracklet_frame_id] on the two boundary lists *)
Definition resolve (st ed : list Z) (idx : Z) : result (Z * Z) :=
  let tracklet_id := bisect_right ed idx in
  s ← py_index st tracklet_id;
  _ ← (if s <=? idx then
             e ← py_index ed tracklet_id; py_assert (idx <? e)
           else py_assert false);
  s' ← py_index st tracklet_id;
  let frame_id := idx - s' in
  Ok (tracklet_id, frame_id).

(** ** Numbers and arrays (numpy, outside the repository) *)

Class NumpyOps (num : Type) := {
  (** an integer literal stored in a float array *)
  of_int : Z → num;
  num_sub : num → num → num;
  num_div : num → num → num;
  (** Python's [float(s)]; [None] is its ValueError *)
  float : string → option num;
  (** [np.dot(m, v)] of a matrix and a vector *)
  np_dot : list (list num) → list num → list num;
  (** [np.linalg.inv(m)]; [None] is its LinAlgError *)
  np_linalg_inv : list (list num) → option (list (list num))
}.

Section Arrays.
Context {A : Type}.

(** Rows of [cols] consecutive values. *)
Fixpoint chunks (fuel cols : nat) (xs : list A) : list (list A) :=
  match fuel with
  | O => []
  | S fuel' =>
      match xs with
      | [] => []
      | _ => take cols xs :: chunks fuel' cols (drop cols xs)
      end
  end.

(** [a.reshape(3, 4)]: ValueError unless there are exactly 12 values *)
Definition reshape_3_4 (xs : list A) : option (list (list A)) :=
  if decide (length xs = 12%nat) then Some (chunks 3 4 xs) else None.

(** [a.reshape(-1, 4)]: ValueError unless the size is a multiple of 4 *)
Definition reshape_rows_4 (xs : list A) : option (list (list A)) :=
  if decide ((length xs mod 4)%nat = 0%nat)
  then Some (chunks (length xs) 4 xs) else None.

(** [m.T] of a matrix with [cols] columns *)
Definition transpose (cols : nat) (m : list (list A)) : list (list A) :=
  (λ j, omap (λ row, row !! j) m) <$> seq 0 cols.

(** [np.vstack((m, row))] *)
Definition np_vstack (m : list (list A)) (row : list A) : list (list A) :=
  m ++ [row].
End Arrays.

(** ** Paths *)

Fixpoint zeros (n : nat) : string :=
  match n with
  | O => EmptyString
  | S n' => "0" +:+ zeros n'
  end.

Definition zero_pad (w : nat) (s : string) : string :=
  zeros (w - String.length s) +:+ s.

(** ['%0wd' % z] *)
Definition fmt_0d (w : nat) (z : Z) : string :=
  if z <? 0 then "-" +:+ zero_pad (w - 1) (pretty (- z))
  else zero_pad w (pretty z).

(** [osp.join(a, b)] for a relative [b] *)
Definition osp_join (a b : string) : string :=
  if decide (a = EmptyString) then b
  else match String.get (String.length a - 1) a with
       | Some "/"%char => a +:+ b
       | _ => a +:+ "/" +:+ b
       end.

(** ** Data model *)

(** The subsampling interval: an integer or the string ['all']. *)
Inductive PreloadInterval :=
| Interval (k : Z)
| IntervalAll.

Definition fmt_interval (p : PreloadInterval) : string :=
  match p with
  | Interval k => pretty k
  | IntervalAll => "all"
  end.

Section DataModel.
Context {num : Type}.

(** One row of a label file, columns as named in [pd.read_csv]. *)
Record LabelRow := {
  row_frame : Z;
  row_track_id : Z;
  row_type : string;
  row_truncated : num;
  row_occluded : num;
  row_alpha : num;
  row_bbox_left : num;
  row_bbox_top : num;
  row_bbox_right : num;
  row_bbox_bottom : num;
  row_height : num;
  row_width : num;
  row_length : num;
  row_x : num;
  row_y : num;
  row_z : num;
  row_rotation_y : num
}.

(** A row after [data.insert(loc=0, column='scene', value=scene_id)]. *)
Record Anno := {
  scene : Z;
  row : LabelRow
}.

(** [pyquaternion.Quaternion], kept as the expression that builds it. *)
Inductive Angle :=
| Radians (r : num)
| HalfPi
| Degrees (d : Z).

Inductive Quaternion :=
| AxisAngle (axis : Z * Z * Z) (a : Angle)
| QMul (p q : Quaternion).

(** Modelled from the spec: the [BoundingBox] class of [.utils], "a 3D
    oriented bounding box (center, extents, orientation)"; the constructor
    stores its three arguments. *)
Record BoundingBox := {
  center : list num;
  wlh : list num;
  orientation : Quaternion
}.

(** Modelled from the spec: the [PointCloud] class of [.utils], "a point
    cloud (4xN or 3xN numeric buffer: x,y,z[,intensity])"; the constructor
    stores the buffer it is given. *)
Record PointCloud := {
  points : list (list num)
}.

(** The dictionary [{'pcd': .., 'bbox': .., 'anno': ..}]. *)
Record Frame := {
  pcd : PointCloud;
  bbox : BoundingBox;
  anno : Anno
}.

(** The dictionary [{'comp_template_pcd': .., 'frames': ..}]. *)
Record TrackletMat := {
  comp_template_pcd : PointCloud;
  frames : list Frame
}.

(** What [np.fromfile] finds at a path that exists. *)
Inductive BinFile :=
| Unreadable
| FloatData (xs : list num).

(** The tree under [cfg.data_root_dir], by path: label tables as
    [pd.read_csv] parses them, calibration files as lines split into
    tokens, point-cloud buffers, and pickled cache files. *)
Record FileSystem := {
  label_files : gmap string (list LabelRow);
  calib_files : gmap string (list (list string));
  velodyne_files : gmap string BinFile;
  cache_files : gmap string (list TrackletMat)
}.

Record Config := {
  category_name : string;
  debug : bool;
  (** [None] when the attribute is absent: [getattr(cfg, .., 1)] *)
  cfg_preload_interval : option PreloadInterval;
  cfg_preload_offset : Z;
  cache_train : bool;
  cache_eval : bool;
  coordinate_mode : string;
  data_root_dir : string;
  model_offset : num;
  model_scale : num
}.
End DataModel.
Arguments LabelRow : clear implicits.
Arguments Anno : clear implicits.
Arguments Angle : clear implicits.
Arguments Quaternion : clear implicits.
Arguments BoundingBox : clear implicits.
Arguments PointCloud : clear implicits.
Arguments Frame : clear implicits.
Arguments TrackletMat : clear implicits.
Arguments BinFile : clear implicits.
Arguments FileSystem : clear implicits.
Arguments Config : clear implicits.

(** ** Geometry helpers of [.utils] (outside [kitti_full.py]) *)

Class GeometryUtils (num : Type) := {
  (** [pcd.transform(m)], the transformed cloud; [None] when it raises *)
  pcd_transform : list (list num) → PointCloud num → option (PointCloud num);
  crop_pcd_axis_aligned : PointCloud num → BoundingBox num → Z → PointCloud num;
  merge_template_pcds :
    list (PointCloud num) → list (BoundingBox num) → num → num → PointCloud num
}.

(** ** A state monad with exceptions

    [self.calibration_info] is updated by [_build_frame]; the state is kept
    when an exception is raised. *)

Definition M (S A : Type) : Type := S → result A * S.

Definition m_ret {S A} (a : A) : M S A := λ s, (Ok a, s).

Definition m_bind {S A B} (m : M S A) (k : A → M S B) : M S B := λ s,
  match m s with
  | (Ok a, s') => k a s'
  | (Raise e, s') => (Raise e, s')
  end.

Definition m_lift {S A} (r : result A) : M S A := λ s, (r, s).

Notation "'let*' x := m 'in' k" := (m_bind m (λ x, k))
  (at level 10, x pattern, m at level 200, k at level 200,
   format "'[v' 'let*'  x  :=  m  'in' '/' k ']'").

(** [for a in l: out.append(f(a))] *)
Fixpoint m_mapM {S A B} (f : A → M S B) (l : list A) : M S (list B) :=
  match l with
  | [] => m_ret []
  | a :: rest =>
      let* b := f a in
      let* bs := m_mapM f rest in
      m_ret (b :: bs)
  end.

(** ** Sorting helpers (pandas [sort_values], Python [sorted]) *)

Section Sorting.
Context {A : Type} (key : A → Z).

Fixpoint insert_by (a : A) (l : list A) : list A :=
  match l with
  | [] => [a]
  | b :: r => if key a <=? key b then a :: b :: r else b :: insert_by a r
  end.

(** Ascending by [key].  Rows with equal keys keep their order here;
    pandas' default quicksort leaves their order open, and a track has one
    row per frame. *)
Fixpoint sort_by (l : list A) : list A :=
  match l with
  | [] => []
  | a :: r => insert_by a (sort_by r)
  end.
End Sorting.

(** [Series.unique()]: the distinct values in order of first appearance *)
Fixpoint unique (l : list Z) : list Z :=
  match l with
  | [] => []
  | x :: r => x :: filter (λ y, y ≠ x) (unique r)
  end.

(** ** Subsampling (lines 165-182) *)

Section Subsampling.
Context {A : Type}.

(** [for i in range(min(len(tracklet_anno), interval)):
       tracklet_annotations.append(tracklet_anno[i::interval])] *)
Definition fixed_interval (interval : Z) (tracklet_anno : list A)
  : list (list A) :=
  (λ i, py_slice_step i interval tracklet_anno)
    <$> py_range (Z.min (len tracklet_anno) interval).

Definition sample_intervals : list Z := [1; 2; 3; 5; 10].

Definition subsample (split_type : string) (preload_interval : PreloadInterval)
    (tracklet_anno : list A) : list (list A) :=
  match preload_interval with
  | IntervalAll =>
      if decide (split_type = "train") then
        interval ← sample_intervals; fixed_interval interval tracklet_anno
      else
        let interval := 5 in
        fixed_interval interval tracklet_anno
  | Interval k => fixed_interval k tracklet_anno
  end.
End Subsampling.

(** ** The class [KITTIFull] *)

Section KITTIFull.
Context {num : Type} `{!NumpyOps num} `{!GeometryUtils num}.

Abbreviation Matrix := (list (list num)).
Abbreviation Calib := (gmap string (list (list num))).
Abbreviation CalibInfo := (gmap Z (gmap string (list (list num)))).

Record KITTIFull := {
  split_type : string;
  cfg : Config num;
  preload_interval : PreloadInterval;
  preload_offset : Z;
  cache : bool;
  calibration_info : CalibInfo;
  tracklet_annotations : list (list (Anno num));
  tracklet_num_frames : list Z;
  tracklet_st_frame_id : list Z;
  tracklet_ed_frame_id : list Z;
  (** [None] when caching is off *)
  tracklets : option (list (TrackletMat num))
}.

(** *** [_build_tracklet_annotations] *)

Definition accepted_type (category_name : string) (r : LabelRow num) : Prop :=
  if decide (category_name = "All") then
    row_type r = "Car" ∨ row_type r = "Van" ∨
    row_type r = "Pedestrian" ∨ row_type r = "Cyclist"
  else row_type r = category_name.

#[global] Instance accepted_type_dec c r : Decision (accepted_type c r).
Proof. unfold accepted_type. destruct (decide (c = "All")); apply _. Defined.

Definition track_of (a : Anno num) : Z := row_track_id (row a).
Definition frame_of (a : Anno num) : Z := row_frame (row a).

(** Lines 151-164: the rows of one scene, filtered, grouped by track id in
    ascending order, each group sorted by frame. *)
Definition track_groups (category_name : string) (scene_id : Z)
    (data : list (LabelRow num)) : list (list (Anno num)) :=
  let data := filter (accepted_type category_name) data in
  let data := (λ r, {| scene := scene_id; row := r |}) <$> data in
  let track_ids := sort_by id (unique (track_of <$> data)) in
  (λ track_id,
     let tracklet_anno := filter (λ a, track_of a = track_id) data in
     sort_by frame_of tracklet_anno) <$> track_ids.

(** The body of the loop over [scene_ids], from the parsed table on. *)
Definition scene_tracklets (split_type : string)
    (preload_interval : PreloadInterval) (category_name : string)
    (scene_id : Z) (data : list (LabelRow num)) : list (list (Anno num)) :=
  tracklet_anno ← track_groups category_name scene_id data;
  subsample split_type preload_interval tracklet_anno.

Definition label_path (cfg : Config num) (scene_id : Z) : string :=
  osp_join (data_root_dir cfg) ("label_02/" +:+ fmt_0d 4 scene_id +:+ ".txt").

Fixpoint _build_tracklet_annotations (fs : FileSystem num)
    (split_type : string) (preload_interval : PreloadInterval)
    (cfg : Config num) (scene_ids : list Z)
  : result (list (list (Anno num))) :=
  match scene_ids with
  | [] => Ok []
  | scene_id :: rest =>
      data ← match label_files fs !! label_path cfg scene_id with
             | Some data => Ok data
             | None => Raise FileNotFoundError
             end;
      more ← _build_tracklet_annotations fs split_type preload_interval
               cfg rest;
      Ok (scene_tracklets split_type preload_interval (category_name cfg)
            scene_id data ++ more)
  end.

(** *** [_read_calibration_file] *)

(** One line: [data[values[0]] = np.array([float(x) for x in
    values[1:]]).reshape(3, 4)] under [except ValueError: pass].  The right
    side is evaluated first, so [values[0]] is only read for a line of 13
    tokens. *)
Definition parse_calib_line (data : Calib) (values : list string) : Calib :=
  match mapM float (drop 1 values) ≫= reshape_3_4 with
  | None => data
  | Some m =>
      match values with
      | key :: _ => <[key := m]> data
      | [] => data
      end
  end.

Definition _read_calibration_file (fs : FileSystem num) (filepath : string)
  : result Calib :=
  match calib_files fs !! filepath with
  | None => Raise FileNotFoundError
  | Some lines => Ok (foldl parse_calib_line ∅ lines)
  end.

(** *** [_build_frame] *)

Definition calib_path (cfg : Config num) (scene_id : Z) : string :=
  osp_join (data_root_dir cfg) ("calib/" +:+ fmt_0d 4 scene_id +:+ ".txt").

Definition pcd_path (cfg : Config num) (scene_id frame_id : Z) : string :=
  osp_join (osp_join (data_root_dir cfg) ("velodyne/" +:+ fmt_0d 4 scene_id))
    (fmt_0d 6 frame_id +:+ ".bin").

(** Lines 204-209: the memoised calibration of a scene. *)
Definition get_calibration (fs : FileSystem num) (cfg : Config num)
    (scene_id : Z) : M CalibInfo Calib := λ calibration_info,
  match calibration_info !! scene_id with
  | Some calib => (Ok calib, calibration_info)
  | None =>
      match _read_calibration_file fs (calib_path cfg scene_id) with
      | Ok calib => (Ok calib, <[scene_id := calib]> calibration_info)
      | Raise e => (Raise e, calibration_info)
      end
  end.

(** [frame_anno["y"] - frame_anno["height"] / 2] *)
Definition center_y (r : LabelRow num) : num :=
  num_sub (row_y r) (num_div (row_height r) (of_int 2)).

(** Lines 214-234. *)
Definition build_bbox (cfg : Config num) (velo_to_cam : Matrix)
    (frame_anno : Anno num) : result (BoundingBox num) :=
  let r := row frame_anno in
  if decide (coordinate_mode cfg = "camera") then
    let bbox_center := [row_x r; center_y r; row_z r] in
    let size := [row_width r; row_length r; row_height r] in
    let orientation :=
      QMul (AxisAngle (0, 1, 0) (Radians (row_rotation_y r)))
           (AxisAngle (1, 0, 0) HalfPi) in
    Ok {| center := bbox_center; wlh := size; orientation := orientation |}
  else
    let box_center_cam := [row_x r; center_y r; row_z r; of_int 1] in
    match np_linalg_inv velo_to_cam with
    | None => Raise LinAlgError
    | Some inv =>
        let box_center_velo := np_dot inv box_center_cam in
        let box_center_velo := take 3 box_center_velo in
        let size := [row_width r; row_length r; row_height r] in
        let orientation :=
          QMul (AxisAngle (0, 0, -1) (Radians (row_rotation_y r)))
               (AxisAngle (0, 0, -1) (Degrees 90)) in
        Ok {| center := box_center_velo; wlh := size;
              orientation := orientation |}
    end.

(** The body of the [try] (lines 236-241). *)
Definition load_pcd_try (fs : FileSystem num) (cfg : Config num)
    (velo_to_cam : Matrix) (scene_id frame_id : Z)
  : result (PointCloud num) :=
  let pcd_file_dir := pcd_path cfg scene_id frame_id in
  match velodyne_files fs !! pcd_file_dir with
  | None => Raise FileNotFoundError
  | Some Unreadable => Raise OSError
  | Some (FloatData xs) =>
      match reshape_rows_4 xs with
      | None => Raise ValueError
      | Some rows =>
          let pcd := {| points := transpose 4 rows |} in
          if decide (coordinate_mode cfg = "camera") then
            match pcd_transform velo_to_cam pcd with
            | Some pcd' => Ok pcd'
            | None => Raise ValueError
            end
          else Ok pcd
      end
  end.

(** [PointCloud(np.array([[0, 0, 0]]).T)] *)
Definition placeholder_pcd : PointCloud num :=
  {| points := transpose 3 [[of_int 0; of_int 0; of_int 0]] |}.

(** The [try ... except:] statement (lines 235-245). *)
Definition load_pcd (fs : FileSystem num) (cfg : Config num)
    (velo_to_cam : Matrix) (scene_id frame_id : Z) : PointCloud num :=
  match load_pcd_try fs cfg velo_to_cam scene_id frame_id with
  | Ok pcd => pcd
  | Raise _ => placeholder_pcd
  end.

(** Lines 210-234: the homogeneous matrix and the box, from the
    calibration of the scene. *)
Definition bbox_of_calib (cfg : Config num) (frame_anno : Anno num)
    (calib : Calib) : result (Matrix * BoundingBox num) :=
  tr ← match calib !! "Tr_velo_cam" with
       | Some m => Ok m
       | None => Raise KeyError
       end;
  let velo_to_cam :=
    np_vstack tr [of_int 0; of_int 0; of_int 0; of_int 1] in
  _ ← py_assert (bool_decide
        (coordinate_mode cfg ∈ ["camera"; "velodyne"]));
  bbox ← build_bbox cfg velo_to_cam frame_anno;
  Ok (velo_to_cam, bbox).

(** Lines 202-234: everything before the [try]. *)
Definition bbox_stage (fs : FileSystem num) (cfg : Config num)
    (frame_anno : Anno num) : M CalibInfo (Matrix * BoundingBox num) :=
  let scene_id := scene frame_anno in
  let* calib := get_calibration fs cfg scene_id in
  m_lift (bbox_of_calib cfg frame_anno calib).

Definition _build_frame (fs : FileSystem num) (cfg : Config num)
    (frame_anno : Anno num) : M CalibInfo (Frame num) :=
  let scene_id := scene frame_anno in
  let frame_id := row_frame (row frame_anno) in
  let* vb := bbox_stage fs cfg frame_anno in
  let velo_to_cam := vb.1 in
  let bbox := vb.2 in
  let pcd := load_pcd fs cfg velo_to_cam scene_id frame_id in
  m_ret {| pcd := pcd; bbox := bbox; anno := frame_anno |}.

(** *** [__init__] *)

(** [range(lo, hi)] *)
Definition py_range2 (lo hi : Z) : list Z :=
  (λ i, lo + Z.of_nat i) <$> seq 0 (Z.to_nat (hi - lo)).

Definition split_type_to_scene_ids (debug : bool) : gmap string (list Z) :=
  if negb debug then
    {[ "train" := py_range2 0 17;
       "val" := py_range2 17 19;
       "test" := py_range2 19 21 ]}
  else
    {[ "train" := [0]; "val" := [18]; "test" := [19] ]}.

Definition cache_file_dir (cfg : Config num) (split_type : string)
    (preload_offset : Z) (preload_interval : PreloadInterval) : string :=
  osp_join (data_root_dir cfg)
    ((if debug cfg then "KITTI_DEBUG_" else "KITTI_")
       +:+ category_name cfg +:+ "_" +:+ split_type +:+ "_"
       +:+ coordinate_mode cfg +:+ "_" +:+ pretty preload_offset +:+ "_"
       +:+ fmt_interval preload_interval +:+ ".cache").

(** [frame['pcd'] = crop_pcd_axis_aligned(frame['pcd'], frame['bbox'],
    offset=offset)] on one frame dictionary *)
Definition crop_frame (offset : Z) (frame : Frame num) : Frame num :=
  {| pcd := crop_pcd_axis_aligned (pcd frame) (bbox frame) offset;
     bbox := bbox frame;
     anno := anno frame |}.

(** [for frame in frames: frame['pcd'] = ...]: the dictionaries held by
    the list are updated one after the other, in place. *)
Definition crop_frames_in_place (offset : Z) (frames : list (Frame num))
  : list (Frame num) :=
  foldl (λ acc i, alter (crop_frame offset) i acc) frames
    (seq 0 (length frames)).

(** The body of the loop over [tracklet_id] (lines 68-86). *)
Definition materialize_tracklet (fs : FileSystem num) (cfg : Config num)
    (preload_offset : Z) (tracklet_anno : list (Anno num))
  : M CalibInfo (TrackletMat num) :=
  let* frames := m_mapM (_build_frame fs cfg) tracklet_anno in
  let comp_template_pcd :=
    merge_template_pcds (pcd <$> frames) (bbox <$> frames)
      (model_offset cfg) (model_scale cfg) in
  let frames :=
    if 0 <? preload_offset then crop_frames_in_place preload_offset frames
    else frames in
  m_ret {| comp_template_pcd := comp_template_pcd; frames := frames |}.

(** Lines 40-52: annotations and index boundaries. *)
Definition index_stage (fs : FileSystem num) (split_type : string)
    (preload_interval : PreloadInterval) (cfg : Config num)
  : result (list (list (Anno num)) * list Z * (list Z * list Z)) :=
  scene_ids ← match split_type_to_scene_ids (debug cfg) !! split_type with
              | Some ids => Ok ids
              | None => Raise KeyError
              end;
  tracklet_annotations ←
    _build_tracklet_annotations fs split_type preload_interval cfg scene_ids;
  let tracklet_num_frames := len <$> tracklet_annotations in
  boundaries ← build_index tracklet_num_frames;
  Ok (tracklet_annotations, tracklet_num_frames, boundaries).

Definition write_cache (fs : FileSystem num) (path : string)
    (tracklets : list (TrackletMat num)) : FileSystem num :=
  {| label_files := label_files fs;
     calib_files := calib_files fs;
     velodyne_files := velodyne_files fs;
     cache_files := <[path := tracklets]> (cache_files fs) |}.

Definition __init__ (fs : FileSystem num) (split_type : string)
    (cfg : Config num) : result KITTIFull * FileSystem num :=
  match py_assert (bool_decide
          (category_name cfg ∈ ["Van"; "Car"; "Pedestrian"; "Cyclist"; "All"]))
  with
  | Raise e => (Raise e, fs)
  | Ok _ =>
      let preload_interval := default (Interval 1) (cfg_preload_interval cfg) in
      let preload_offset :=
        if decide (split_type = "train") then cfg_preload_offset cfg else -1 in
      let cache :=
        if decide (split_type = "train") then cache_train cfg
        else cache_eval cfg in
      let calibration_info : CalibInfo := ∅ in
      match index_stage fs split_type preload_interval cfg with
      | Raise e => (Raise e, fs)
      | Ok (tracklet_annotations, tracklet_num_frames, (st, ed)) =>
          let self calibration_info tracklets :=
            {| split_type := split_type;
               cfg := cfg;
               preload_interval := preload_interval;
               preload_offset := preload_offset;
               cache := cache;
               calibration_info := calibration_info;
               tracklet_annotations := tracklet_annotations;
               tracklet_num_frames := tracklet_num_frames;
               tracklet_st_frame_id := st;
               tracklet_ed_frame_id := ed;
               tracklets := tracklets |} in
          if cache then
            let path :=
              cache_file_dir cfg split_type preload_offset preload_interval in
            match cache_files fs !! path with
            | Some tracklets => (Ok (self calibration_info (Some tracklets)), fs)
            | None =>
                match m_mapM (materialize_tracklet fs cfg preload_offset)
                        tracklet_annotations calibration_info with
                | (Raise e, _) => (Raise e, fs)
                | (Ok tracklets, calibration_info') =>
                    (Ok (self calibration_info' (Some tracklets)),
                     write_cache fs path tracklets)
                end
            end
          else (Ok (self calibration_info None), fs)
      end
  end.

(** *** Accessors *)

Definition num_tracklets (self : KITTIFull) : Z :=
  len (tracklet_annotations self).

Definition num_frames (self : KITTIFull) : result Z :=
  py_index (tracklet_ed_frame_id self) (-1).

Definition num_tracklet_frames (self : KITTIFull) (tracklet_id : Z)
  : result Z :=
  py_index (tracklet_num_frames self) tracklet_id.

Definition get_tracklet_frame_id (self : KITTIFull) (idx : Z)
  : result (Z * Z) :=
  resolve (tracklet_st_frame_id self) (tracklet_ed_frame_id self) idx.

Definition with_calibration_info (self : KITTIFull)
    (calibration_info : CalibInfo) : KITTIFull :=
  {| split_type := split_type self;
     cfg := cfg self;
     preload_interval := preload_interval self;
     preload_offset := preload_offset self;
     cache := cache self;
     calibration_info := calibration_info;
     tracklet_annotations := tracklet_annotations self;
     tracklet_num_frames := tracklet_num_frames self;
     tracklet_st_frame_id := tracklet_st_frame_id self;
     tracklet_ed_frame_id := tracklet_ed_frame_id self;
     tracklets := tracklets self |}.

(** [if self.tracklets:] is false for [None] and for the empty list. *)
Definition truthy {A} (o : option (list A)) : bool :=
  match o with
  | Some (_ :: _) => true
  | _ => false
  end.

(** [get_frame]; the second component is [self] afterwards. *)
Definition get_frame (fs : FileSystem num) (self : KITTIFull)
    (tracklet_id frame_id : Z) : result (Frame num) * KITTIFull :=
  if truthy (tracklets self) then
    (tracklet ← py_index (default [] (tracklets self)) tracklet_id;
     py_index (frames tracklet) frame_id,
     self)
  else
    match (tracklet_anno ← py_index (tracklet_annotations self) tracklet_id;
           py_index tracklet_anno frame_id) with
    | Raise e => (Raise e, self)
    | Ok frame_anno =>
        match _build_frame fs (cfg self) frame_anno (calibration_info self) with
        | (Raise e, ci) => (Raise e, with_calibration_info self ci)
        | (Ok frame, ci) =>
            let frame :=
              if 0 <? preload_offset self
              then crop_frame (preload_offset self) frame
              else frame in
            (Ok frame, with_calibration_info self ci)
        end
    end.

Definition get_comp_template_pcd (self : KITTIFull) (tracklet_id : Z)
  : result (PointCloud num) :=
  match tracklets self with
  | None => Raise TypeError
  | Some tracklets =>
      tracklet ← py_index tracklets tracklet_id;
      Ok (comp_template_pcd tracklet)
  end.
End KITTIFull.
Arguments KITTIFull : clear implicits.

(** ** Notions used to state the properties *)

(** The boundaries in closed form: running sums of the tracklet lengths. *)
Fixpoint starts (acc : Z) (nums : list Z) : list Z :=
  match nums with
  | [] => []
  | n :: rest => acc :: starts (acc + n) rest
  end.

Fixpoint ends (acc : Z) (nums : list Z) : list Z :=
  match nums with
  | [] => []
  | n :: rest => (acc + n) :: ends (acc + n) rest
  end.

Definition sum_list (l : list Z) : Z := foldr Z.add 0 l.

(** Ascending order, as [bisect] needs it. *)
Definition sorted_list (a : list Z) : Prop :=
  ∀ (i j : nat) u v, (i ≤ j)%nat → a !! i = Some u → a !! j = Some v → u ≤ v.

(** The interval list of the exhaustive mode, by role. *)
Definition role_intervals (split_type : string) : list Z :=
  if decide (split_type = "train") then [1; 2; 3; 5; 10] else [5].

(** Ascending by [key], as [sort_values] and [sorted] leave a list. *)
Definition key_le {A} (key : A → Z) (a b : A) : Prop := key a ≤ key b.

(** [n] copies of a list, one after the other. *)
Fixpoint copies {A} (n : nat) (l : list A) : list A :=
  match n with
  | O => []
  | S n' => l ++ copies n' l
  end.

Section Notions.
Context {num : Type} `{!NumpyOps num} `{!GeometryUtils num}.

(** [sum(num_tracklet_frames(i) for i in range(num_tracklets()))] *)
Definition sum_tracklet_frames (self : KITTIFull num) : result Z :=
  foldl (λ acc i, a ← acc; n ← num_tracklet_frames self (Z.of_nat i); Ok (a + n))
    (Ok 0) (py_range (num_tracklets self)).

(** Every memoised calibration is what reading its file gives. *)
Definition calib_consistent (fs : FileSystem num) (cfg : Config num)
    (ci : gmap Z (gmap string (list (list num)))) : Prop :=
  ∀ scene_id calib, ci !! scene_id = Some calib →
    _read_calibration_file fs (calib_path cfg scene_id) = Ok calib.

(** A frame built with nothing memoised yet. *)
Definition build_frame_fresh (fs : FileSystem num) (cfg : Config num)
    (frame_anno : Anno num) : result (Frame num) :=
  (_build_frame fs cfg frame_anno ∅).1.

(** The same configuration with caching switched on or off. *)
Definition set_cache (b : bool) (cfg : Config num) : Config num :=
  {| category_name := category_name cfg;
     debug := debug cfg;
     cfg_preload_interval := cfg_preload_interval cfg;
     cfg_preload_offset := cfg_preload_offset cfg;
     cache_train := b;
     cache_eval := b;
     coordinate_mode := coordinate_mode cfg;
     data_root_dir := data_root_dir cfg;
     model_offset := model_offset cfg;
     model_scale := model_scale cfg |}.

(** The point-cloud file of a record is missing or cannot be read. *)
Definition pcd_file_missing (fs : FileSystem num) (cfg : Config num)
    (frame_anno : Anno num) : Prop :=
  let path := pcd_path cfg (scene frame_anno) (row_frame (row frame_anno)) in
  velodyne_files fs !! path = None ∨
  velodyne_files fs !! path = Some Unreadable.

(** Some step of the load-and-transform block raises: the read, the
    reshape to 4 columns, or the transform in camera mode. *)
Definition pcd_block_fails (fs : FileSystem num) (cfg : Config num)
    (velo_to_cam : list (list num)) (frame_anno : Anno num) : Prop :=
  let path := pcd_path cfg (scene frame_anno) (row_frame (row frame_anno)) in
  velodyne_files fs !! path = None ∨
  velodyne_files fs !! path = Some Unreadable ∨
  ∃ xs, velodyne_files fs !! path = Some (FloatData xs) ∧
        ((length xs mod 4)%nat ≠ 0%nat ∨
         ∃ rows, reshape_rows_4 xs = Some rows ∧
                 coordinate_mode cfg = "camera" ∧
                 pcd_transform velo_to_cam {| points := transpose 4 rows |}
                   = None).
(** The optional crop of [get_frame] and of the cache loop. *)
Definition crop_if_positive (offset : Z) (frame : Frame num) : Frame num :=
  if 0 <? offset then crop_frame offset frame else frame.

(** A materialisation holds the merged template of the frames
    [_build_frame] returns for the records, and those frames after the
    optional crop. *)
Definition materialises (fs : FileSystem num) (cfg : Config num)
    (offset : Z) (tracklet_anno : list (Anno num))
    (tracklet : TrackletMat num) : Prop :=
  ∃ built,
    mapM (build_frame_fresh fs cfg) tracklet_anno = Ok built ∧
    comp_template_pcd tracklet =
      merge_template_pcds (pcd <$> built) (bbox <$> built)
        (model_offset cfg) (model_scale cfg) ∧
    frames tracklet =
      (if 0 <? offset then crop_frame offset <$> built else built).

(** What [__init__] establishes about the index. *)
Definition indexed (self : KITTIFull num) : Prop :=
  tracklet_num_frames self = len <$> tracklet_annotations self ∧
  Forall (λ n, 0 < n) (tracklet_num_frames self) ∧
  tracklet_st_frame_id self = starts 0 (tracklet_num_frames self) ∧
  tracklet_ed_frame_id self = ends 0 (tracklet_num_frames self).

(** The cache file of a split under a configuration. *)
Definition cache_path (split_type : string) (cfg : Config num) : string :=
  cache_file_dir cfg split_type
    (if decide (split_type = "train") then cfg_preload_offset cfg else -1)
    (default (Interval 1) (cfg_preload_interval cfg)).

(** The category assertion of [__init__] (lines 20-21). *)
Definition valid_category (cfg : Config num) : Prop :=
  category_name cfg ∈ ["Van"; "Car"; "Pedestrian"; "Cyclist"; "All"].

(** Lines 151-159: the rows that pass the category filter, with their
    scene. *)
Definition accepted_rows (category : string) (scene_id : Z)
    (data : list (LabelRow num)) : list (Anno num) :=
  (λ r, {| scene := scene_id; row := r |})
    <$> filter (accepted_type category) data.

(** What one line contributes under [key]: the 3x4 matrix of its 12 floats
    when its first token is [key] and the other tokens are 12 floats. *)
Definition calib_entry (key : string) (values : list string)
  : option (list (list num)) :=
  match values with
  | k :: rest =>
      if decide (k = key) then mapM float rest ≫= reshape_3_4 else None
  | [] => None
  end.

(** A client that calls [get_frame] for each request in turn, on the one
    dataset object. *)
Definition get_frames (fs : FileSystem num) (self : KITTIFull num)
    (requests : list (Z * Z)) : list (result (Frame num)) * KITTIFull num :=
  foldl (λ acc req,
           let out := get_frame fs acc.2 req.1 req.2 in
           (acc.1 ++ [out.1], out.2))
    ([], self) requests.

(** The same configuration with other template parameters. *)
Definition with_model (offset scale : num) (cfg : Config num) : Config num :=
  {| category_name := category_name cfg;
     debug := debug cfg;
     cfg_preload_interval := cfg_preload_interval cfg;
     cfg_preload_offset := cfg_preload_offset cfg;
     cache_train := cache_train cfg;
     cache_eval := cache_eval cfg;
     coordinate_mode := coordinate_mode cfg;
     data_root_dir := data_root_dir cfg;
     model_offset := offset;
     model_scale := scale |}.
End Notions.

(** ** A small data root, used for the concrete instances below *)

Module Sample.
(** Exact integer arithmetic stands in for the floats. *)
#[export] Instance numpy_Z : NumpyOps Z := {|
  of_int := id;
  num_sub := Z.sub;
  num_div := Z.div;
  float := λ s, if decide (s = "0") then Some 0
                else if decide (s = "1") then Some 1 else None;
  np_dot := λ m v, (λ row, foldr Z.add 0 (zip_with Z.mul row v)) <$> m;
  np_linalg_inv := λ m, Some m
|}.

#[export] Instance utils_Z : GeometryUtils Z := {|
  pcd_transform := λ m p, Some p;
  crop_pcd_axis_aligned := λ p b offset, {| points := take 1 <$> points p |};
  merge_template_pcds := λ ps bs offset scale,
    {| points := foldr (zip_with app) [[]; []; []] (points <$> ps) |}
|}.

Definition label (frame track : Z) (type : string) : LabelRow Z :=
  {| row_frame := frame; row_track_id := track; row_type := type;
     row_truncated := 0; row_occluded := 0; row_alpha := 0;
     row_bbox_left := 0; row_bbox_top := 0; row_bbox_right := 0;
     row_bbox_bottom := 0;
     row_height := 2; row_width := 3; row_length := 5;
     row_x := 10; row_y := 20; row_z := 30; row_rotation_y := 0 |}.

(** Track 0: frames 0..6 of a car; track 1: two frames of a van. *)
Definition labels : list (LabelRow Z) :=
  [ label 0 0 "Car"; label 1 0 "Car"; label 1 1 "Van"; label 2 0 "Car";
    label 3 0 "Car"; label 2 1 "Van"; label 4 0 "Car"; label 5 0 "Car";
    label 6 0 "Car"; label 6 2 "DontCare" ].

Definition calib_lines : list (list string) :=
  [ ["P0:"; "1"; "0"; "0"; "0"; "0"; "1"; "0"; "0"; "0"; "0"; "1"; "0"];
    [];
    ["calib_time:"; "09-Jan-2012"];
    ["Tr_velo_cam"; "1"; "0"; "0"; "0"; "0"; "1"; "0"; "0"; "0"; "0"; "1"; "0"] ].

Definition config (category : string) (interval : option PreloadInterval)
    (offset : Z) (caching : bool) (mode : string) : Config Z :=
  {| category_name := category; debug := true;
     cfg_preload_interval := interval; cfg_preload_offset := offset;
     cache_train := caching; cache_eval := caching;
     coordinate_mode := mode; data_root_dir := "data";
     model_offset := 0; model_scale := 1 |}.

(** Scene 0 with its labels and calibration; the point clouds of frames
    0 and 1 are present, that of frame 2 has a size that is no multiple of
    4, that of frame 3 is unreadable and the others are missing. *)
Definition fs : FileSystem Z :=
  {| label_files := {[ "data/label_02/0000.txt" := labels;
                       "data/label_02/0018.txt" := labels ]};
     calib_files := {[ "data/calib/0000.txt" := calib_lines;
                       "data/calib/0018.txt" := calib_lines ]};
     velodyne_files :=
       {[ "data/velodyne/0000/000000.bin" := FloatData [1; 2; 3; 4; 5; 6; 7; 8];
          "data/velodyne/0000/000001.bin" := FloatData [9; 8; 7; 6];
          "data/velodyne/0000/000002.bin" := FloatData [1; 2; 3; 4; 5];
          "data/velodyne/0000/000003.bin" := Unreadable ]};
     cache_files := ∅ |}.

(** The same tree without the calibration files. *)
Definition fs_no_calib : FileSystem Z :=
  {| label_files := label_files fs;
     calib_files := ∅;
     velodyne_files := velodyne_files fs;
     cache_files := ∅ |}.

(** No cyclist is labelled: the validation split has no tracklet. *)
Definition empty_config : Config Z := config "Cyclist" None 10 false "camera".

Definition empty_dataset : KITTIFull Z :=
  {| split_type := "val"; cfg := empty_config;
     preload_interval := Interval 1; preload_offset := -1; cache := false;
     calibration_info := ∅; tracklet_annotations := [];
     tracklet_num_frames := []; tracklet_st_frame_id := [];
     tracklet_ed_frame_id := []; tracklets := None |}.

Definition sample_config : Config Z :=
  config "All" (Some (Interval 2)) 1 false "camera".
Definition exhaustive_config : Config Z :=
  config "All" (Some IntervalAll) 1 false "camera".
Definition camera_config : Config Z :=
  config "Car" (Some (Interval 1)) 1 true "camera".
Definition velodyne_config : Config Z :=
  config "Car" (Some (Interval 1)) 1 true "velodyne".
Definition cached_config : Config Z :=
  config "Car" (Some (Interval 2)) 1 true "camera".

Definition car (frame : Z) : Anno Z :=
  {| scene := 0; row := label frame 0 "Car" |}.

(** An interval of 0. *)
Definition zero_interval_config : Config Z :=
  config "Car" (Some (Interval 0)) 1 false "camera".

(** Three rows of two tracks, out of frame order. *)
Definition labels_unordered : list (LabelRow Z) :=
  [ label 1 0 "Car"; label 0 1 "Van"; label 0 0 "Car" ].
End Sample.

Import Sample.

(** ** Attention modules ([modules/transformer_layer.py]), by tensor shape

    A tensor is represented by its shape.  Values, dtype, device, dropout
    and the initialisation of the parameters are left out. *)

(** Python's exceptions of the dataset part, and two more. *)
Inductive torch_exn :=
| PyExn (e : exn)
| ZeroDivisionError
| RuntimeError.

Inductive tresult (A : Type) :=
| TOk (a : A)
| TRaise (e : torch_exn).
Arguments TOk {A} a.
Arguments TRaise {A} e.

#[global] Instance tresult_ret : MRet tresult := λ A a, TOk a.
#[global] Instance tresult_bind : MBind tresult := λ A B f m,
  match m with
  | TOk a => f a
  | TRaise e => TRaise e
  end.

(** [a // b] on Python integers *)
Definition floordiv (a b : Z) : tresult Z :=
  if decide (b = 0) then TRaise ZeroDivisionError else TOk (a / b).

Module torch.
(** [torch.Size] *)
Abbreviation Size := (list Z).

Definition numel (s : Size) : Z := foldr Z.mul 1 s.

(** [x.reshape(d0, d1, ...)]: the element counts must agree; a single
    dimension given as -1 is inferred from the others. *)
Definition reshape (x dims : Size) : tresult Size :=
  match filter (λ d, d < 0) dims with
  | [] =>
      if decide (numel x = numel dims) then TOk dims else TRaise RuntimeError
  | [d] =>
      let known := numel (filter (λ d, 0 ≤ d) dims) in
      if decide (d = -1 ∧ 0 < known ∧ numel x mod known = 0)
      then TOk ((λ d, if decide (d < 0) then numel x / known else d) <$> dims)
      else TRaise RuntimeError
  | _ => TRaise RuntimeError
  end.

(** [x.contiguous().view(d0, d1, ...)] *)
Definition view (x dims : Size) : tresult Size := reshape x dims.

(** [x.permute(d0, d1, ...)] *)
Definition permute (x : Size) (dims : list nat) : tresult Size :=
  if decide (dims ≡ₚ seq 0 (length x)) then
    match mapM (λ i : nat, x !! i) dims with
    | Some s => TOk s
    | None => TRaise RuntimeError
    end
  else TRaise RuntimeError.

(** [x.transpose(i, j)] *)
Definition transpose (x : Size) (i j : nat) : tresult Size :=
  match x !! i, x !! j with
  | Some a, Some b => TOk (<[i := b]> (<[j := a]> x))
  | _, _ => TRaise (PyExn IndexError)
  end.

(** [x[i]]: indexing the first dimension *)
Definition getitem (x : Size) (i : Z) : tresult Size :=
  match x with
  | d :: rest =>
      if decide (- d ≤ i < d) then TOk rest else TRaise (PyExn IndexError)
  | [] => TRaise (PyExn IndexError)
  end.

(** [torch.bmm(a, b)] *)
Definition bmm (a b : Size) : tresult Size :=
  match a, b with
  | [b1; n; m], [b2; m'; p] =>
      if decide (b1 = b2 ∧ m = m') then TOk [b1; n; p]
      else TRaise RuntimeError
  | _, _ => TRaise RuntimeError
  end.

(** [x.softmax(dim=-1)], and likewise dropout and the division by a
    number: the shape is kept. *)
Definition softmax (x : Size) : Size := x.

(** [x.sum(dim=d)] *)
Definition sum (x : Size) (d : nat) : tresult Size :=
  if decide (d < length x)%nat then TOk (delete d x)
  else TRaise (PyExn IndexError).

(** [nn.Linear(in_features, out_features)] *)
Record Linear := {
  in_features : Z;
  out_features : Z
}.

(** Calling the layer on a tensor: its last dimension must be
    [in_features]. *)
Definition Linear_call (l : Linear) (x : Size) : tresult Size :=
  match reverse x with
  | d :: front =>
      if decide (d = in_features l) then TOk (reverse front ++ [out_features l])
      else TRaise RuntimeError
  | [] => TRaise RuntimeError
  end.
End torch.

Module CrossMultiheadAttention.
Record t := {
  embed_dim : Z;
  kdim : Z;
  vdim : Z;
  num_heads : Z;
  head_dim : Z;
  q1 : torch.Linear;
  kv1 : torch.Linear;
  q2 : torch.Linear;
  kv2 : torch.Linear;
  proj1 : torch.Linear;
  proj2 : torch.Linear
}.

(** Lines 50-77.  [head_dim ** -0.5] raises ZeroDivisionError for a head
    dimension of 0.  The layers are recorded by their sizes; their
    construction is taken to succeed, as it does from an embedding
    dimension of 2 on. *)
Definition __init__ (embed_dim num_heads : Z) (kdim vdim : option Z)
  : tresult t :=
  let kdim := default embed_dim kdim in
  let vdim := default embed_dim vdim in
  head_dim ← floordiv embed_dim num_heads;
  _ ← (if decide (head_dim * num_heads = embed_dim) then TOk tt
       else TRaise (PyExn AssertionError));
  _ ← (if decide (head_dim = 0) then TRaise ZeroDivisionError else TOk tt);
  TOk {| embed_dim := embed_dim; kdim := kdim; vdim := vdim;
         num_heads := num_heads; head_dim := head_dim;
         q1 := torch.Build_Linear embed_dim (embed_dim / 2);
         kv1 := torch.Build_Linear embed_dim embed_dim;
         q2 := torch.Build_Linear embed_dim (embed_dim / 2);
         kv2 := torch.Build_Linear embed_dim embed_dim;
         proj1 := torch.Build_Linear (embed_dim / 2) (embed_dim / 2);
         proj2 := torch.Build_Linear (embed_dim / 2) (embed_dim / 2) |}.

(** Lines 105-115, and again lines 117-127 with [q2], [kv2], [proj2] and
    [local_kv]: one attention over a key-value tensor with [Nk] entries.
    Returns [x1] and [attn1]. *)
Definition attend (self : t) (q kv proj : torch.Linear)
    (query key_value : torch.Size) (Nq B C Nk : Z)
  : tresult (torch.Size * torch.Size) :=
  let H := num_heads self in
  let D := head_dim self in
  q1 ← torch.Linear_call q query;
  q1 ← torch.reshape q1 [Nq; B; H / 2; D];
  kv1 ← torch.Linear_call kv key_value;
  kv1 ← torch.reshape kv1 [Nk; B; 2; H / 2; D];
  kv1 ← torch.permute kv1 [2; 0; 1; 3; 4]%nat;
  k1 ← torch.getitem kv1 0;
  v1 ← torch.getitem kv1 1;
  q1 ← torch.view q1 [Nq; B * H / 2; D];
  q1 ← torch.transpose q1 0 1;
  k1 ← torch.view k1 [Nk; B * H / 2; D];
  k1 ← torch.transpose k1 0 1;
  v1 ← torch.view v1 [Nk; B * H / 2; D];
  v1 ← torch.transpose v1 0 1;
  k1t ← torch.transpose k1 1 2;
  attn1 ← torch.bmm q1 k1t;
  let attn1 := torch.softmax attn1 in
  x1 ← torch.bmm attn1 v1;
  x1 ← torch.transpose x1 0 1;
  x1 ← torch.view x1 [Nq; B; C / 2];
  x1 ← torch.Linear_call proj x1;
  TOk (x1, attn1).

(** Lines 100-132. *)
Definition forward (self : t) (query global_kv local_kv : torch.Size)
  : tresult ((torch.Size * torch.Size) * (torch.Size * torch.Size)) :=
  match query with
  | [Nq; B; C] =>
      match global_kv, local_kv with
      | Nkg :: _, Nkl :: _ =>
          xa1 ← attend self (q1 self) (kv1 self) (proj1 self)
                  query global_kv Nq B C Nkg;
          xa2 ← attend self (q2 self) (kv2 self) (proj2 self)
                  query local_kv Nq B C Nkl;
          let H := num_heads self in
          attn1 ← torch.view xa1.2 [B; H / 2; Nq; Nkg];
          attn2 ← torch.view xa2.2 [B; H / 2; Nq; Nkl];
          attn1 ← torch.sum attn1 1;
          attn2 ← torch.sum attn2 1;
          TOk ((xa1.1, attn1), (xa2.1, attn2))
      | _, _ => TRaise (PyExn IndexError)
      end
  | _ => TRaise (PyExn ValueError)
  end.
End CrossMultiheadAttention.

(** ** Proof steps *)

(** Membership in a list given by its elements. *)
Ltac in_list :=
  repeat first [apply list_elem_of_here | apply list_elem_of_further].

(** One step of a shape computation. *)
Ltac tbind := cbn [mbind tresult_bind].

(** A shape without negative entries. *)
Ltac nonneg := repeat constructor; lia.

(** * Properties *)

(** ** Python indexing *)

Section PyIndexFacts.
Context {A : Type}.
Implicit Types (l : list A) (a : A).

Lemma py_index_lookup l (i : nat) a :
  l !! i = Some a → py_index l (Z.of_nat i) = Ok a.
Proof.
  intros Hl. pose proof (lookup_lt_Some _ _ _ Hl) as Hlt.
  unfold py_index, len.
  destruct (Z.ltb_spec (Z.of_nat i) 0); [lia|].
  destruct (Z.leb_spec 0 (Z.of_nat i)); [|lia].
  destruct (Z.ltb_spec (Z.of_nat i) (Z.of_nat (length l))); [|lia].
  simpl. by rewrite Nat2Z.id, Hl.
Qed.

Lemma py_index_Ok_inv l i a :
  0 ≤ i → py_index l i = Ok a → l !! Z.to_nat i = Some a ∧ i < len l.
Proof.
  intros Hi. unfold py_index.
  destruct (Z.ltb_spec i 0); [lia|].
  destruct (Z.leb_spec 0 i); [|lia].
  destruct (Z.ltb_spec i (len l)); simpl; [|done].
  destruct (l !! Z.to_nat i) eqn:E; [|done].
  intros [= ->]. done.
Qed.

Lemma py_index_out_of_range l i :
  len l ≤ i → py_index l i = Raise IndexError.
Proof.
  intros Hi. unfold py_index. unfold len in *.
  destruct (Z.ltb_spec i 0); [lia|].
  destruct (Z.ltb_spec i (Z.of_nat (length l))); [lia|].
  by rewrite andb_false_r.
Qed.

Lemma py_index_last l :
  py_index l (-1) = match last l with
                    | Some a => Ok a
                    | None => Raise IndexError
                    end.
Proof.
  unfold py_index, len. change (-1 <? 0) with true. cbv iota.
  destruct l as [|a0 l' _] using rev_ind; [reflexivity|].
  rewrite last_snoc, length_app. simpl length.
  rewrite (proj2 (Z.leb_le _ _)) by lia.
  rewrite (proj2 (Z.ltb_lt _ _)) by lia. simpl.
  replace (Z.to_nat (-1 + Z.of_nat (length l' + 1))) with (length l') by lia.
  by rewrite list_lookup_middle.
Qed.
Lemma py_index_nil (i : Z) : py_index (@nil A) i = Raise IndexError.
Proof.
  unfold py_index, len. simpl length. change (Z.of_nat 0) with 0.
  destruct (i <? 0).
  - destruct (Z.leb_spec 0 (i + 0)), (Z.ltb_spec (i + 0) 0); simpl; try done; lia.
  - destruct (Z.leb_spec 0 i), (Z.ltb_spec i 0); simpl; try done; lia.
Qed.
End PyIndexFacts.

(** ** The boundary lists *)

Lemma index_loop_closed nums : ∀ acc st ed st' ed',
  index_loop nums acc st ed = Ok (st', ed') →
  Forall (λ n, 0 < n) nums ∧ st' = st ++ starts acc nums ∧ ed' = ed ++ ends acc nums.
Proof.
  induction nums as [|n rest IH]; intros acc st ed st' ed'; simpl.
  - intros [= <- <-]. by rewrite !app_nil_r.
  - destruct (Z.ltb_spec 0 n); simpl; [|done].
    intros Hloop. apply IH in Hloop as (Hall & -> & ->).
    rewrite <- !app_assoc. simpl. auto.
Qed.

Lemma index_loop_positive nums : ∀ acc st ed,
  Forall (λ n, 0 < n) nums →
  index_loop nums acc st ed = Ok (st ++ starts acc nums, ed ++ ends acc nums).
Proof.
  induction nums as [|n rest IH]; intros acc st ed Hall; simpl.
  - by rewrite !app_nil_r.
  - inversion Hall as [|? ? Hn Hrest]; subst.
    destruct (Z.ltb_spec 0 n); [|lia]. simpl.
    rewrite IH by done. by rewrite <- !app_assoc.
Qed.

Lemma build_index_closed nums st ed :
  build_index nums = Ok (st, ed) →
  Forall (λ n, 0 < n) nums ∧ st = starts 0 nums ∧ ed = ends 0 nums.
Proof. unfold build_index. intros H. by apply index_loop_closed in H. Qed.

Lemma length_starts nums : ∀ acc, length (starts acc nums) = length nums.
Proof. induction nums; intros; simpl; auto. Qed.

Lemma length_ends nums : ∀ acc, length (ends acc nums) = length nums.
Proof. induction nums; intros; simpl; auto. Qed.

Lemma starts_lookup nums : ∀ acc (i : nat),
  (i < length nums)%nat →
  starts acc nums !! i = Some (acc + sum_list (take i nums)).
Proof.
  induction nums as [|n rest IH]; intros acc i Hi; simpl in *; [lia|].
  destruct i as [|i]; simpl.
  - f_equal. lia.
  - rewrite IH by lia. f_equal. unfold sum_list. lia.
Qed.

Lemma ends_lookup nums : ∀ acc (i : nat),
  (i < length nums)%nat →
  ends acc nums !! i = Some (acc + sum_list (take (S i) nums)).
Proof.
  induction nums as [|n rest IH]; intros acc i Hi; simpl in *; [lia|].
  destruct i as [|i]; simpl.
  - f_equal. rewrite ?take_0. unfold sum_list. simpl. lia.
  - rewrite IH by lia. f_equal. unfold sum_list. simpl. lia.
Qed.

Lemma sum_list_take_S nums (i : nat) n :
  nums !! i = Some n →
  sum_list (take (S i) nums) = sum_list (take i nums) + n.
Proof.
  revert i. induction nums as [|m rest IH]; intros [|i] Hn; simpl in *; try done.
  - injection Hn as ->. rewrite ?take_0. unfold sum_list. simpl. lia.
  - specialize (IH _ Hn). unfold sum_list in *. simpl in *. lia.
Qed.

Lemma sum_list_take_mono nums (i j : nat) :
  Forall (λ n, 0 < n) nums → (i ≤ j)%nat →
  sum_list (take i nums) ≤ sum_list (take j nums).
Proof.
  intros Hall. revert i j.
  induction Hall as [|n rest Hn Hrest IH]; intros i j Hij.
  - by rewrite !take_nil.
  - destruct i as [|i], j as [|j]; simpl; try lia.
    + assert (0 ≤ sum_list (take j rest)).
      { specialize (IH 0%nat j). rewrite take_0 in IH. simpl in IH. lia. }
      unfold sum_list in *. lia.
    + specialize (IH i j). unfold sum_list in *. lia.
Qed.

(** ** Binary search *)

Lemma bisect_loop_S fuel a x lo hi :
  bisect_loop (S fuel) a x lo hi =
  if (lo <? hi)%nat then
    match a !! ((lo + hi) / 2)%nat with
    | Some am =>
        if x <? am then bisect_loop fuel a x lo ((lo + hi) / 2)%nat
        else bisect_loop fuel a x (S ((lo + hi) / 2)%nat) hi
    | None => lo
    end
  else lo.
Proof. reflexivity. Qed.

Lemma bisect_loop_spec a x :
  sorted_list a →
  ∀ fuel lo hi,
    (lo ≤ hi ≤ length a)%nat → (hi - lo ≤ fuel)%nat →
    (∀ (i : nat) u, (i < lo)%nat → a !! i = Some u → u ≤ x) →
    (∀ (i : nat) u, (hi ≤ i)%nat → a !! i = Some u → x < u) →
    let r := bisect_loop fuel a x lo hi in
    (lo ≤ r ≤ hi)%nat ∧
    (∀ (i : nat) u, (i < r)%nat → a !! i = Some u → u ≤ x) ∧
    (∀ (i : nat) u, (r ≤ i)%nat → a !! i = Some u → x < u).
Proof.
  intros Hsorted. induction fuel as [|fuel IH]; intros lo hi Hr Hfuel Hlo Hhi.
  - assert (lo = hi) as -> by lia. simpl. repeat split; auto; lia.
  - rewrite bisect_loop_S. destruct (Nat.ltb_spec lo hi) as [Hlt|Hge].
    + set (mid := ((lo + hi) / 2)%nat).
      assert (lo ≤ mid < hi)%nat as Hmid.
      { unfold mid. split.
        - apply Nat.div_le_lower_bound; lia.
        - apply Nat.Div0.div_lt_upper_bound; lia. }
      destruct (lookup_lt_is_Some_2 a mid) as [am Ham]; [lia|].
      rewrite Ham.
      destruct (Z.ltb_spec x am) as [Hx|Hx].
      * destruct (IH lo mid) as (H1 & H2 & H3); [lia|lia|done| |].
        { intros i u Hi Hu. specialize (Hsorted mid i am u Hi Ham Hu). lia. }
        repeat split; auto; lia.
      * destruct (IH (S mid) hi) as (H1 & H2 & H3); [lia|lia| |done|].
        { intros i u Hi Hu. assert (i ≤ mid)%nat as Hi' by lia.
          specialize (Hsorted i mid u am Hi' Hu Ham). lia. }
        repeat split; auto; lia.
    + assert (lo = hi) as -> by lia. repeat split; auto; lia.
Qed.

Lemma bisect_right_spec a x :
  sorted_list a →
  ∃ r : nat, bisect_right a x = Z.of_nat r ∧ (r ≤ length a)%nat ∧
    (∀ (i : nat) u, (i < r)%nat → a !! i = Some u → u ≤ x) ∧
    (∀ (i : nat) u, (r ≤ i)%nat → a !! i = Some u → x < u).
Proof.
  intros Hsorted.
  destruct (bisect_loop_spec a x Hsorted (length a) 0%nat (length a))
    as (H1 & H2 & H3); [lia|lia| | |].
  - intros; lia.
  - intros i u Hi Hu. apply lookup_lt_Some in Hu. lia.
  - eexists. split; [reflexivity|]. repeat split; auto; lia.
Qed.

Lemma ends_sorted nums acc :
  Forall (λ n, 0 < n) nums → sorted_list (ends acc nums).
Proof.
  intros Hall i j u v Hij Hu Hv.
  pose proof (lookup_lt_Some _ _ _ Hu) as Hi. pose proof (lookup_lt_Some _ _ _ Hv) as Hj.
  rewrite length_ends in Hi, Hj.
  rewrite ends_lookup in Hu, Hv by done.
  injection Hu as <-. injection Hv as <-.
  pose proof (sum_list_take_mono nums (S i) (S j) Hall). lia.
Qed.

(** ** Resolving a global index *)

Lemma sum_list_take_nonneg nums (i : nat) :
  Forall (λ n, 0 < n) nums → 0 ≤ sum_list (take i nums).
Proof.
  intros Hall. pose proof (sum_list_take_mono nums 0 i Hall) as H.
  rewrite take_0 in H. simpl in H. apply H. lia.
Qed.

Lemma sum_list_take_le_total nums (i : nat) :
  Forall (λ n, 0 < n) nums → sum_list (take i nums) ≤ sum_list nums.
Proof.
  intros Hall.
  pose proof (sum_list_take_mono nums i (i + length nums) Hall) as H.
  rewrite (take_ge nums (i + length nums)) in H by lia. apply H. lia.
Qed.

Lemma resolve_correct nums g :
  Forall (λ n, 0 < n) nums → 0 ≤ g < sum_list nums →
  ∃ (t : nat) s e,
    resolve (starts 0 nums) (ends 0 nums) g = Ok (Z.of_nat t, g - s) ∧
    starts 0 nums !! t = Some s ∧ ends 0 nums !! t = Some e ∧
    nums !! t = Some (e - s) ∧ s ≤ g < e ∧
    (∀ (j : nat) e', (j < t)%nat → ends 0 nums !! j = Some e' → e' ≤ g).
Proof.
  intros Hall Hg.
  destruct (bisect_right_spec (ends 0 nums) g (ends_sorted nums 0 Hall))
    as (r & Hbis & Hr & Hbelow & Habove).
  rewrite length_ends in Hr.
  assert (r < length nums)%nat as Hlt.
  { destruct (decide (r < length nums)%nat) as [|Hge]; [done|exfalso].
    assert (r = length nums) as -> by lia.
    destruct nums as [|n0 rest]; [simpl in Hg; lia|].
    specialize (Hbelow (length rest) (sum_list (n0 :: rest))).
    rewrite ends_lookup in Hbelow by (simpl; lia).
    rewrite (take_ge (n0 :: rest)) in Hbelow by (simpl; lia).
    simpl in Hbelow. specialize (Hbelow ltac:(lia) eq_refl).
    unfold sum_list in Hg. simpl in Hg. unfold sum_list in Hbelow. lia. }
  destruct (lookup_lt_is_Some_2 nums r Hlt) as [n Hn].
  pose proof (starts_lookup nums 0 r Hlt) as Hs.
  pose proof (ends_lookup nums 0 r Hlt) as He.
  rewrite (sum_list_take_S _ _ _ Hn) in He.
  set (s := 0 + sum_list (take r nums)) in *.
  assert (s ≤ g) as Hsg.
  { destruct r as [|r'].
    - unfold s. rewrite take_0. simpl. lia.
    - apply (Hbelow r'); [lia|]. unfold s. apply ends_lookup. lia. }
  assert (g < 0 + (sum_list (take r nums) + n)) as Hge by (apply (Habove r); [lia|done]).
  exists r, s, (0 + (sum_list (take r nums) + n)).
  split; [|split; [done|split; [done|split; [|split; [lia|done]]]]].
  - unfold resolve. rewrite Hbis.
    rewrite (py_index_lookup _ _ _ Hs). simpl.
    rewrite (proj2 (Z.leb_le _ _) Hsg).
    rewrite (py_index_lookup _ _ _ He). simpl.
    rewrite (proj2 (Z.ltb_lt _ _) Hge). done.
  - rewrite Hn. f_equal. unfold s. lia.
Qed.

Lemma resolve_unique nums g (t : nat) s e :
  Forall (λ n, 0 < n) nums →
  starts 0 nums !! t = Some s → ends 0 nums !! t = Some e → s ≤ g < e →
  0 ≤ g < sum_list nums ∧
  resolve (starts 0 nums) (ends 0 nums) g = Ok (Z.of_nat t, g - s).
Proof.
  intros Hall Hs He Hg.
  pose proof (lookup_lt_Some _ _ _ Hs) as Hlt. rewrite length_starts in Hlt.
  rewrite starts_lookup in Hs by done. rewrite ends_lookup in He by done.
  injection Hs as <-. injection He as <-.
  pose proof (sum_list_take_nonneg nums t Hall).
  pose proof (sum_list_take_le_total nums (S t) Hall).
  assert (0 ≤ g < sum_list nums) as Hrange by lia.
  split; [done|].
  destruct (resolve_correct nums g Hall Hrange)
    as (t' & s' & e' & Hres & Hs' & He' & _ & Hg' & Hmin).
  pose proof (lookup_lt_Some _ _ _ Hs') as Hlt'. rewrite length_starts in Hlt'.
  assert (t' = t) as ->.
  { destruct (Nat.lt_trichotomy t' t) as [Hc|[Hc|Hc]]; [exfalso|done|exfalso].
    - rewrite ends_lookup in He' by done. injection He' as <-.
      pose proof (sum_list_take_mono nums (S t') t Hall). lia.
    - specialize (Hmin t (0 + sum_list (take (S t) nums)) Hc).
      rewrite ends_lookup in Hmin by done. specialize (Hmin eq_refl). lia. }
  rewrite starts_lookup in Hs' by done. injection Hs' as <-. done.
Qed.

(** Outside [0, total) the lookup is refused: past the end the list index
    fails, below 0 the assertion does. *)
Lemma resolve_out_of_range nums g :
  Forall (λ n, 0 < n) nums →
  (sum_list nums ≤ g →
     resolve (starts 0 nums) (ends 0 nums) g = Raise IndexError) ∧
  (g < 0 → nums ≠ [] →
     resolve (starts 0 nums) (ends 0 nums) g = Raise AssertionError).
Proof.
  intros Hall.
  destruct (bisect_right_spec (ends 0 nums) g (ends_sorted nums 0 Hall))
    as (r & Hbis & Hr & Hbelow & Habove).
  rewrite length_ends in Hr. unfold resolve. rewrite Hbis. split.
  - intros Hg. assert (r = length nums) as ->.
    { destruct (decide (r = length nums)) as [|Hne]; [done|exfalso].
      assert (r < length nums)%nat as Hlt by lia.
      specialize (Habove r _ (Nat.le_refl r) (ends_lookup nums 0 r Hlt)).
      pose proof (sum_list_take_le_total nums (S r) Hall). lia. }
    rewrite py_index_out_of_range; [done|].
    unfold len. rewrite length_starts. lia.
  - intros Hg Hne. assert (r = 0%nat) as ->.
    { destruct r as [|r']; [done|exfalso].
      assert (0 < length nums)%nat as Hlt by lia.
      specialize (Hbelow 0%nat _ ltac:(lia) (ends_lookup nums 0 0 Hlt)).
      pose proof (sum_list_take_nonneg nums 1 Hall). lia. }
    destruct nums as [|n rest]; [done|]. simpl.
    rewrite (proj2 (Z.leb_gt _ _)) by lia. done.
Qed.

(** ** What the constructor establishes *)

Section Indexed.
Context {num : Type} `{!NumpyOps num} `{!GeometryUtils num}.
Implicit Types (ds : KITTIFull num) (fs : FileSystem num) (cfg : Config num).

Lemma index_stage_inv fs split pi cfg annos nums st ed :
  index_stage fs split pi cfg = Ok (annos, nums, (st, ed)) →
  nums = len <$> annos ∧ build_index nums = Ok (st, ed) ∧
  ∃ scene_ids, split_type_to_scene_ids (debug cfg) !! split = Some scene_ids ∧
    _build_tracklet_annotations fs split pi cfg scene_ids = Ok annos.
Proof.
  unfold index_stage.
  destruct (split_type_to_scene_ids (debug cfg) !! split) as [ids|] eqn:Hids;
    simpl; [|done].
  destruct (_build_tracklet_annotations fs split pi cfg ids) as [annos'|] eqn:Hb;
    simpl; [|done].
  destruct (build_index (len <$> annos')) as [[st' ed']|] eqn:Hidx; simpl; [|done].
  intros [= <- <- <- <-]. split; [done|]. split; [done|]. by exists ids.
Qed.

Lemma init_inv fs split conf ds fs' :
  __init__ fs split conf = (Ok ds, fs') →
  split_type ds = split ∧ cfg ds = conf ∧
  preload_interval ds = default (Interval 1) (cfg_preload_interval conf) ∧
  preload_offset ds =
    (if decide (split = "train") then cfg_preload_offset conf else -1) ∧
  cache ds =
    (if decide (split = "train") then cache_train conf else cache_eval conf) ∧
  index_stage fs split (preload_interval ds) conf =
    Ok (tracklet_annotations ds, tracklet_num_frames ds,
        (tracklet_st_frame_id ds, tracklet_ed_frame_id ds)) ∧
  (if cache ds then
     match cache_files fs !! cache_path split conf with
     | Some stored =>
         tracklets ds = Some stored ∧ fs' = fs ∧ calibration_info ds = ∅
     | None =>
         ∃ stored,
           m_mapM (materialize_tracklet fs conf (preload_offset ds))
             (tracklet_annotations ds) ∅ = (Ok stored, calibration_info ds) ∧
           tracklets ds = Some stored ∧
           fs' = write_cache fs (cache_path split conf) stored
     end
   else tracklets ds = None ∧ fs' = fs ∧ calibration_info ds = ∅).
Proof.
  unfold __init__, cache_path. cbv zeta.
  destruct (py_assert _) as [[]|]; [|done].
  destruct (index_stage _ _ _ _) as [[[annos nums] [st ed]]|] eqn:Hidx; [|done].
  destruct (if decide (split = "train") then cache_train conf
            else cache_eval conf) eqn:Hc.
  - destruct (cache_files fs !! _) as [tr|] eqn:Hfile.
    + intros [= <- <-]. done.
    + destruct (m_mapM _ _ _) as [[tms|] ci'] eqn:Hm; [|done].
      intros [= <- <-]. cbn [split_type cfg preload_interval preload_offset
        cache tracklet_annotations tracklet_num_frames tracklet_st_frame_id
        tracklet_ed_frame_id tracklets calibration_info].
      repeat split; eauto.
  - intros [= <- <-]. done.
Qed.

Lemma init_indexed fs split cfg ds fs' :
  __init__ fs split cfg = (Ok ds, fs') → indexed ds.
Proof.
  intros Hinit. apply init_inv in Hinit as (_ & _ & _ & _ & _ & Hidx & _).
  apply index_stage_inv in Hidx as (Hnums & Hbuild & _).
  apply build_index_closed in Hbuild as (Hpos & Hst & Hed).
  done.
Qed.

Lemma indexed_lengths ds :
  indexed ds →
  length (tracklet_num_frames ds) = length (tracklet_annotations ds) ∧
  length (tracklet_st_frame_id ds) = length (tracklet_annotations ds) ∧
  length (tracklet_ed_frame_id ds) = length (tracklet_annotations ds).
Proof.
  intros (Hn & _ & Hs & He). rewrite Hs, He, length_starts, length_ends, Hn.
  by rewrite length_fmap.
Qed.

Lemma indexed_num_frames ds :
  indexed ds →
  num_frames ds =
    match tracklet_annotations ds with
    | [] => Raise IndexError
    | _ => Ok (sum_list (tracklet_num_frames ds))
    end.
Proof.
  intros Hidx. pose proof (indexed_lengths ds Hidx) as (Hl & _ & _).
  destruct Hidx as (Hn & _ & _ & He).
  unfold num_frames. rewrite py_index_last, He.
  destruct (tracklet_annotations ds) as [|a annos] eqn:Ha.
  - destruct (tracklet_num_frames ds); [done|simpl in Hl; lia].
  - rewrite last_lookup, length_ends.
    destruct (tracklet_num_frames ds) as [|n nums] eqn:Hnums; [simpl in Hl; lia|].
    rewrite ends_lookup by (simpl; lia).
    rewrite take_ge by (simpl; lia). f_equal; lia.
Qed.

Lemma sum_tracklet_frames_prefix ds (m : nat) :
  (m ≤ length (tracklet_num_frames ds))%nat →
  foldl (λ acc (i : nat),
           a ← acc; n ← num_tracklet_frames ds (Z.of_nat i); Ok (a + n))
    (Ok 0) (seq 0 m)
  = Ok (sum_list (take m (tracklet_num_frames ds))).
Proof.
  induction m as [|m IH]; intros Hm.
  - by rewrite take_0.
  - rewrite seq_S, foldl_app, IH by lia. simpl.
    destruct (lookup_lt_is_Some_2 (tracklet_num_frames ds) m) as [n Hn]; [lia|].
    unfold num_tracklet_frames. rewrite (py_index_lookup _ _ _ Hn). simpl.
    by rewrite (sum_list_take_S _ _ _ Hn).
Qed.

Lemma indexed_sum_tracklet_frames ds :
  indexed ds →
  sum_tracklet_frames ds = Ok (sum_list (tracklet_num_frames ds)).
Proof.
  intros Hidx. pose proof (indexed_lengths ds Hidx) as (Hl & _ & _).
  unfold sum_tracklet_frames, py_range, num_tracklets, len.
  rewrite Nat2Z.id, <- Hl, sum_tracklet_frames_prefix by lia.
  by rewrite take_ge by lia.
Qed.
End Indexed.

(** ** The index of a constructed dataset *)

Section IndexTheorems.
Context {num : Type} `{!NumpyOps num} `{!GeometryUtils num}.
Implicit Types (ds : KITTIFull num) (fs : FileSystem num) (cfg : Config num).

(** C2 (amended): in every constructed dataset the boundary lists are as
    long as the tracklet list, [start[0] = 0], [start[i+1] = end[i]],
    [end[i] - start[i]] is the length of tracklet [i] (and what
    [num_tracklet_frames(i)] returns); when the dataset has at least one
    tracklet, [num_frames()] returns [end[last]], which is the sum of
    [num_tracklet_frames(i)] over all tracklets. *)
Theorem boundaries_and_total fs split cfg ds fs' :
  __init__ fs split cfg = (Ok ds, fs') →
  let annos := tracklet_annotations ds in
  let st := tracklet_st_frame_id ds in
  let ed := tracklet_ed_frame_id ds in
  length st = length annos ∧ length ed = length annos ∧
  (annos ≠ [] → st !! 0%nat = Some 0) ∧
  (∀ i : nat, (S i < length annos)%nat →
     is_Some (ed !! i) ∧ st !! S i = ed !! i) ∧
  (∀ (i : nat) tr, annos !! i = Some tr →
     ∃ s e, st !! i = Some s ∧ ed !! i = Some e ∧ e - s = len tr ∧
            num_tracklet_frames ds (Z.of_nat i) = Ok (len tr)) ∧
  (annos ≠ [] →
     ∃ total, num_frames ds = Ok total ∧ last ed = Some total ∧
              sum_tracklet_frames ds = Ok total).
Proof.
  intros Hinit annos st ed. apply init_indexed in Hinit as Hidx.
  pose proof (indexed_lengths ds Hidx) as (Hln & Hls & Hle).
  pose proof (indexed_num_frames ds Hidx) as Hnf.
  pose proof (indexed_sum_tracklet_frames ds Hidx) as Hsum.
  destruct Hidx as (Hn & Hpos & Hs & He).
  fold annos in Hn, Hln, Hls, Hle, Hnf. fold st in Hs, Hls. fold ed in He, Hle.
  split; [done|]. split; [done|]. split; [|split; [|split]].
  - intros Hne. rewrite Hs, starts_lookup.
    + by rewrite take_0.
    + rewrite Hln. destruct annos; [done|simpl; lia].
  - intros i Hi. rewrite Hs, He.
    rewrite starts_lookup, ends_lookup by lia. split; [by eexists|done].
  - intros i tr Htr.
    pose proof (lookup_lt_Some _ _ _ Htr) as Hi.
    assert (tracklet_num_frames ds !! i = Some (len tr)) as Hni.
    { by rewrite Hn, list_lookup_fmap, Htr. }
    exists (0 + sum_list (take i (tracklet_num_frames ds))),
           (0 + sum_list (take (S i) (tracklet_num_frames ds))).
    rewrite Hs, He, starts_lookup, ends_lookup by lia.
    split; [done|]. split; [done|]. split.
    + rewrite (sum_list_take_S _ _ _ Hni). lia.
    + unfold num_tracklet_frames. by apply py_index_lookup.
  - intros Hne. exists (sum_list (tracklet_num_frames ds)).
    destruct annos as [|a0 annos'] eqn:Ha; [done|].
    split; [done|]. split; [|done].
    unfold num_frames in Hnf. rewrite py_index_last in Hnf. fold ed in Hnf.
    destruct (last ed); by inversion Hnf.
Qed.

(** C1: for a constructed dataset with [num_frames() = total] and every
    [0 <= g < total], [get_tracklet_frame_id(g)] returns [(t, g - start[t])]
    for the smallest [t] with [g < end[t]]; [start[t] <= g < end[t]], the
    frame id lies in [0, num_tracklet_frames(t))], and the mapping is
    injective on the valid indices and reaches every pair [(t, f)] with
    [0 <= t < num_tracklets()] and [0 <= f < num_tracklet_frames(t)]. *)
Theorem resolve_bijection fs split cfg ds fs' total :
  __init__ fs split cfg = (Ok ds, fs') →
  num_frames ds = Ok total →
  let st := tracklet_st_frame_id ds in
  let ed := tracklet_ed_frame_id ds in
  (∀ g, 0 ≤ g < total →
     ∃ (t : nat) s e,
       get_tracklet_frame_id ds g = Ok (Z.of_nat t, g - s) ∧
       st !! t = Some s ∧ ed !! t = Some e ∧ s ≤ g < e ∧
       (∀ (j : nat) e', (j < t)%nat → ed !! j = Some e' → e' ≤ g) ∧
       0 ≤ Z.of_nat t < num_tracklets ds ∧
       num_tracklet_frames ds (Z.of_nat t) = Ok (e - s) ∧
       0 ≤ g - s < e - s) ∧
  (∀ g1 g2, 0 ≤ g1 < total → 0 ≤ g2 < total →
     get_tracklet_frame_id ds g1 = get_tracklet_frame_id ds g2 → g1 = g2) ∧
  (∀ t f n, 0 ≤ t < num_tracklets ds →
     num_tracklet_frames ds t = Ok n → 0 ≤ f < n →
     ∃ g, 0 ≤ g < total ∧ get_tracklet_frame_id ds g = Ok (t, f)).
Proof.
  intros Hinit Htotal st ed. apply init_indexed in Hinit as Hidx.
  pose proof (indexed_lengths ds Hidx) as (Hln & Hls & Hle).
  pose proof (indexed_num_frames ds Hidx) as Hnf.
  destruct Hidx as (Hn & Hpos & Hs & He).
  assert (total = sum_list (tracklet_num_frames ds)) as ->.
  { rewrite Hnf in Htotal. destruct (tracklet_annotations ds); by inversion Htotal. }
  unfold get_tracklet_frame_id. fold st ed. subst st ed. rewrite Hs, He.
  assert (∀ g, 0 ≤ g < sum_list (tracklet_num_frames ds) →
     ∃ (t : nat) s e,
       resolve (starts 0 (tracklet_num_frames ds))
         (ends 0 (tracklet_num_frames ds)) g = Ok (Z.of_nat t, g - s) ∧
       starts 0 (tracklet_num_frames ds) !! t = Some s ∧
       ends 0 (tracklet_num_frames ds) !! t = Some e ∧ s ≤ g < e ∧
       (∀ (j : nat) e', (j < t)%nat →
          ends 0 (tracklet_num_frames ds) !! j = Some e' → e' ≤ g) ∧
       0 ≤ Z.of_nat t < num_tracklets ds ∧
       num_tracklet_frames ds (Z.of_nat t) = Ok (e - s) ∧
       0 ≤ g - s < e - s) as Hfwd.
  { intros g Hg.
    destruct (resolve_correct _ g Hpos Hg) as (t & s & e & Hres & Hst & Het & Hnt & Hrange & Hmin).
    exists t, s, e. repeat split; try done; try lia.
    - apply lookup_lt_Some in Hnt. unfold num_tracklets, len. lia.
    - unfold num_tracklet_frames. by apply py_index_lookup. }
  split; [done|]. split.
  - intros g1 g2 Hg1 Hg2 Heq.
    destruct (Hfwd g1 Hg1) as (t1 & s1 & e1 & Hr1 & Hs1 & _).
    destruct (Hfwd g2 Hg2) as (t2 & s2 & e2 & Hr2 & Hs2 & _).
    rewrite Hr1, Hr2 in Heq. injection Heq as Ht Hf.
    apply Nat2Z.inj in Ht. subst t2. rewrite Hs1 in Hs2. injection Hs2 as <-. lia.
  - intros t f n Ht Hnt Hf. unfold num_tracklet_frames in Hnt.
    apply py_index_Ok_inv in Hnt as [Hnt Hlt]; [|lia].
    pose proof (lookup_lt_Some _ _ _ Hnt) as Hi.
    pose proof (starts_lookup _ 0 _ Hi) as Hst.
    pose proof (ends_lookup _ 0 _ Hi) as Het.
    rewrite (sum_list_take_S _ _ _ Hnt) in Het.
    set (s := 0 + sum_list (take (Z.to_nat t) (tracklet_num_frames ds))) in *.
    destruct (resolve_unique _ (s + f) _ _ _ Hpos Hst Het) as [Hrange Hres]; [lia|].
    exists (s + f). split; [done|]. rewrite Hres. f_equal. f_equal; lia.
Qed.
End IndexTheorems.


(** C2 as stated fails on a dataset without tracklets (validation split,
    no cyclist in the scene): the sum over the tracklets is 0 while
    [num_frames()] raises IndexError on the empty [end] list. *)
Lemma empty_dataset_total :
  __init__ Sample.fs "val" empty_config = (Ok empty_dataset, Sample.fs) ∧
  num_tracklets empty_dataset = 0 ∧
  sum_tracklet_frames empty_dataset = Ok 0 ∧
  num_frames empty_dataset = Raise IndexError.
Proof. vm_compute. done. Qed.

(** The training split of the sample data root: four tracklets of 4, 3, 1
    and 1 frames. *)
Lemma boundaries_and_total_witness :
  ∃ ds fs', __init__ Sample.fs "train" sample_config = (Ok ds, fs') ∧
    tracklet_st_frame_id ds = [0; 4; 7; 8] ∧
    tracklet_ed_frame_id ds = [4; 7; 8; 9] ∧
    (tracklet_annotations ds ≠ [] →
       ∃ total, num_frames ds = Ok total ∧
                last (tracklet_ed_frame_id ds) = Some total ∧
                sum_tracklet_frames ds = Ok total).
Proof.
  eexists _, _. split; [vm_compute; reflexivity|].
  split; [reflexivity|]. split; [reflexivity|].
  eapply (boundaries_and_total Sample.fs "train" sample_config).
  vm_compute. reflexivity.
Defined.

(** On the same dataset, index 5 is frame 1 of tracklet 1. *)
Lemma resolve_bijection_witness :
  ∃ ds fs', __init__ Sample.fs "train" sample_config = (Ok ds, fs') ∧
    num_frames ds = Ok 9 ∧
    get_tracklet_frame_id ds 5 = Ok (1, 1) ∧
    (∀ g1 g2, 0 ≤ g1 < 9 → 0 ≤ g2 < 9 →
       get_tracklet_frame_id ds g1 = get_tracklet_frame_id ds g2 → g1 = g2).
Proof.
  eexists _, _. split; [vm_compute; reflexivity|].
  split; [reflexivity|]. split; [reflexivity|].
  eapply (resolve_bijection Sample.fs "train" sample_config).
  - vm_compute. reflexivity.
  - reflexivity.
Defined.

(** ** Stride slices *)

Section StrideFacts.
Context {A : Type}.
Implicit Types (l : list A).

Lemma stride_from_fmap {B} (f : A → B) k l : ∀ p,
  stride_from p k (f <$> l) = f <$> stride_from p k l.
Proof.
  induction l as [|x r IH]; intros p; simpl; [done|].
  destruct p; simpl; by rewrite IH.
Qed.

Lemma stride_from_lookup k l : (1 ≤ k)%nat → ∀ p a,
  stride_from p k l !! a = l !! (p + a * k)%nat.
Proof.
  intros Hk. induction l as [|x r IH]; intros p a; simpl; [done|].
  destruct p as [|p]; simpl.
  - destruct a as [|a]; simpl; [done|].
    rewrite IH. replace (k + a * k)%nat with (S (Nat.pred k + a * k)) by lia.
    done.
  - apply IH.
Qed.

Lemma stride_from_sublist k l : ∀ p, stride_from p k l `sublist_of` l.
Proof.
  induction l as [|x r IH]; intros p; simpl; [done|].
  destruct p; [apply sublist_skip | apply sublist_cons]; apply IH.
Qed.

End StrideFacts.

Lemma elem_of_stride_seq (k n p j : nat) :
  (1 ≤ k)%nat →
  j ∈ stride_from p k (seq 0 n) ↔ ∃ a : nat, j = (p + a * k)%nat ∧ (j < n)%nat.
Proof.
  intros Hk. rewrite list_elem_of_lookup. split.
  - intros [a Ha]. rewrite stride_from_lookup in Ha by done.
    apply lookup_seq in Ha as [-> Hlt]. exists a. simpl. lia.
  - intros (a & -> & Hlt). exists a. rewrite stride_from_lookup by done.
    by rewrite lookup_seq_lt.
Qed.

Lemma NoDup_join_fmap {B C} (g : B → list C) (ps : list B) :
  NoDup ps →
  (∀ p, p ∈ ps → NoDup (g p)) →
  (∀ p q x, p ∈ ps → q ∈ ps → x ∈ g p → x ∈ g q → p = q) →
  NoDup (mjoin (g <$> ps)).
Proof.
  induction 1 as [|p ps Hp Hps IH]; intros Hnd Hdisj; simpl; [constructor|].
  apply NoDup_app. split; [apply Hnd; left|]. split.
  - intros x Hx Hin. apply list_elem_of_join in Hin as (l & Hxl & Hl).
    apply list_elem_of_fmap in Hl as (q & -> & Hq).
    assert (p = q) as -> by (eapply Hdisj; eauto; [left | by right]).
    done.
  - apply IH.
    + intros q Hq. apply Hnd. by right.
    + intros q1 q2 x Hq1 Hq2. apply Hdisj; by right.
Qed.

Lemma phase_unique (k p q a b : nat) :
  (p < k)%nat → (q < k)%nat → (p + a * k = q + b * k)%nat → p = q ∧ a = b.
Proof.
  intros Hp Hq Heq.
  assert (p = q) as ->.
  { assert ((p + a * k) mod k = (q + b * k) mod k)%nat as Hm by (by rewrite Heq).
    rewrite !Nat.Div0.mod_add in Hm. by rewrite !Nat.mod_small in Hm by done. }
  split; [done|]. nia.
Qed.

Lemma phase_cover (n k j : nat) :
  (1 ≤ k)%nat → (j < n)%nat →
  (j mod k < Nat.min n k)%nat ∧ j = (j mod k + (j / k) * k)%nat.
Proof.
  intros Hk Hj.
  pose proof (Nat.mod_upper_bound j k ltac:(lia)).
  pose proof (Nat.Div0.mod_le j k).
  pose proof (Nat.div_mod_eq j k). split; lia.
Qed.

Lemma strides_of_seq_Permutation (n k : nat) :
  (1 ≤ k)%nat →
  mjoin ((λ p, stride_from p k (seq 0 n)) <$> seq 0 (Nat.min n k)) ≡ₚ seq 0 n.
Proof.
  intros Hk. apply NoDup_Permutation.
  - apply NoDup_join_fmap.
    + apply NoDup_seq.
    + intros p _. apply (sublist_NoDup _ (seq 0 n)); [apply NoDup_seq|].
      apply stride_from_sublist.
    + intros p q x Hp Hq Hxp Hxq.
      apply elem_of_seq in Hp, Hq.
      apply elem_of_stride_seq in Hxp as (a & -> & _); [|done].
      apply elem_of_stride_seq in Hxq as (b & Hb & _); [|done].
      by destruct (phase_unique k p q a b) as [-> _]; [lia|lia|done|].
  - apply NoDup_seq.
  - intros j. rewrite list_elem_of_join, elem_of_seq. split.
    + intros (l & Hjl & Hl). apply list_elem_of_fmap in Hl as (p & -> & Hp).
      apply elem_of_stride_seq in Hjl as (a & _ & Hlt); [lia|done].
    + intros [_ Hj]. destruct (phase_cover n k j Hk Hj) as [Hp Hdiv].
      exists (stride_from (j mod k) k (seq 0 n)). split.
      * apply elem_of_stride_seq; [done|]. by exists (j / k)%nat.
      * apply list_elem_of_fmap. exists (j mod k)%nat. split; [done|].
        apply elem_of_seq. lia.
Qed.

Section FixedInterval.
Context {A : Type}.
Implicit Types (group : list A).

Lemma fixed_interval_unfold (k : Z) group :
  fixed_interval k group =
  (λ p, stride_from p (Z.to_nat k) group)
    <$> seq 0 (Nat.min (length group) (Z.to_nat k)).
Proof.
  unfold fixed_interval, py_range, py_slice_step, len.
  replace (Z.to_nat (Z.min (Z.of_nat (length group)) k))
    with (Nat.min (length group) (Z.to_nat k)) by lia.
  done.
Qed.



Lemma list_as_fmap_seq (d : A) group :
  group = (λ j, default d (group !! j)) <$> seq 0 (length group).
Proof.
  apply list_eq. intros i. rewrite list_lookup_fmap.
  destruct (decide (i < length group)%nat) as [Hi|Hi].
  - rewrite lookup_seq_lt by done. simpl.
    destruct (lookup_lt_is_Some_2 group i Hi) as [x Hx]. by rewrite Hx.
  - rewrite lookup_ge_None_2 by lia.
    rewrite (lookup_ge_None_2 (seq 0 (length group))); [done|].
    rewrite length_seq. lia.
Qed.

Lemma fixed_interval_Permutation (k : Z) group :
  1 ≤ k → mjoin (fixed_interval k group) ≡ₚ group.
Proof.
  intros Hk. rewrite fixed_interval_unfold.
  destruct group as [|d rest] eqn:Hg; [done|]. rewrite <- Hg. clear Hg rest.
  set (f := λ j : nat, default d (group !! j)).
  set (n := length group). set (k' := Z.to_nat k).
  assert (group = f <$> seq 0 n) as Hfg by apply list_as_fmap_seq.
  assert (mjoin ((λ p, stride_from p k' group) <$> seq 0 (Nat.min n k'))
          = f <$> mjoin ((λ p, stride_from p k' (seq 0 n))
                           <$> seq 0 (Nat.min n k'))) as ->.
  { generalize (seq 0 (Nat.min n k')). intros ps.
    induction ps as [|p ps IH]; csimpl; [done|].
    rewrite fmap_app, IH, <- stride_from_fmap, <- Hfg. done. }
  rewrite strides_of_seq_Permutation by lia. by rewrite <- Hfg.
Qed.

End FixedInterval.

(** ** Sorting and grouping *)

Section SortFacts.
Context {A : Type} (key : A → Z).

Lemma insert_by_Permutation a l : insert_by key a l ≡ₚ a :: l.
Proof.
  induction l as [|b r IH]; simpl; [done|].
  destruct (key a <=? key b); [done|].
  rewrite IH. apply Permutation_swap.
Qed.

Lemma sort_by_Permutation l : sort_by key l ≡ₚ l.
Proof.
  induction l as [|a r IH]; simpl; [done|].
  by rewrite insert_by_Permutation, IH.
Qed.
End SortFacts.

Lemma elem_of_unique x l : x ∈ unique l ↔ x ∈ l.
Proof.
  induction l as [|y r IH]; simpl; [done|].
  rewrite !elem_of_cons, list_elem_of_filter, IH.
  split; [intros [?|[? ?]]; auto|].
  intros [?|?]; [auto|]. destruct (decide (x = y)); auto.
Qed.

Section Groups.
Context {num : Type}.

End Groups.

(** ** The annotation indexer *)

Section IndexerTheorems.
Context {num : Type} `{!NumpyOps num} `{!GeometryUtils num}.
Implicit Types (ds : KITTIFull num) (fs : FileSystem num) (cfg : Config num).

Lemma build_tracklet_annotations_inv fs split pi cfg ids : ∀ annos,
  _build_tracklet_annotations fs split pi cfg ids = Ok annos →
  ∃ tables,
    Forall2 (λ id data, label_files fs !! label_path cfg id = Some data)
      ids tables ∧
    annos = idd ← zip ids tables;
            scene_tracklets split pi (category_name cfg) idd.1 idd.2.
Proof.
  induction ids as [|id ids IH]; intros annos; simpl.
  - intros [= <-]. exists []. split; [constructor|done].
  - destruct (label_files fs !! label_path cfg id) as [data|] eqn:Hdata;
      simpl; [|done].
    destruct (_build_tracklet_annotations fs split pi cfg ids) as [more|];
      simpl; [|done].
    intros [= <-]. destruct (IH more eq_refl) as (tables & Hall & ->).
    exists (data :: tables). split; [by constructor|done].
Qed.



(** C4: when the configured interval is ['all'], the tracklets of a
    constructed dataset are, scene by scene and track group by track group,
    the fixed-interval tracklets of the group for each interval of the
    role's list, concatenated in the order of that list; the list is
    [1, 2, 3, 5, 10] for the split 'train' and [5] for every other split. *)
Theorem exhaustive_mode fs split cfg ds fs' :
  __init__ fs split cfg = (Ok ds, fs') →
  cfg_preload_interval cfg = Some IntervalAll →
  role_intervals "train" = [1; 2; 3; 5; 10] ∧
  (split ≠ "train" → role_intervals split = [5]) ∧
  (∀ (group : list (Anno num)),
     subsample split IntervalAll group
     = k ← role_intervals split; subsample split (Interval k) group) ∧
  (∀ (group : list (Anno num)), split = "train" →
     subsample split IntervalAll group
     = fixed_interval 1 group ++ fixed_interval 2 group ++
       fixed_interval 3 group ++ fixed_interval 5 group ++
       fixed_interval 10 group) ∧
  (∀ (group : list (Anno num)), split ≠ "train" →
     subsample split IntervalAll group = fixed_interval 5 group) ∧
  ∃ scene_ids tables,
    split_type_to_scene_ids (debug cfg) !! split = Some scene_ids ∧
    Forall2 (λ id data, label_files fs !! label_path cfg id = Some data)
      scene_ids tables ∧
    tracklet_annotations ds =
      idd ← zip scene_ids tables;
      group ← track_groups (category_name cfg) idd.1 idd.2;
      k ← role_intervals split;
      fixed_interval k group.
Proof.
  intros Hinit Hall.
  split; [done|].
  split; [intros Hs; unfold role_intervals; by destruct (decide _)|].
  assert (∀ group : list (Anno num),
     subsample split IntervalAll group
     = k ← role_intervals split; subsample split (Interval k) group) as Hsub.
  { intros group. unfold subsample, role_intervals, sample_intervals.
    destruct (decide (split = "train")); csimpl; by rewrite ?app_nil_r. }
  split; [done|].
  split.
  { intros group ->. simpl. by rewrite app_nil_r. }
  split.
  { intros group Hs. simpl. by destruct (decide _). }
  apply init_inv in Hinit as (_ & _ & Hpi & _ & _ & Hidx & _).
  rewrite Hpi, Hall in Hidx. simpl in Hidx.
  apply index_stage_inv in Hidx as (_ & _ & ids & Hids & Hbuild).
  apply build_tracklet_annotations_inv in Hbuild as (tables & Htables & ->).
  exists ids, tables. split; [done|]. split; [done|].
  apply list_bind_ext; [|done]. intros [id data]. simpl.
  unfold scene_tracklets. apply list_bind_ext; [|done]. intros group.
  apply Hsub.
Qed.
End IndexerTheorems.


(** Testable property 4 of the specification: interval 3 on a track of 7
    records gives the phases 0, 1, 2 with 3, 2 and 2 records. *)
Example fixed_interval_3_on_7 :
  fixed_interval 3 [0; 1; 2; 3; 4; 5; 6] = [[0; 3; 6]; [1; 4]; [2; 5]].
Proof. reflexivity. Qed.


(** The validation split in exhaustive mode uses the interval 5 alone. *)
Lemma exhaustive_mode_witness :
  ∃ ds fs', __init__ Sample.fs "val" exhaustive_config = (Ok ds, fs') ∧
    (∀ group : list (Anno Z),
       subsample "val" IntervalAll group = fixed_interval 5 group).
Proof.
  eexists _, _. split; [vm_compute; reflexivity|].
  intros group.
  eapply (exhaustive_mode Sample.fs "val" exhaustive_config);
    [vm_compute; reflexivity|reflexivity|done].
Defined.

(** ** Frame building and the calibration memo *)

Section FrameFacts.
Context {num : Type} `{!NumpyOps num} `{!GeometryUtils num}.
Implicit Types (ds : KITTIFull num) (fs : FileSystem num) (cfg : Config num).
Implicit Types (ci : gmap Z (gmap string (list (list num)))).
Implicit Types (frame_anno : Anno num).

Lemma calib_consistent_empty fs cfg : calib_consistent fs cfg ∅.
Proof. intros s c Hs. by rewrite lookup_empty in Hs. Qed.

Lemma get_calibration_consistent fs cfg scene_id ci :
  calib_consistent fs cfg ci →
  (get_calibration fs cfg scene_id ci).1
    = _read_calibration_file fs (calib_path cfg scene_id) ∧
  calib_consistent fs cfg (get_calibration fs cfg scene_id ci).2.
Proof.
  intros Hci. unfold get_calibration.
  destruct (ci !! scene_id) as [calib|] eqn:Hlook; simpl.
  - split; [|done]. symmetry. by apply Hci.
  - destruct (_read_calibration_file fs (calib_path cfg scene_id))
      as [calib|e] eqn:Hread; simpl; [|done].
    split; [done|]. intros s c Hs.
    destruct (decide (scene_id = s)) as [->|Hne].
    + rewrite lookup_insert_eq in Hs. by injection Hs as <-.
    + rewrite lookup_insert_ne in Hs by done. by apply Hci.
Qed.

Lemma bbox_stage_unfold fs cfg frame_anno ci :
  bbox_stage fs cfg frame_anno ci =
  ((get_calibration fs cfg (scene frame_anno) ci).1
     ≫= bbox_of_calib cfg frame_anno,
   (get_calibration fs cfg (scene frame_anno) ci).2).
Proof.
  unfold bbox_stage, m_bind, m_lift.
  by destruct (get_calibration fs cfg (scene frame_anno) ci) as [[calib|e] ci'].
Qed.

Lemma build_frame_unfold fs cfg frame_anno ci :
  _build_frame fs cfg frame_anno ci =
  ((λ vb, {| pcd := load_pcd fs cfg vb.1 (scene frame_anno)
                      (row_frame (row frame_anno));
             bbox := vb.2;
             anno := frame_anno |}) <$> (bbox_stage fs cfg frame_anno ci).1,
   (bbox_stage fs cfg frame_anno ci).2).
Proof.
  unfold _build_frame, m_bind, m_ret.
  by destruct (bbox_stage fs cfg frame_anno ci) as [[vb|e] ci'].
Qed.

Lemma bbox_stage_consistent fs cfg frame_anno ci :
  calib_consistent fs cfg ci →
  (bbox_stage fs cfg frame_anno ci).1 = (bbox_stage fs cfg frame_anno ∅).1 ∧
  calib_consistent fs cfg (bbox_stage fs cfg frame_anno ci).2.
Proof.
  intros Hci. rewrite !bbox_stage_unfold. simpl.
  destruct (get_calibration_consistent fs cfg (scene frame_anno) ci Hci)
    as [-> Hci'].
  destruct (get_calibration_consistent fs cfg (scene frame_anno) ∅
              (calib_consistent_empty fs cfg)) as [-> _].
  done.
Qed.

Lemma build_frame_consistent fs cfg frame_anno ci :
  calib_consistent fs cfg ci →
  (_build_frame fs cfg frame_anno ci).1 = build_frame_fresh fs cfg frame_anno ∧
  calib_consistent fs cfg (_build_frame fs cfg frame_anno ci).2.
Proof.
  intros Hci. unfold build_frame_fresh. rewrite !build_frame_unfold. simpl.
  destruct (bbox_stage_consistent fs cfg frame_anno ci Hci) as [-> Hci'].
  done.
Qed.

Lemma build_frames_consistent fs cfg annos : ∀ ci,
  calib_consistent fs cfg ci →
  (m_mapM (_build_frame fs cfg) annos ci).1
    = mapM (build_frame_fresh fs cfg) annos ∧
  calib_consistent fs cfg (m_mapM (_build_frame fs cfg) annos ci).2.
Proof.
  induction annos as [|a annos IH]; intros ci Hci; simpl; [done|].
  unfold m_bind.
  destruct (build_frame_consistent fs cfg a ci Hci) as [H1 H2].
  destruct (_build_frame fs cfg a ci) as [[f|e] ci1]; simpl in *; rewrite <- H1;
    [|done].
  destruct (IH ci1 H2) as [H3 H4].
  destruct (m_mapM (_build_frame fs cfg) annos ci1) as [[fs1|e] ci2];
    simpl in *; rewrite <- H3; done.
Qed.

Lemma crop_frames_in_place_fmap offset (frames : list (Frame num)) :
  crop_frames_in_place offset frames = crop_frame offset <$> frames.
Proof.
  unfold crop_frames_in_place.
  assert (∀ (done_ rest : list (Frame num)),
    foldl (λ acc (i : nat), alter (crop_frame offset) i acc)
      ((crop_frame offset <$> done_) ++ rest)
      (seq (length done_) (length rest))
    = crop_frame offset <$> (done_ ++ rest)) as Hloop.
  { intros done_ rest. revert done_.
    induction rest as [|f rest IH]; intros done_; simpl.
    - by rewrite !app_nil_r.
    - rewrite alter_app_r_alt by (rewrite length_fmap; lia).
      rewrite length_fmap, Nat.sub_diag. simpl.
      specialize (IH (done_ ++ [f])).
      rewrite length_app, fmap_app, <- !app_assoc in IH. simpl in IH.
      rewrite Nat.add_1_r in IH. done. }
  apply (Hloop [] frames).
Qed.

Lemma load_pcd_try_fails fs cfg velo_to_cam frame_anno :
  pcd_block_fails fs cfg velo_to_cam frame_anno ↔
  ∃ e, load_pcd_try fs cfg velo_to_cam (scene frame_anno)
         (row_frame (row frame_anno)) = Raise e.
Proof.
  unfold pcd_block_fails, load_pcd_try, reshape_rows_4.
  destruct (velodyne_files fs !! _) as [[|xs]|]; split.
  - eauto.
  - intros _. right. by left.
  - intros [Hf|[Hf|(xs' & [= <-] & Hxs)]]; try done.
    destruct Hxs as [Hmod|(rows & Hrows & Hmode & Htr)].
    + destruct (decide _); [done|eauto].
    + destruct (decide ((length xs mod 4)%nat = 0%nat)); [|eauto].
      injection Hrows as <-.
      destruct (decide (coordinate_mode cfg = "camera")); [|done].
      rewrite Htr. eauto.
  - intros [e He]. right. right. exists xs. split; [done|].
    destruct (decide ((length xs mod 4)%nat = 0%nat)); [|by left].
    right. eexists. split; [done|].
    destruct (decide (coordinate_mode cfg = "camera")); [|done].
    split; [done|].
    by destruct (pcd_transform _ _).
  - eauto.
  - intros _. by left.
Qed.

Lemma placeholder_points :
  points (placeholder_pcd (num:=num)) = [[of_int 0]; [of_int 0]; [of_int 0]].
Proof. reflexivity. Qed.
End FrameFacts.

(** ** Frames: placeholder cloud and box centres *)

Lemma mapM_result_Forall2 {A B} (f : A → result B) l bs :
  mapM f l = Ok bs ↔ Forall2 (λ a b, f a = Ok b) l bs.
Proof.
  revert bs. induction l as [|a l IH]; intros bs; simpl.
  - split; [intros [= <-]; constructor | by inversion 1].
  - split.
    + destruct (f a) as [b|e] eqn:Hfa; simpl; [|done].
      destruct (mapM f l) as [bs'|e] eqn:Hm; simpl; [|done].
      intros [= <-]. constructor; [done|]. by apply IH.
    + inversion 1 as [|? b ? bs' Hfa Hrest]; subst.
      rewrite Hfa. simpl. apply IH in Hrest. rewrite Hrest. done.
Qed.

Section FrameTheorems.
Context {num : Type} `{!NumpyOps num} `{!GeometryUtils num}.
Implicit Types (ds : KITTIFull num) (fs : FileSystem num) (cfg : Config num).
Implicit Types (ci : gmap Z (gmap string (list (list num)))).
Implicit Types (frame_anno : Anno num).

Lemma build_frame_of_bbox_stage fs cfg frame_anno ci v b ci' :
  bbox_stage fs cfg frame_anno ci = (Ok (v, b), ci') →
  _build_frame fs cfg frame_anno ci =
    (Ok {| pcd := load_pcd fs cfg v (scene frame_anno)
                    (row_frame (row frame_anno));
           bbox := b; anno := frame_anno |}, ci').
Proof. intros Hb. rewrite build_frame_unfold, Hb. done. Qed.

Lemma materialize_tracklet_unfold fs cfg offset tracklet_anno ci :
  materialize_tracklet fs cfg offset tracklet_anno ci =
  ((λ built,
      {| comp_template_pcd :=
           merge_template_pcds (pcd <$> built) (bbox <$> built)
             (model_offset cfg) (model_scale cfg);
         frames := if 0 <? offset then crop_frame offset <$> built
                   else built |})
     <$> (m_mapM (_build_frame fs cfg) tracklet_anno ci).1,
   (m_mapM (_build_frame fs cfg) tracklet_anno ci).2).
Proof.
  unfold materialize_tracklet, m_bind, m_ret.
  destruct (m_mapM (_build_frame fs cfg) tracklet_anno ci) as [[built|e] ci'];
    simpl; [|done].
  by rewrite crop_frames_in_place_fmap.
Qed.

Lemma build_frames_fresh_Ok fs cfg (tracklet_anno : list (Anno num)) :
  (∀ a, a ∈ tracklet_anno → ∃ vb, (bbox_stage fs cfg a ∅).1 = Ok vb) →
  ∃ built, mapM (build_frame_fresh fs cfg) tracklet_anno = Ok built.
Proof.
  induction tracklet_anno as [|a annos IH]; intros Hall; [by eexists|].
  destruct IH as [built Hbuilt]; [intros a' Ha'; apply Hall; by right|].
  destruct (Hall a) as [vb Hvb]; [by left|].
  unfold build_frame_fresh in *. simpl.
  rewrite build_frame_unfold. simpl. rewrite Hvb. simpl.
  rewrite Hbuilt. simpl. eexists. reflexivity.
Qed.

(** C5: for a record whose point-cloud file is missing or unreadable, the
    [try] statement yields the placeholder, one point at the origin, and
    raises nothing: [_build_frame] returns what the stage before the [try]
    returns (the scene's calibration and the box) with the placeholder as
    cloud, so it raises only where that stage does.  A tracklet holding the
    record is materialised completely, one frame per record, the
    placeholder frame among them, whenever the stage before the [try]
    succeeds for its records. *)
Theorem missing_pcd_placeholder fs cfg frame_anno :
  pcd_file_missing fs cfg frame_anno →
  let placeholder_frame (b : BoundingBox num) :=
    {| pcd := placeholder_pcd; bbox := b; anno := frame_anno |} in
  points (placeholder_pcd (num:=num))
    = [[of_int 0]; [of_int 0]; [of_int 0]] ∧
  (∀ v, load_pcd fs cfg v (scene frame_anno) (row_frame (row frame_anno))
        = placeholder_pcd) ∧
  (∀ ci, _build_frame fs cfg frame_anno ci =
     ((λ vb, placeholder_frame vb.2) <$> (bbox_stage fs cfg frame_anno ci).1,
      (bbox_stage fs cfg frame_anno ci).2)) ∧
  (∀ ci v b ci', bbox_stage fs cfg frame_anno ci = (Ok (v, b), ci') →
     _build_frame fs cfg frame_anno ci = (Ok (placeholder_frame b), ci')) ∧
  (∀ offset tracklet_anno ci,
     calib_consistent fs cfg ci →
     frame_anno ∈ tracklet_anno →
     (∀ a, a ∈ tracklet_anno → ∃ vb, (bbox_stage fs cfg a ∅).1 = Ok vb) →
     ∃ built tracklet ci1 b,
       m_mapM (_build_frame fs cfg) tracklet_anno ci = (Ok built, ci1) ∧
       length built = length tracklet_anno ∧
       placeholder_frame b ∈ built ∧
       materialize_tracklet fs cfg offset tracklet_anno ci
         = (Ok tracklet, ci1) ∧
       length (frames tracklet) = length tracklet_anno).
Proof.
  intros Hmiss placeholder_frame.
  assert (∀ v, load_pcd fs cfg v (scene frame_anno) (row_frame (row frame_anno))
               = placeholder_pcd) as Hload.
  { intros v. unfold load_pcd, load_pcd_try.
    destruct Hmiss as [Hm|Hm]; unfold pcd_file_missing in Hm; by rewrite Hm. }
  assert (∀ ci, _build_frame fs cfg frame_anno ci =
     ((λ vb, placeholder_frame vb.2) <$> (bbox_stage fs cfg frame_anno ci).1,
      (bbox_stage fs cfg frame_anno ci).2)) as Hframe.
  { intros ci. rewrite build_frame_unfold. f_equal.
    destruct ((bbox_stage fs cfg frame_anno ci).1) as [vb|e]; simpl; [|done].
    by rewrite Hload. }
  split; [done|]. split; [done|]. split; [done|]. split.
  { intros ci v b ci' Hstage. by rewrite Hframe, Hstage. }
  intros offset tracklet_anno ci Hci Hin Hall.
  destruct (build_frames_fresh_Ok fs cfg tracklet_anno Hall) as [built Hbuilt].
  destruct (build_frames_consistent fs cfg tracklet_anno ci Hci) as [Hb1 _].
  destruct (m_mapM (_build_frame fs cfg) tracklet_anno ci)
    as [r ci1] eqn:Hm. simpl in Hb1. rewrite Hbuilt in Hb1. subst r.
  apply mapM_result_Forall2 in Hbuilt.
  pose proof (Forall2_length _ _ _ Hbuilt) as Hlen.
  apply list_elem_of_lookup in Hin as [i Hi].
  destruct (Forall2_lookup_l _ _ _ _ _ Hbuilt Hi) as (f & Hf & Hbf).
  unfold build_frame_fresh in Hbf. rewrite Hframe in Hbf. simpl in Hbf.
  destruct ((bbox_stage fs cfg frame_anno ∅).1) as [vb|e]; [|done].
  injection Hbf as <-.
  eexists built, _, ci1, vb.2. split; [done|]. split; [done|]. split.
  { apply list_elem_of_lookup. by exists i. }
  rewrite materialize_tracklet_unfold, Hm. simpl. split; [done|].
  destruct (0 <? offset); simpl; rewrite ?length_fmap; lia.
Qed.

(** C10: the [try] block raises exactly when the file is missing, or
    unreadable, or its float count is no multiple of 4, or (camera mode) the
    transform raises.  In each of these cases the [try] statement yields the
    placeholder, three rows with the single column 0, 0, 0, as it is,
    whatever the coordinate mode and the matrix, and [_build_frame] returns
    it with the box of the stage before the [try]; in every other case it
    returns the cloud the block produced. *)
Theorem pcd_fallback_any_exception fs cfg frame_anno v :
  let scene_id := scene frame_anno in
  let frame_id := row_frame (row frame_anno) in
  (pcd_block_fails fs cfg v frame_anno ↔
     ∃ e, load_pcd_try fs cfg v scene_id frame_id = Raise e) ∧
  (pcd_block_fails fs cfg v frame_anno →
     load_pcd fs cfg v scene_id frame_id = placeholder_pcd ∧
     points (placeholder_pcd (num:=num))
       = [[of_int 0]; [of_int 0]; [of_int 0]] ∧
     ∀ ci b ci', bbox_stage fs cfg frame_anno ci = (Ok (v, b), ci') →
       _build_frame fs cfg frame_anno ci =
         (Ok {| pcd := placeholder_pcd; bbox := b; anno := frame_anno |}, ci')) ∧
  (¬ pcd_block_fails fs cfg v frame_anno →
     ∃ cloud, load_pcd_try fs cfg v scene_id frame_id = Ok cloud ∧
       ∀ ci b ci', bbox_stage fs cfg frame_anno ci = (Ok (v, b), ci') →
         _build_frame fs cfg frame_anno ci =
           (Ok {| pcd := cloud; bbox := b; anno := frame_anno |}, ci')).
Proof.
  cbv zeta. split; [apply load_pcd_try_fails|]. split.
  - intros Hfail. apply load_pcd_try_fails in Hfail as [e He].
    assert (load_pcd fs cfg v (scene frame_anno) (row_frame (row frame_anno))
            = placeholder_pcd) as Hload.
    { unfold load_pcd. by rewrite He. }
    split; [done|]. split; [done|]. intros ci b ci' Hstage.
    by rewrite (build_frame_of_bbox_stage _ _ _ _ _ _ _ Hstage), Hload.
  - intros Hok.
    destruct (load_pcd_try fs cfg v (scene frame_anno)
                (row_frame (row frame_anno))) as [cloud|e] eqn:Hl.
    + exists cloud. split; [done|]. intros ci b ci' Hstage.
      rewrite (build_frame_of_bbox_stage _ _ _ _ _ _ _ Hstage).
      unfold load_pcd. by rewrite Hl.
    + exfalso. apply Hok. apply load_pcd_try_fails. by exists e.
Qed.

Lemma build_bbox_camera cfg v frame_anno :
  coordinate_mode cfg = "camera" →
  build_bbox cfg v frame_anno =
    Ok {| center := [row_x (row frame_anno); center_y (row frame_anno);
                     row_z (row frame_anno)];
          wlh := [row_width (row frame_anno); row_length (row frame_anno);
                  row_height (row frame_anno)];
          orientation :=
            QMul (AxisAngle (0, 1, 0) (Radians (row_rotation_y (row frame_anno))))
                 (AxisAngle (1, 0, 0) HalfPi) |}.
Proof. intros Hm. unfold build_bbox. by rewrite decide_True. Qed.

Lemma build_bbox_velodyne cfg v frame_anno :
  coordinate_mode cfg = "velodyne" →
  build_bbox cfg v frame_anno =
    match np_linalg_inv v with
    | None => Raise LinAlgError
    | Some inv =>
        Ok {| center :=
                take 3 (np_dot inv
                  [row_x (row frame_anno); center_y (row frame_anno);
                   row_z (row frame_anno); of_int 1]);
              wlh := [row_width (row frame_anno); row_length (row frame_anno);
                      row_height (row frame_anno)];
              orientation :=
                QMul (AxisAngle (0, 0, -1)
                        (Radians (row_rotation_y (row frame_anno))))
                     (AxisAngle (0, 0, -1) (Degrees 90)) |}
    end.
Proof.
  intros Hm. unfold build_bbox. rewrite decide_False; [done|].
  rewrite Hm. done.
Qed.

Lemma build_frame_Ok_inv fs cfg frame_anno ci frame ci' :
  _build_frame fs cfg frame_anno ci = (Ok frame, ci') →
  ∃ calib tr,
    (get_calibration fs cfg (scene frame_anno) ci).1 = Ok calib ∧
    calib !! "Tr_velo_cam" = Some tr ∧
    build_bbox cfg (np_vstack tr [of_int 0; of_int 0; of_int 0; of_int 1])
      frame_anno = Ok (bbox frame).
Proof.
  rewrite build_frame_unfold, bbox_stage_unfold. simpl.
  destruct (get_calibration fs cfg (scene frame_anno) ci) as [[calib|e] ci1];
    simpl; [|done].
  unfold bbox_of_calib.
  destruct (calib !! "Tr_velo_cam") as [tr|] eqn:Htr; simpl; [|done].
  destruct (py_assert _); simpl; [|done].
  destruct (build_bbox cfg _ frame_anno) as [b|e] eqn:Hb; simpl; [|done].
  intros [= <- <-]. exists calib, tr. done.
Qed.

(** C6: for a record built in camera mode and in velodyne mode from the
    same data root and calibration, the camera-mode box has the centre
    [(x, y - height/2, z)] and the extents [(width, length, height)]; the
    velodyne-mode box has the same extents, and its centre is the first
    three entries of [inv . (x, y - height/2, z, 1)], where [inv] is
    [np.linalg.inv] of the scene's 4x4 velodyne-to-camera matrix. *)
Theorem bbox_center_modes fs cfg_cam cfg_velo frame_anno ci
    frame_cam ci_cam frame_velo ci_velo :
  coordinate_mode cfg_cam = "camera" →
  coordinate_mode cfg_velo = "velodyne" →
  data_root_dir cfg_cam = data_root_dir cfg_velo →
  _build_frame fs cfg_cam frame_anno ci = (Ok frame_cam, ci_cam) →
  _build_frame fs cfg_velo frame_anno ci = (Ok frame_velo, ci_velo) →
  let r := row frame_anno in
  center (bbox frame_cam)
    = [row_x r; num_sub (row_y r) (num_div (row_height r) (of_int 2));
       row_z r] ∧
  wlh (bbox frame_cam) = [row_width r; row_length r; row_height r] ∧
  wlh (bbox frame_velo) = wlh (bbox frame_cam) ∧
  ∃ calib tr inv,
    (get_calibration fs cfg_cam (scene frame_anno) ci).1 = Ok calib ∧
    calib !! "Tr_velo_cam" = Some tr ∧
    np_linalg_inv (np_vstack tr [of_int 0; of_int 0; of_int 0; of_int 1])
      = Some inv ∧
    center (bbox frame_velo)
      = take 3 (np_dot inv (center (bbox frame_cam) ++ [of_int 1])).
Proof.
  intros Hcam Hvelo Hroot Hfc Hfv r.
  apply build_frame_Ok_inv in Hfc as (calib & tr & Hcal & Htr & Hbc).
  apply build_frame_Ok_inv in Hfv as (calib' & tr' & Hcal' & Htr' & Hbv).
  assert (get_calibration fs cfg_velo (scene frame_anno) ci
          = get_calibration fs cfg_cam (scene frame_anno) ci) as Hsame.
  { unfold get_calibration, calib_path. by rewrite Hroot. }
  rewrite Hsame, Hcal in Hcal'. injection Hcal' as <-.
  rewrite Htr in Htr'. injection Htr' as <-.
  rewrite (build_bbox_camera _ _ _ Hcam) in Hbc. injection Hbc as Hbc.
  rewrite (build_bbox_velodyne _ _ _ Hvelo) in Hbv.
  destruct (np_linalg_inv _) as [inv|] eqn:Hinv; [|done].
  injection Hbv as Hbv. rewrite <- Hbc, <- Hbv. simpl.
  split; [done|]. split; [done|]. split; [done|].
  exists calib, tr, inv. done.
Qed.
End FrameTheorems.


(** Frame 4 of the sample scene has no point-cloud file, frame 3 an
    unreadable one. *)
Lemma missing_pcd_placeholder_witness :
  pcd_file_missing Sample.fs camera_config (car 4) ∧
  pcd_file_missing Sample.fs camera_config (car 3) ∧
  ∃ b ci',
    _build_frame Sample.fs camera_config (car 4) ∅
      = (Ok {| pcd := {| points := [[0]; [0]; [0]] |}; bbox := b;
               anno := car 4 |}, ci').
Proof.
  assert (pcd_file_missing Sample.fs camera_config (car 4)) as H4.
  { left. vm_compute. reflexivity. }
  split; [exact H4|]. split; [right; vm_compute; reflexivity|].
  assert (∃ v b ci',
            bbox_stage Sample.fs camera_config (car 4) ∅ = (Ok (v, b), ci'))
    as (v & b & ci' & Hstage).
  { eexists _, _, _. vm_compute. reflexivity. }
  exists b, ci'.
  destruct (missing_pcd_placeholder Sample.fs camera_config (car 4) H4)
    as (_ & _ & _ & Hframe & _).
  exact (Hframe ∅ v b ci' Hstage).
Defined.

(** The file of frame 2 holds five floats: the reshape fails. *)
Lemma pcd_fallback_any_exception_witness :
  ∃ v b ci',
    bbox_stage Sample.fs camera_config (car 2) ∅ = (Ok (v, b), ci') ∧
    pcd_block_fails Sample.fs camera_config v (car 2) ∧
    _build_frame Sample.fs camera_config (car 2) ∅
      = (Ok {| pcd := placeholder_pcd; bbox := b; anno := car 2 |}, ci').
Proof.
  assert (∃ v b ci',
            bbox_stage Sample.fs camera_config (car 2) ∅ = (Ok (v, b), ci') ∧
            pcd_block_fails Sample.fs camera_config v (car 2))
    as (v & b & ci' & Hstage & Hfail).
  { eexists _, _, _. split; [vm_compute; reflexivity|].
    right. right. exists [1; 2; 3; 4; 5]. split; [vm_compute; reflexivity|].
    left. vm_compute. discriminate. }
  exists v, b, ci'. split; [exact Hstage|]. split; [exact Hfail|].
  destruct (pcd_fallback_any_exception Sample.fs camera_config (car 2) v)
    as (_ & Hfallback & _).
  destruct (Hfallback Hfail) as (_ & _ & Hframe).
  exact (Hframe ∅ b ci' Hstage).
Defined.

(** The sample calibration is the identity: both centres are
    (10, 20 - 2/2, 30). *)
Lemma bbox_center_modes_witness :
  ∃ frame_cam ci_cam frame_velo ci_velo,
    _build_frame Sample.fs camera_config (car 0) ∅ = (Ok frame_cam, ci_cam) ∧
    _build_frame Sample.fs velodyne_config (car 0) ∅ = (Ok frame_velo, ci_velo) ∧
    center (bbox frame_cam) = [10; 19; 30] ∧
    center (bbox frame_velo) = [10; 19; 30] ∧
    wlh (bbox frame_velo) = wlh (bbox frame_cam).
Proof.
  assert (∃ frame_cam ci_cam,
            _build_frame Sample.fs camera_config (car 0) ∅
            = (Ok frame_cam, ci_cam)) as (frame_cam & ci_cam & Hcam).
  { eexists _, _. vm_compute. reflexivity. }
  assert (∃ frame_velo ci_velo,
            _build_frame Sample.fs velodyne_config (car 0) ∅
            = (Ok frame_velo, ci_velo)) as (frame_velo & ci_velo & Hvelo).
  { eexists _, _. vm_compute. reflexivity. }
  exists frame_cam, ci_cam, frame_velo, ci_velo.
  split; [exact Hcam|]. split; [exact Hvelo|].
  destruct (bbox_center_modes Sample.fs camera_config velodyne_config (car 0) ∅
              frame_cam ci_cam frame_velo ci_velo eq_refl eq_refl eq_refl
              Hcam Hvelo) as (Hc & Hw & Hwv & calib & tr & inv & Hcal & Htr & Hinv & Hv).
  split; [exact Hc|]. split; [|exact Hwv].
  rewrite Hv, Hc.
  vm_compute in Hcal. injection Hcal as <-.
  vm_compute in Htr. injection Htr as <-.
  vm_compute in Hinv. injection Hinv as <-.
  reflexivity.
Defined.

(** ** Materialisation and access *)

Lemma py_index_Forall2 {A B} (R : A → B → Prop) l1 l2 i :
  Forall2 R l1 l2 →
  match py_index l1 i, py_index l2 i with
  | Ok a, Ok b => R a b
  | Raise e1, Raise e2 => e1 = e2
  | _, _ => False
  end.
Proof.
  intros Hall. pose proof (Forall2_length _ _ _ Hall) as Hlen.
  unfold py_index, len. rewrite <- Hlen.
  set (j := if i <? 0 then i + Z.of_nat (length l1) else i).
  destruct ((0 <=? j) && (j <? Z.of_nat (length l1))); [|done].
  destruct (l1 !! Z.to_nat j) as [a|] eqn:Ha.
  - destruct (Forall2_lookup_l _ _ _ _ _ Hall Ha) as (b & -> & Hab). done.
  - apply lookup_ge_None in Ha. rewrite Hlen in Ha.
    apply lookup_ge_None in Ha. by rewrite Ha.
Qed.

Section CacheFacts.
Context {num : Type} `{!NumpyOps num} `{!GeometryUtils num}.
Implicit Types (ds : KITTIFull num) (fs : FileSystem num) (cfg : Config num).
Implicit Types (ci : gmap Z (gmap string (list (list num)))).
Implicit Types (frame_anno : Anno num).

Lemma materialize_all_consistent fs cfg offset annos : ∀ ci stored ci',
  calib_consistent fs cfg ci →
  m_mapM (materialize_tracklet fs cfg offset) annos ci = (Ok stored, ci') →
  Forall2 (materialises fs cfg offset) annos stored ∧
  calib_consistent fs cfg ci'.
Proof.
  induction annos as [|ta annos IH]; intros ci stored ci' Hci; simpl.
  - intros [= <- <-]. split; [constructor|done].
  - unfold m_bind at 1. rewrite materialize_tracklet_unfold.
    destruct (build_frames_consistent fs cfg ta ci Hci) as [Hb Hci1].
    destruct (m_mapM (_build_frame fs cfg) ta ci) as [[built|e] ci1];
      simpl in *; [|done].
    unfold m_bind.
    destruct (m_mapM (materialize_tracklet fs cfg offset) annos ci1)
      as [[tms|e] ci2] eqn:Hrest; [|done].
    intros [= <- <-]. destruct (IH ci1 tms ci2 Hci1 Hrest) as [Hall Hci2].
    split; [|done]. constructor; [|done].
    exists built. done.
Qed.

Lemma materialises_frames fs cfg offset tracklet_anno tracklet :
  materialises fs cfg offset tracklet_anno tracklet →
  Forall2 (λ a frame,
             crop_if_positive offset <$> build_frame_fresh fs cfg a = Ok frame)
    tracklet_anno (frames tracklet).
Proof.
  intros (built & Hbuilt & _ & ->).
  apply mapM_result_Forall2 in Hbuilt.
  assert ((if 0 <? offset then crop_frame offset <$> built else built)
          = crop_if_positive offset <$> built) as ->.
  { unfold crop_if_positive. destruct (0 <? offset); [done|].
    by rewrite list_fmap_id. }
  apply Forall2_fmap_r. eapply Forall2_impl; [exact Hbuilt|].
  intros a b Hab. simpl. by rewrite Hab.
Qed.

Lemma get_frame_stored fs ds tracklet_id frame_id stored :
  tracklets ds = Some stored → stored ≠ [] →
  get_frame fs ds tracklet_id frame_id =
    (tracklet ← py_index stored tracklet_id;
     py_index (frames tracklet) frame_id, ds).
Proof.
  intros Ht Hne. unfold get_frame. rewrite Ht.
  destruct stored; [done|]. done.
Qed.

Lemma get_frame_on_demand fs ds tracklet_id frame_id :
  truthy (tracklets ds) = false →
  calib_consistent fs (cfg ds) (calibration_info ds) →
  (get_frame fs ds tracklet_id frame_id).1 =
    (tracklet_anno ← py_index (tracklet_annotations ds) tracklet_id;
     frame_anno ← py_index tracklet_anno frame_id;
     crop_if_positive (preload_offset ds)
       <$> build_frame_fresh fs (cfg ds) frame_anno).
Proof.
  intros Hf Hci. unfold get_frame. rewrite Hf.
  destruct (py_index (tracklet_annotations ds) tracklet_id) as [ta|e];
    simpl; [|done].
  destruct (py_index ta frame_id) as [a|e]; simpl; [|done].
  destruct (build_frame_consistent fs (cfg ds) a _ Hci) as [<- _].
  destruct (_build_frame fs (cfg ds) a (calibration_info ds)) as [[fr|e] ci'];
    done.
Qed.
End CacheFacts.

(** ** Cached and uncached datasets *)

Section CacheTheorems.
Context {num : Type} `{!NumpyOps num} `{!GeometryUtils num}.
Implicit Types (ds : KITTIFull num) (fs : FileSystem num) (cfg : Config num).
Implicit Types (ci : gmap Z (gmap string (list (list num)))).
Implicit Types (frame_anno : Anno num).

Lemma init_cache_miss fs split cfg ds fs' :
  __init__ fs split cfg = (Ok ds, fs') →
  cache ds = true →
  cache_files fs !! cache_path split cfg = None →
  ∃ stored,
    tracklets ds = Some stored ∧
    fs' = write_cache fs (cache_path split cfg) stored ∧
    Forall2 (materialises fs cfg (preload_offset ds))
      (tracklet_annotations ds) stored ∧
    calib_consistent fs cfg (calibration_info ds).
Proof.
  intros Hinit Hcache Hmiss.
  apply init_inv in Hinit as (_ & _ & _ & _ & _ & _ & Hc).
  rewrite Hcache, Hmiss in Hc. destruct Hc as (stored & Hm & Ht & Hfs).
  apply materialize_all_consistent in Hm as [Hall Hci];
    [|apply calib_consistent_empty].
  exists stored. done.
Qed.

(** C8: on a cache miss, each stored tracklet's template is
    [merge_template_pcds] of the clouds and boxes of the frames as
    [_build_frame] returned them, before any crop; the stored frames are
    these frames with the cloud replaced by its crop when the offset is
    positive, and these frames unchanged otherwise.  The same list is what
    is written to the cache file. *)
Theorem template_from_uncropped fs split cfg ds fs' :
  __init__ fs split cfg = (Ok ds, fs') →
  cache ds = true →
  cache_files fs !! cache_path split cfg = None →
  ∃ stored,
    tracklets ds = Some stored ∧
    cache_files fs' !! cache_path split cfg = Some stored ∧
    Forall2
      (λ tracklet_anno tracklet,
         ∃ built,
           mapM (build_frame_fresh fs cfg) tracklet_anno = Ok built ∧
           comp_template_pcd tracklet =
             merge_template_pcds (pcd <$> built) (bbox <$> built)
               (model_offset cfg) (model_scale cfg) ∧
           (0 < preload_offset ds →
              frames tracklet = crop_frame (preload_offset ds) <$> built ∧
              ∀ (i : nat) frame, built !! i = Some frame →
                frames tracklet !! i =
                  Some {| pcd := crop_pcd_axis_aligned (pcd frame) (bbox frame)
                                   (preload_offset ds);
                          bbox := bbox frame; anno := anno frame |}) ∧
           (preload_offset ds ≤ 0 → frames tracklet = built))
      (tracklet_annotations ds) stored.
Proof.
  intros Hinit Hcache Hmiss.
  destruct (init_cache_miss _ _ _ _ _ Hinit Hcache Hmiss)
    as (stored & Ht & -> & Hall & _).
  exists stored. split; [done|]. split.
  { simpl. by rewrite lookup_insert_eq. }
  eapply Forall2_impl; [exact Hall|].
  intros ta tm (built & Hb & Hcomp & Hframes). exists built.
  split; [done|]. split; [done|]. split.
  - intros Hpos. rewrite (proj2 (Z.ltb_lt _ _) Hpos) in Hframes.
    split; [done|]. intros i frame Hi.
    by rewrite Hframes, list_lookup_fmap, Hi.
  - intros Hle. by rewrite (proj2 (Z.ltb_ge _ _) Hle) in Hframes.
Qed.

(** C9: a dataset constructed for a split other than 'train' has the crop
    offset -1 whatever the configuration says; on a cache miss the stored
    frames of every tracklet are the frames [_build_frame] returned,
    uncropped; and [get_frame] without a materialisation returns the frame
    [_build_frame] returns for the record, uncropped. *)
Theorem eval_split_never_crops fs split cfg ds fs' :
  split ≠ "train" →
  __init__ fs split cfg = (Ok ds, fs') →
  preload_offset ds = -1 ∧
  (cache ds = true → cache_files fs !! cache_path split cfg = None →
     ∃ stored,
       tracklets ds = Some stored ∧
       Forall2 (λ tracklet_anno tracklet,
                  mapM (build_frame_fresh fs cfg) tracklet_anno
                  = Ok (frames tracklet))
         (tracklet_annotations ds) stored) ∧
  (∀ fs2 ci tracklet_id frame_id,
     truthy (tracklets ds) = false →
     calib_consistent fs2 cfg ci →
     (get_frame fs2 (with_calibration_info ds ci) tracklet_id frame_id).1 =
       (tracklet_anno ← py_index (tracklet_annotations ds) tracklet_id;
        frame_anno ← py_index tracklet_anno frame_id;
        build_frame_fresh fs2 cfg frame_anno)).
Proof.
  intros Hsplit Hinit.
  pose proof (init_inv _ _ _ _ _ Hinit) as (_ & Hcfg & _ & Hoff & _).
  rewrite decide_False in Hoff by done.
  split; [done|]. split.
  - intros Hcache Hmiss.
    destruct (init_cache_miss _ _ _ _ _ Hinit Hcache Hmiss)
      as (stored & Ht & _ & Hall & _).
    exists stored. split; [done|].
    eapply Forall2_impl; [exact Hall|].
    intros ta tm (built & Hb & _ & Hframes).
    rewrite Hoff in Hframes. simpl in Hframes. by rewrite Hframes.
  - intros fs2 ci t f Htruthy Hci.
    rewrite get_frame_on_demand; [| done | by rewrite <- Hcfg in Hci].
    simpl. rewrite Hoff, Hcfg.
    destruct (py_index (tracklet_annotations ds) t) as [ta|e]; simpl; [|done].
    destruct (py_index ta f) as [a|e]; simpl; [|done].
    by destruct (build_frame_fresh fs2 cfg a).
Qed.

Lemma index_stage_ext fs fs2 split pi cfg cfg2 :
  label_files fs = label_files fs2 →
  debug cfg = debug cfg2 →
  data_root_dir cfg = data_root_dir cfg2 →
  category_name cfg = category_name cfg2 →
  index_stage fs split pi cfg = index_stage fs2 split pi cfg2.
Proof.
  intros Hfiles Hdebug Hroot Hcat. unfold index_stage. rewrite Hdebug.
  destruct (split_type_to_scene_ids (debug cfg2) !! split) as [ids|];
    simpl; [|done].
  assert (_build_tracklet_annotations fs split pi cfg ids
          = _build_tracklet_annotations fs2 split pi cfg2 ids) as ->; [|done].
  induction ids as [|id ids IH]; simpl; [done|].
  unfold label_path. by rewrite IH, Hfiles, Hroot, Hcat.
Qed.

Lemma stored_frame_lookup fs cfg offset annos stored tracklet_id frame_id :
  Forall2 (materialises fs cfg offset) annos stored →
  (tracklet ← py_index stored tracklet_id;
   py_index (frames tracklet) frame_id)
  = (tracklet_anno ← py_index annos tracklet_id;
     frame_anno ← py_index tracklet_anno frame_id;
     crop_if_positive offset <$> build_frame_fresh fs cfg frame_anno).
Proof.
  intros Hall.
  pose proof (py_index_Forall2 _ annos stored tracklet_id Hall) as Ht.
  destruct (py_index annos tracklet_id) as [ta|e1],
           (py_index stored tracklet_id) as [tm|e2];
    simpl; try done; [|by subst].
  apply materialises_frames in Ht.
  pose proof (py_index_Forall2 _ ta (frames tm) frame_id Ht) as Hf.
  destruct (py_index ta frame_id) as [a|e1],
           (py_index (frames tm) frame_id) as [fr|e2];
    simpl; try done; by subst.
Qed.

Lemma init_from_index fs split cfg annos nums st ed :
  py_assert (bool_decide
    (category_name cfg ∈ ["Van"; "Car"; "Pedestrian"; "Cyclist"; "All"]))
    = Ok tt →
  index_stage fs split (default (Interval 1) (cfg_preload_interval cfg)) cfg
    = Ok (annos, nums, (st, ed)) →
  let self calibration_info tr :=
    {| split_type := split; cfg := cfg;
       preload_interval := default (Interval 1) (cfg_preload_interval cfg);
       preload_offset :=
         if decide (split = "train") then cfg_preload_offset cfg else -1;
       cache :=
         if decide (split = "train") then cache_train cfg else cache_eval cfg;
       calibration_info := calibration_info;
       tracklet_annotations := annos;
       tracklet_num_frames := nums;
       tracklet_st_frame_id := st;
       tracklet_ed_frame_id := ed;
       tracklets := tr |} in
  ((if decide (split = "train") then cache_train cfg else cache_eval cfg)
     = false →
   __init__ fs split cfg = (Ok (self ∅ None), fs)) ∧
  (∀ stored,
     (if decide (split = "train") then cache_train cfg else cache_eval cfg)
       = true →
     cache_files fs !! cache_path split cfg = Some stored →
     __init__ fs split cfg = (Ok (self ∅ (Some stored)), fs)).
Proof.
  intros Hassert Hidx self. unfold __init__, cache_path. cbv zeta.
  rewrite Hassert, Hidx. unfold self. split.
  - intros Hc. rewrite Hc. done.
  - intros stored Hc Hfile. rewrite Hc, Hfile. done.
Qed.

Lemma build_frame_fresh_anno fs cfg frame_anno built :
  build_frame_fresh fs cfg frame_anno = Ok built → anno built = frame_anno.
Proof.
  unfold build_frame_fresh. rewrite build_frame_unfold. simpl.
  destruct ((bbox_stage fs cfg frame_anno ∅).1) as [vb|e]; simpl; [|done].
  by intros [= <-].
Qed.

Lemma crop_if_positive_anno offset (frame : Frame num) :
  anno (crop_if_positive offset frame) = anno frame ∧
  bbox (crop_if_positive offset frame) = bbox frame.
Proof. unfold crop_if_positive. by destruct (0 <? offset). Qed.

Lemma materialised_record fs cfg offset annos stored (t f : nat)
    tracklet_anno frame_anno :
  Forall2 (materialises fs cfg offset) annos stored →
  annos !! t = Some tracklet_anno →
  tracklet_anno !! f = Some frame_anno →
  ∃ built,
    build_frame_fresh fs cfg frame_anno = Ok built ∧
    (tracklet_anno ← py_index annos (Z.of_nat t);
     frame_anno ← py_index tracklet_anno (Z.of_nat f);
     crop_if_positive offset <$> build_frame_fresh fs cfg frame_anno)
    = Ok (crop_if_positive offset built).
Proof.
  intros Hall Ht Hf.
  destruct (Forall2_lookup_l _ _ _ _ _ Hall Ht)
    as (tm & _ & builts & Hbuilts & _ & _).
  apply mapM_result_Forall2 in Hbuilts.
  destruct (Forall2_lookup_l _ _ _ _ _ Hbuilts Hf) as (built & _ & Hbuilt).
  exists built. split; [done|].
  rewrite (py_index_lookup _ _ _ Ht). simpl.
  rewrite (py_index_lookup _ _ _ Hf). simpl. by rewrite Hbuilt.
Qed.

(** C7: take a cache miss and a successful construction with caching on.
    Then construction with caching off succeeds, construction from the
    file just written succeeds and holds the same materialisation, and the
    three datasets index the same tracklets.  For every tracklet and every
    frame position of it, [get_frame] returns a frame on each of the three
    datasets, and the same one: the frame [_build_frame] gives for the
    record, with the cloud cropped when the offset is positive; it carries
    the record and the box as built.  For every other [tracklet_id] and
    [frame_id] (any Python index) the three calls agree as well, frame or
    exception, whatever calibrations the uncached dataset has memoised. *)
Theorem cached_uncached_equivalent fs split cfg ds_cached fs1 :
  cache_files fs !! cache_path split cfg = None →
  __init__ fs split (set_cache true cfg) = (Ok ds_cached, fs1) →
  ∃ ds_loaded ds_uncached,
    __init__ fs1 split (set_cache true cfg) = (Ok ds_loaded, fs1) ∧
    __init__ fs split (set_cache false cfg) = (Ok ds_uncached, fs) ∧
    tracklets ds_loaded = tracklets ds_cached ∧
    tracklets ds_uncached = None ∧
    tracklet_annotations ds_loaded = tracklet_annotations ds_cached ∧
    tracklet_annotations ds_uncached = tracklet_annotations ds_cached ∧
    (∀ tracklet_id frame_id ci,
       calib_consistent fs cfg ci →
       (get_frame fs ds_cached tracklet_id frame_id).1
         = (get_frame fs (with_calibration_info ds_uncached ci)
              tracklet_id frame_id).1 ∧
       (get_frame fs1 ds_loaded tracklet_id frame_id).1
         = (get_frame fs (with_calibration_info ds_uncached ci)
              tracklet_id frame_id).1) ∧
    (∀ (t f : nat) tracklet_anno frame_anno ci,
       tracklet_annotations ds_cached !! t = Some tracklet_anno →
       tracklet_anno !! f = Some frame_anno →
       calib_consistent fs cfg ci →
       ∃ built frame,
         build_frame_fresh fs cfg frame_anno = Ok built ∧
         frame = crop_if_positive (preload_offset ds_cached) built ∧
         anno frame = frame_anno ∧
         bbox frame = bbox built ∧
         (get_frame fs ds_cached (Z.of_nat t) (Z.of_nat f)).1 = Ok frame ∧
         (get_frame fs1 ds_loaded (Z.of_nat t) (Z.of_nat f)).1 = Ok frame ∧
         (get_frame fs (with_calibration_info ds_uncached ci)
            (Z.of_nat t) (Z.of_nat f)).1 = Ok frame).
Proof.
  intros Hmiss Hinit.
  pose proof (init_inv _ _ _ _ _ Hinit)
    as (Hsplit & Hcfg & Hpi & Hoff & Hcache & Hidx & _).
  assert (cache ds_cached = true) as Hc.
  { rewrite Hcache. simpl. by destruct (decide _). }
  destruct (init_cache_miss _ _ _ _ _ Hinit Hc Hmiss)
    as (stored & Ht & Hfs1 & Hall & _).
  change (cache_path split (set_cache true cfg))
    with (cache_path split cfg) in Hfs1.
  rewrite Hpi in Hidx. simpl in Hidx, Hoff, Hpi.
  rewrite (index_stage_ext fs fs _ _ (set_cache true cfg) cfg) in Hidx by done.
  set (off := if decide (split = "train") then cfg_preload_offset cfg else -1)
    in *.
  set (pi := default (Interval 1) (cfg_preload_interval cfg)) in *.
  set (self := λ c calibration_info tr,
    {| split_type := split; cfg := set_cache c cfg;
       preload_interval := pi; preload_offset := off; cache := c;
       calibration_info := calibration_info;
       tracklet_annotations := tracklet_annotations ds_cached;
       tracklet_num_frames := tracklet_num_frames ds_cached;
       tracklet_st_frame_id := tracklet_st_frame_id ds_cached;
       tracklet_ed_frame_id := tracklet_ed_frame_id ds_cached;
       tracklets := tr |}).
  assert (py_assert (bool_decide
            (category_name cfg ∈ ["Van"; "Car"; "Pedestrian"; "Cyclist"; "All"]))
          = Ok tt) as Hassert.
  { revert Hinit. unfold __init__.
    change (category_name (set_cache true cfg)) with (category_name cfg).
    destruct (py_assert _) as [[]|]; done. }
  assert (__init__ fs1 split (set_cache true cfg)
          = (Ok (self true ∅ (Some stored)), fs1)) as Hloaded.
  { destruct (init_from_index fs1 split (set_cache true cfg)
                (tracklet_annotations ds_cached) (tracklet_num_frames ds_cached)
                (tracklet_st_frame_id ds_cached) (tracklet_ed_frame_id ds_cached))
      as [_ Hhit]; [exact Hassert| |].
    - rewrite <- Hidx, Hfs1. by apply index_stage_ext.
    - rewrite (Hhit stored).
      + unfold self. simpl. by destruct (decide (split = "train")).
      + simpl. by destruct (decide (split = "train")).
      + rewrite Hfs1. simpl. apply lookup_insert_eq. }
  assert (__init__ fs split (set_cache false cfg)
          = (Ok (self false ∅ None), fs)) as Huncached.
  { destruct (init_from_index fs split (set_cache false cfg)
                (tracklet_annotations ds_cached) (tracklet_num_frames ds_cached)
                (tracklet_st_frame_id ds_cached) (tracklet_ed_frame_id ds_cached))
      as [Hoff' _]; [exact Hassert| |].
    - rewrite <- Hidx. by apply index_stage_ext.
    - rewrite Hoff'.
      + unfold self. simpl. by destruct (decide (split = "train")).
      + simpl. by destruct (decide (split = "train")). }
  rewrite Hoff in Hall.
  change (materialises fs (set_cache true cfg) off)
    with (materialises fs cfg off) in Hall.
  assert (∀ t f ci, calib_consistent fs cfg ci →
    (get_frame fs (with_calibration_info (self false ∅ None) ci) t f).1
    = (tracklet_anno ← py_index (tracklet_annotations ds_cached) t;
       frame_anno ← py_index tracklet_anno f;
       crop_if_positive off <$> build_frame_fresh fs cfg frame_anno))
    as Hdemand.
  { intros t f ci Hci. by rewrite get_frame_on_demand. }
  assert (∀ t f,
    (get_frame fs ds_cached t f).1
    = (tracklet_anno ← py_index (tracklet_annotations ds_cached) t;
       frame_anno ← py_index tracklet_anno f;
       crop_if_positive off <$> build_frame_fresh fs cfg frame_anno) ∧
    (get_frame fs1 (self true ∅ (Some stored)) t f).1
    = (tracklet_anno ← py_index (tracklet_annotations ds_cached) t;
       frame_anno ← py_index tracklet_anno f;
       crop_if_positive off <$> build_frame_fresh fs cfg frame_anno))
    as Hstored.
  { intros t f. destruct stored as [|tm tms] eqn:Htms.
    - apply Forall2_nil_inv_r in Hall.
      unfold get_frame. rewrite Ht. simpl. rewrite Hall.
      rewrite py_index_nil. done.
    - rewrite <- Htms in *.
      rewrite (get_frame_stored fs ds_cached t f stored Ht) by (by subst).
      rewrite (get_frame_stored fs1 (self true ∅ (Some stored)) t f stored)
        by (done || by subst).
      simpl. by rewrite (stored_frame_lookup fs cfg off _ _ t f Hall). }
  exists (self true ∅ (Some stored)), (self false ∅ None).
  split; [done|]. split; [done|]. split; [by rewrite Ht|]. split; [done|].
  split; [done|]. split; [done|]. split.
  - intros t f ci Hci. rewrite (Hdemand t f ci Hci).
    destruct (Hstored t f) as [-> ->]. done.
  - intros t f tracklet_anno frame_anno ci Hta Hfa Hci.
    destruct (materialised_record fs cfg off _ _ t f _ _ Hall Hta Hfa)
      as (built & Hbuilt & Hvalue).
    exists built, (crop_if_positive off built).
    split; [done|]. split; [by rewrite Hoff|].
    destruct (crop_if_positive_anno off built) as [Hanno Hbbox].
    split; [by rewrite Hanno, (build_frame_fresh_anno _ _ _ _ Hbuilt)|].
    split; [done|].
    rewrite (Hdemand _ _ ci Hci).
    destruct (Hstored (Z.of_nat t) (Z.of_nat f)) as [-> ->]. done.
Qed.
End CacheTheorems.

(** In the sample data root the order matters: the template of the first
    tracklet is the merge of the full clouds, and merging the stored,
    cropped clouds would give another cloud. *)
Example template_is_not_the_merge_of_crops :
  match (__init__ Sample.fs "train" cached_config).1 with
  | Ok ds =>
      match tracklets ds with
      | Some (tracklet :: _) =>
          points (comp_template_pcd tracklet)
            = [[1; 5; 0; 0; 0]; [2; 6; 0; 0; 0]; [3; 7; 0; 0; 0]] ∧
          points (merge_template_pcds (pcd <$> frames tracklet)
                    (bbox <$> frames tracklet) 0 1)
            = [[1; 0; 0; 0]; [2; 0; 0; 0]; [3; 0; 0; 0]]
      | _ => False
      end
  | Raise _ => False
  end.
Proof. vm_compute. done. Qed.

(** The training split of the sample data root with caching on and a
    crop offset of 1. *)
Lemma template_from_uncropped_witness :
  ∃ ds fs',
    __init__ Sample.fs "train" cached_config = (Ok ds, fs') ∧
    cache ds = true ∧
    cache_files Sample.fs !! cache_path "train" cached_config = None ∧
    ∃ stored,
      tracklets ds = Some stored ∧
      cache_files fs' !! cache_path "train" cached_config = Some stored.
Proof.
  assert (∃ ds fs',
            __init__ Sample.fs "train" cached_config = (Ok ds, fs') ∧
            cache ds = true) as (ds & fs' & Hinit & Hcache).
  { eexists _, _. split; vm_compute; reflexivity. }
  assert (cache_files Sample.fs !! cache_path "train" cached_config = None)
    as Hmiss by (vm_compute; reflexivity).
  exists ds, fs'. split; [exact Hinit|]. split; [exact Hcache|].
  split; [exact Hmiss|].
  destruct (template_from_uncropped Sample.fs "train" cached_config ds fs'
              Hinit Hcache Hmiss) as (stored & Ht & Hfile & _).
  exists stored. split; [exact Ht|exact Hfile].
Defined.

(** The validation split under a configuration that asks for the crop
    offset 1. *)
Lemma eval_split_never_crops_witness :
  "val" ≠ "train" ∧
  ∃ ds fs',
    __init__ Sample.fs "val" cached_config = (Ok ds, fs') ∧
    cfg_preload_offset cached_config = 1 ∧
    preload_offset ds = -1.
Proof.
  assert ("val" ≠ "train") as Hsplit by discriminate.
  split; [exact Hsplit|].
  assert (∃ ds fs', __init__ Sample.fs "val" cached_config = (Ok ds, fs'))
    as (ds & fs' & Hinit).
  { eexists _, _. vm_compute. reflexivity. }
  exists ds, fs'. split; [exact Hinit|]. split; [reflexivity|].
  exact (proj1 (eval_split_never_crops Sample.fs "val" cached_config ds fs'
                  Hsplit Hinit)).
Defined.

(** The last frame of tracklet 1, read from the three datasets: the
    same frame, which carries the record of frame 5. *)
Lemma cached_uncached_equivalent_witness :
  cache_files Sample.fs !! cache_path "train" cached_config = None ∧
  ∃ ds_cached fs1,
    __init__ Sample.fs "train" (set_cache true cached_config)
      = (Ok ds_cached, fs1) ∧
    ∃ ds_loaded ds_uncached,
      __init__ fs1 "train" (set_cache true cached_config) = (Ok ds_loaded, fs1) ∧
      __init__ Sample.fs "train" (set_cache false cached_config)
        = (Ok ds_uncached, Sample.fs) ∧
      (get_frame Sample.fs ds_cached 1 (-1)).1
        = (get_frame Sample.fs (with_calibration_info ds_uncached ∅) 1 (-1)).1 ∧
      (get_frame fs1 ds_loaded 1 (-1)).1
        = (get_frame Sample.fs (with_calibration_info ds_uncached ∅) 1 (-1)).1 ∧
      ∃ frame,
        anno frame = car 5 ∧
        (get_frame Sample.fs ds_cached 1 2).1 = Ok frame ∧
        (get_frame fs1 ds_loaded 1 2).1 = Ok frame ∧
        (get_frame Sample.fs (with_calibration_info ds_uncached ∅) 1 2).1
          = Ok frame.
Proof.
  assert (cache_files Sample.fs !! cache_path "train" cached_config = None)
    as Hmiss by (vm_compute; reflexivity).
  split; [exact Hmiss|].
  assert (∃ ds_cached fs1 tracklet_anno,
            __init__ Sample.fs "train" (set_cache true cached_config)
            = (Ok ds_cached, fs1) ∧
            tracklet_annotations ds_cached !! 1%nat = Some tracklet_anno ∧
            tracklet_anno !! 2%nat = Some (car 5))
    as (ds_cached & fs1 & tracklet_anno & Hinit & Hta & Hfa).
  { eexists _, _, _. repeat split; vm_compute; reflexivity. }
  exists ds_cached, fs1. split; [exact Hinit|].
  destruct (cached_uncached_equivalent Sample.fs "train" cached_config
              ds_cached fs1 Hmiss Hinit)
    as (ds_loaded & ds_uncached & Hl & Hu & _ & _ & _ & _ & Hsame & Hframe).
  exists ds_loaded, ds_uncached. split; [exact Hl|]. split; [exact Hu|].
  pose proof (calib_consistent_empty Sample.fs cached_config) as Hci.
  destruct (Hsame 1 (-1) ∅ Hci) as [H1 H2].
  split; [exact H1|]. split; [exact H2|].
  destruct (Hframe 1%nat 2%nat tracklet_anno (car 5) ∅ Hta Hfa Hci)
    as (built & frame & _ & _ & Hanno & _ & Hc & Hloaded & Hunc).
  exists frame. split; [exact Hanno|]. split; [exact Hc|].
  split; [exact Hloaded|exact Hunc].
Defined.

(** * Further properties of the dataset class *)

(** ** Construction: what can fail, and in which order *)

Lemma stride_from_nonempty {A} (k : nat) (l : list A) : ∀ p,
  (p < length l)%nat → stride_from p k l ≠ [].
Proof.
  induction l as [|x r IH]; intros p Hp; simpl in *; [lia|].
  destruct p as [|p]; [done|]. apply IH. lia.
Qed.

Lemma elem_of_fixed_interval {A} (k : Z) (group t : list A) :
  t ∈ fixed_interval k group ↔
  ∃ p : nat, (p < Nat.min (length group) (Z.to_nat k))%nat ∧
             t = stride_from p (Z.to_nat k) group.
Proof.
  rewrite fixed_interval_unfold, list_elem_of_fmap.
  split; intros (p & H1 & H2); exists p.
  - apply elem_of_seq in H2. split; [lia|done].
  - split; [done|]. apply elem_of_seq. lia.
Qed.

Lemma fixed_interval_nonpositive {A} (k : Z) (group : list A) :
  k ≤ 0 → fixed_interval k group = [].
Proof.
  intros Hk. rewrite fixed_interval_unfold.
  replace (Z.to_nat k) with 0%nat by lia. by rewrite Nat.min_0_r.
Qed.

Lemma elem_of_subsample {A} split pi (group t : list A) :
  t ∈ subsample split pi group →
  ∃ (p k : nat), (1 ≤ k)%nat ∧ (p < length group)%nat ∧
                 t = stride_from p k group.
Proof.
  assert (∀ k : Z, t ∈ fixed_interval k group →
    ∃ (p k : nat), (1 ≤ k)%nat ∧ (p < length group)%nat ∧
                   t = stride_from p k group) as Hfix.
  { intros k Ht. apply elem_of_fixed_interval in Ht as (p & Hp & ->).
    exists p, (Z.to_nat k). split; [lia|]. split; [lia|done]. }
  unfold subsample. destruct pi as [k|]; [apply Hfix|].
  destruct (decide (split = "train")); [|apply Hfix].
  intros Ht. apply list_elem_of_bind in Ht as (k & Ht & _). by apply (Hfix k).
Qed.

Lemma bind_all_nil {A B} (f : A → list B) (l : list A) :
  (∀ x, f x = []) → l ≫= f = [].
Proof.
  intros Hf. induction l as [|x l IH]; [done|]. csimpl. by rewrite Hf, IH.
Qed.

Section Construction.
Context {num : Type} `{!NumpyOps num} `{!GeometryUtils num}.
Implicit Types (ds : KITTIFull num) (fs : FileSystem num) (cfg : Config num).

Lemma scene_tracklets_nonempty split pi category scene_id
    (data : list (LabelRow num)) t :
  t ∈ scene_tracklets split pi category scene_id data → t ≠ [].
Proof.
  unfold scene_tracklets. intros Ht.
  apply list_elem_of_bind in Ht as (group & Ht & _).
  apply elem_of_subsample in Ht as (p & k & _ & Hp & ->).
  by apply stride_from_nonempty.
Qed.

Lemma build_tracklet_annotations_Ok fs split pi cfg ids :
  (∀ id, id ∈ ids → is_Some (label_files fs !! label_path cfg id)) →
  ∃ annos, _build_tracklet_annotations fs split pi cfg ids = Ok annos.
Proof.
  induction ids as [|id ids IH]; intros Hall; simpl; [by eexists|].
  destruct (Hall id) as [data Hdata]; [by left|]. rewrite Hdata. simpl.
  destruct IH as [more Hmore]; [intros id' Hid'; apply Hall; by right|].
  rewrite Hmore. simpl. eexists. reflexivity.
Qed.

Lemma build_tracklet_annotations_missing fs split pi cfg ids :
  (∃ id, id ∈ ids ∧ label_files fs !! label_path cfg id = None) →
  _build_tracklet_annotations fs split pi cfg ids = Raise FileNotFoundError.
Proof.
  induction ids as [|id ids IH]; intros (id' & Hin & Hnone); simpl.
  - by apply elem_of_nil in Hin.
  - destruct (label_files fs !! label_path cfg id) as [data|] eqn:Hdata;
      simpl; [|done].
    rewrite IH; [done|]. exists id'. split; [|done].
    apply elem_of_cons in Hin as [->|Hin]; [congruence|done].
Qed.

Lemma build_tracklet_annotations_positive fs split pi cfg ids annos :
  _build_tracklet_annotations fs split pi cfg ids = Ok annos →
  Forall (λ n, 0 < n) (len <$> annos).
Proof.
  intros Hb. apply build_tracklet_annotations_inv in Hb as (tables & _ & ->).
  apply Forall_fmap, Forall_forall. intros t Ht.
  apply list_elem_of_bind in Ht as ([id data] & Ht & _).
  apply scene_tracklets_nonempty in Ht. unfold len.
  destruct t; [done|simpl; lia].
Qed.

(** X1: construction fails in a fixed order: an unlisted category gives
    AssertionError before anything is looked up or read, then an unknown
    split gives KeyError, then a missing label file gives
    FileNotFoundError.  Without caching nothing else can fail: the
    assertion on the tracklet lengths never does, and the dataset is
    returned with the data root as it was. *)
Theorem init_outcome fs split cfg :
  (¬ valid_category cfg →
     __init__ fs split cfg = (Raise AssertionError, fs)) ∧
  (valid_category cfg → split_type_to_scene_ids (debug cfg) !! split = None →
     __init__ fs split cfg = (Raise KeyError, fs)) ∧
  (∀ scene_ids,
     valid_category cfg →
     split_type_to_scene_ids (debug cfg) !! split = Some scene_ids →
     ((∃ id, id ∈ scene_ids ∧ label_files fs !! label_path cfg id = None) →
        __init__ fs split cfg = (Raise FileNotFoundError, fs)) ∧
     ((if decide (split = "train") then cache_train cfg else cache_eval cfg)
        = false →
      (∀ id, id ∈ scene_ids →
         is_Some (label_files fs !! label_path cfg id)) →
        ∃ ds, __init__ fs split cfg = (Ok ds, fs) ∧ tracklets ds = None)).
Proof.
  unfold valid_category. split; [|split].
  - intros Hcat. unfold __init__. by rewrite bool_decide_false.
  - intros Hcat Hsplit. unfold __init__, index_stage.
    rewrite bool_decide_true by done. simpl. by rewrite Hsplit.
  - intros ids Hcat Hsplit. split.
    + intros Hmiss. unfold __init__, index_stage.
      rewrite bool_decide_true by done. simpl. rewrite Hsplit. simpl.
      by rewrite build_tracklet_annotations_missing.
    + intros Hcache Hall.
      destruct (build_tracklet_annotations_Ok fs split
                  (default (Interval 1) (cfg_preload_interval cfg)) cfg ids Hall)
        as [annos Hannos].
      pose proof (build_tracklet_annotations_positive _ _ _ _ _ _ Hannos) as Hpos.
      destruct (init_from_index fs split cfg annos (len <$> annos)
                  (starts 0 (len <$> annos)) (ends 0 (len <$> annos)))
        as [Hinit _].
      * unfold py_assert. by rewrite bool_decide_true.
      * unfold index_stage. rewrite Hsplit. simpl. rewrite Hannos. simpl.
        unfold build_index. by rewrite index_loop_positive.
      * eexists. split; [by apply Hinit|done].
Qed.

(** X2: outside [0, num_frames()) the lookup is refused: an index at or
    past the total raises IndexError, a negative index fails the
    assertion. *)
Theorem resolve_refuses_out_of_range fs split cfg ds fs' total :
  __init__ fs split cfg = (Ok ds, fs') →
  num_frames ds = Ok total →
  (∀ g, total ≤ g → get_tracklet_frame_id ds g = Raise IndexError) ∧
  (∀ g, g < 0 → get_tracklet_frame_id ds g = Raise AssertionError).
Proof.
  intros Hinit Htotal. apply init_indexed in Hinit as Hidx.
  pose proof (indexed_lengths ds Hidx) as (Hln & _ & _).
  pose proof (indexed_num_frames ds Hidx) as Hnf.
  destruct Hidx as (Hn & Hpos & Hs & He).
  rewrite Hnf in Htotal.
  destruct (tracklet_annotations ds) as [|a annos] eqn:Ha; [done|].
  injection Htotal as <-.
  unfold get_tracklet_frame_id. rewrite Hs, He.
  destruct (resolve_out_of_range _ 0 Hpos) as [_ Hneg0]. clear Hneg0.
  split; intros g Hg.
  - by apply (resolve_out_of_range _ g Hpos).
  - apply (resolve_out_of_range _ g Hpos); [done|].
    destruct (tracklet_num_frames ds); [simpl in Hln; lia|done].
Qed.

(** X3: an interval of 0 or less is not rejected: the constructor emits no
    tracklet at all, for whatever labels, and [num_frames()] of the
    dataset it returns raises IndexError. *)
Theorem nonpositive_interval_empty fs split cfg ds fs' k :
  __init__ fs split cfg = (Ok ds, fs') →
  cfg_preload_interval cfg = Some (Interval k) →
  k ≤ 0 →
  tracklet_annotations ds = [] ∧ num_tracklets ds = 0 ∧
  num_frames ds = Raise IndexError.
Proof.
  intros Hinit Hpi Hk. apply init_indexed in Hinit as Hidx.
  pose proof (indexed_num_frames ds Hidx) as Hnf.
  apply init_inv in Hinit as (_ & _ & Hpi' & _ & _ & Hstage & _).
  rewrite Hpi', Hpi in Hstage. simpl in Hstage.
  apply index_stage_inv in Hstage as (_ & _ & ids & _ & Hb).
  apply build_tracklet_annotations_inv in Hb as (tables & _ & Hannos).
  assert (tracklet_annotations ds = []) as Hempty.
  { rewrite Hannos. apply bind_all_nil. intros [id data].
    unfold scene_tracklets. apply bind_all_nil. intros group.
    by apply fixed_interval_nonpositive. }
  rewrite Hempty in Hnf. unfold num_tracklets. by rewrite Hempty.
Qed.
End Construction.

(** On the sample data root: a category that is not listed, a split that
    is not known, the test split (scene 19 has no label file) and the
    training split. *)
Lemma init_outcome_witness :
  __init__ Sample.fs "train" (config "Truck" None 1 false "camera")
    = (Raise AssertionError, Sample.fs) ∧
  __init__ Sample.fs "holdout" sample_config = (Raise KeyError, Sample.fs) ∧
  __init__ Sample.fs "test" sample_config
    = (Raise FileNotFoundError, Sample.fs) ∧
  ∃ ds, __init__ Sample.fs "train" sample_config = (Ok ds, Sample.fs) ∧
        tracklets ds = None.
Proof.
  assert (valid_category sample_config) as Hcat.
  { unfold valid_category. simpl. in_list. }
  split; [|split; [|split]].
  - apply (proj1 (init_outcome Sample.fs "train"
                    (config "Truck" None 1 false "camera"))).
    unfold valid_category. simpl. intros Hin.
    repeat (apply elem_of_cons in Hin as [Hin|Hin]; [discriminate|]).
    by apply elem_of_nil in Hin.
  - apply (proj1 (proj2 (init_outcome Sample.fs "holdout" sample_config)));
      [exact Hcat|reflexivity].
  - apply (proj1 (proj2 (proj2 (init_outcome Sample.fs "test" sample_config))
                    [19] Hcat eq_refl)).
    exists 19. split; [apply list_elem_of_here|reflexivity].
  - apply (proj2 (proj2 (proj2 (init_outcome Sample.fs "train" sample_config))
                    [0] Hcat eq_refl)); [reflexivity|].
    intros id Hid. apply list_elem_of_singleton in Hid as ->.
    eexists. vm_compute. reflexivity.
Defined.

(** Index 9 and index -1 on the training split of the sample data root,
    which has 9 frames. *)
Lemma resolve_refuses_out_of_range_witness :
  ∃ ds fs', __init__ Sample.fs "train" sample_config = (Ok ds, fs') ∧
    num_frames ds = Ok 9 ∧
    get_tracklet_frame_id ds 9 = Raise IndexError ∧
    get_tracklet_frame_id ds (-1) = Raise AssertionError.
Proof.
  assert (∃ ds fs', __init__ Sample.fs "train" sample_config = (Ok ds, fs') ∧
                    num_frames ds = Ok 9) as (ds & fs' & Hinit & Hn).
  { eexists _, _. split; vm_compute; reflexivity. }
  exists ds, fs'. split; [exact Hinit|]. split; [exact Hn|].
  destruct (resolve_refuses_out_of_range Sample.fs "train" sample_config
              ds fs' 9 Hinit Hn) as [Hhi Hlo].
  split; [apply Hhi; lia|apply Hlo; lia].
Defined.

(** The sample data root under an interval of 0. *)
Lemma nonpositive_interval_empty_witness :
  ∃ ds fs', __init__ Sample.fs "train" zero_interval_config = (Ok ds, fs') ∧
    tracklet_annotations ds = [] ∧ num_frames ds = Raise IndexError.
Proof.
  assert (∃ ds fs',
            __init__ Sample.fs "train" zero_interval_config = (Ok ds, fs'))
    as (ds & fs' & Hinit).
  { eexists _, _. vm_compute. reflexivity. }
  exists ds, fs'. split; [exact Hinit|].
  destruct (nonpositive_interval_empty Sample.fs "train" zero_interval_config
              ds fs' 0 Hinit eq_refl ltac:(lia)) as (Hempty & _ & Hn).
  split; [exact Hempty|exact Hn].
Defined.

(** ** Order and content of the tracklets *)

Lemma sublist_elem_of {A} (l1 l2 : list A) x :
  l1 `sublist_of` l2 → x ∈ l1 → x ∈ l2.
Proof.
  induction 1 as [|y l1 l2 Hsub IH|y l1 l2 Hsub IH]; [done|..].
  - rewrite !elem_of_cons. intros [->|Hx]; auto.
  - intros Hx. right. auto.
Qed.

Section SortedFacts.
Context {A : Type} (key : A → Z).

Lemma insert_by_sorted a l :
  StronglySorted (key_le key) l → StronglySorted (key_le key) (insert_by key a l).
Proof.
  induction 1 as [|b r Hr IH Hb]; simpl; [repeat constructor|].
  destruct (Z.leb_spec (key a) (key b)) as [Hab|Hab].
  - constructor; [by constructor|]. constructor; [done|].
    eapply Forall_impl; [exact Hb|]. unfold key_le. intros x Hx. lia.
  - constructor; [done|]. rewrite insert_by_Permutation.
    constructor; [unfold key_le; lia|done].
Qed.

Lemma sort_by_sorted l : StronglySorted (key_le key) (sort_by key l).
Proof.
  induction l as [|a r IH]; simpl; [constructor|]. by apply insert_by_sorted.
Qed.

Lemma sublist_sorted (l1 l2 : list A) :
  l1 `sublist_of` l2 → StronglySorted (key_le key) l2 → StronglySorted (key_le key) l1.
Proof.
  induction 1 as [|x l1 l2 Hsub IH|x l1 l2 Hsub IH]; intros Hs; [done|..].
  - apply StronglySorted_inv in Hs as [Hs Hx]. constructor; [by apply IH|].
    rewrite Forall_forall in *. intros y Hy. apply Hx.
    by apply (sublist_elem_of l1 l2).
  - apply StronglySorted_inv in Hs as [Hs _]. by apply IH.
Qed.

Lemma sorted_lookup (l : list A) (i j : nat) a b :
  StronglySorted (key_le key) l → (i < j)%nat →
  l !! i = Some a → l !! j = Some b → key a ≤ key b.
Proof.
  intros Hs. revert i j.
  induction Hs as [|x r Hr IH Hx]; intros i j Hij Ha Hb; [done|].
  destruct j as [|j]; [lia|]. simpl in Hb. destruct i as [|i]; simpl in Ha.
  - injection Ha as ->. rewrite Forall_forall in Hx. apply Hx.
    by eapply list_elem_of_lookup_2.
  - apply (IH i j); [lia|done|done].
Qed.
End SortedFacts.

Lemma NoDup_unique l : NoDup (unique l).
Proof.
  induction l as [|x r IH]; simpl; [constructor|].
  constructor; [|by apply NoDup_filter].
  rewrite list_elem_of_filter. intros [Hne _]. by apply Hne.
Qed.

Lemma filter_split {A} (P Q : A → Prop) `{!∀ x, Decision (P x)}
    `{!∀ x, Decision (Q x)} `{!∀ x, Decision (P x ∨ Q x)} (l : list A) :
  (∀ x, P x → Q x → False) →
  filter P l ++ filter Q l ≡ₚ filter (λ x, P x ∨ Q x) l.
Proof.
  intros Hdisj. induction l as [|x l IH]; [done|].
  rewrite !filter_cons.
  destruct (decide (P x)) as [Hp|Hp], (decide (Q x)) as [Hq|Hq].
  - destruct (Hdisj x Hp Hq).
  - rewrite decide_True by auto. simpl. by rewrite IH.
  - rewrite decide_True by auto. rewrite <- Permutation_middle. by rewrite IH.
  - rewrite decide_False by tauto. done.
Qed.

Lemma group_by_key_Permutation {A} (key : A → Z) (ids : list Z) (l : list A) :
  NoDup ids →
  (ids ≫= λ t, filter (λ a, key a = t) l) ≡ₚ filter (λ a, key a ∈ ids) l.
Proof.
  induction 1 as [|t ids Ht Hnd IH]; csimpl.
  - induction l as [|x l IHl]; [done|]. rewrite filter_cons.
    rewrite decide_False; [done|]. apply not_elem_of_nil.
  - rewrite IH. rewrite filter_split.
    + rewrite (list_filter_iff _ (λ a, key a ∈ t :: ids)); [done|].
      intros x. by rewrite elem_of_cons.
    + intros x <- Hin. done.
Qed.

Lemma copies_app {A} n (l1 l2 : list A) :
  copies n (l1 ++ l2) ≡ₚ copies n l1 ++ copies n l2.
Proof.
  induction n as [|n IH]; simpl; [done|]. rewrite IH.
  rewrite <- !app_assoc. f_equiv. rewrite !app_assoc. f_equiv.
  apply Permutation_app_comm.
Qed.

Lemma copies_Permutation {A} n (l1 l2 : list A) :
  l1 ≡ₚ l2 → copies n l1 ≡ₚ copies n l2.
Proof.
  intros Hp. induction n as [|n IH]; simpl; [done|].
  by apply Permutation_app.
Qed.

Lemma copies_length {A} n (l : list A) :
  length (copies n l) = (n * length l)%nat.
Proof. induction n as [|n IH]; simpl; [done|]. rewrite length_app, IH. lia. Qed.

Lemma join_bind_copies {A} (f : list A → list (list A)) n (gs : list (list A)) :
  (∀ g, g ∈ gs → mjoin (f g) ≡ₚ copies n g) →
  mjoin (gs ≫= f) ≡ₚ copies n (mjoin gs).
Proof.
  induction gs as [|g gs IH]; intros Hf; csimpl.
  - clear Hf. induction n as [|n IHn]; [done|]. simpl. exact IHn.
  - rewrite join_app, copies_app, IH by (intros; apply Hf; by right).
    f_equiv. apply Hf. by left.
Qed.

Lemma join_bind_copies_gen {X A} (f : X → list (list A)) (g : X → list A)
    n (l : list X) :
  (∀ x, x ∈ l → mjoin (f x) ≡ₚ copies n (g x)) →
  mjoin (l ≫= f) ≡ₚ copies n (l ≫= g).
Proof.
  induction l as [|x l IH]; intros Hf; csimpl.
  - clear Hf. induction n as [|n IHn]; [done|]. simpl. exact IHn.
  - rewrite join_app, copies_app, IH by (intros; apply Hf; by right).
    f_equiv. apply Hf. by left.
Qed.

Lemma subsample_copies {A} split pi (group : list A) :
  match pi with Interval k => 1 ≤ k | IntervalAll => True end →
  mjoin (subsample split pi group) ≡ₚ
    copies (match pi with
            | Interval _ => 1
            | IntervalAll => length (role_intervals split)
            end) group.
Proof.
  intros Hpi. unfold subsample, role_intervals, sample_intervals.
  destruct pi as [k|].
  - simpl. rewrite app_nil_r. by apply fixed_interval_Permutation.
  - destruct (decide (split = "train")); csimpl.
    + rewrite !join_app, !app_nil_r.
      by rewrite !fixed_interval_Permutation by lia.
    + rewrite app_nil_r. by apply fixed_interval_Permutation.
Qed.

Lemma sum_list_len_join {A} (ls : list (list A)) :
  sum_list (len <$> ls) = Z.of_nat (length (mjoin ls)).
Proof.
  induction ls as [|l ls IH]; [done|]. csimpl. rewrite length_app.
  unfold sum_list in *. simpl. unfold len at 1. lia.
Qed.

Lemma filter_all {A} (P : A → Prop) `{!∀ x, Decision (P x)} (l : list A) :
  (∀ x, x ∈ l → P x) → filter P l = l.
Proof.
  induction l as [|x l IH]; intros Hall; [done|].
  rewrite filter_cons, decide_True by (apply Hall; left).
  rewrite IH; [done|]. intros y Hy. apply Hall. by right.
Qed.

Section IndexerOrder.
Context {num : Type} `{!NumpyOps num} `{!GeometryUtils num}.
Implicit Types (ds : KITTIFull num) (fs : FileSystem num) (cfg : Config num).

Lemma elem_of_accepted_rows category scene_id (data : list (LabelRow num)) a :
  a ∈ accepted_rows category scene_id data ↔
  scene a = scene_id ∧ row a ∈ data ∧ accepted_type category (row a).
Proof.
  unfold accepted_rows. rewrite list_elem_of_fmap. split.
  - intros (r & -> & Hr). apply list_elem_of_filter in Hr as [? ?]. done.
  - intros (Hs & Hr & Hacc). exists (row a). split.
    + destruct a as [s r]. simpl in *. by subst.
    + by apply list_elem_of_filter.
Qed.

Lemma track_groups_unfold category scene_id (data : list (LabelRow num)) :
  track_groups category scene_id data =
  (λ track_id,
     sort_by frame_of
       (filter (λ a, track_of a = track_id)
          (accepted_rows category scene_id data)))
    <$> sort_by id (unique (track_of <$> accepted_rows category scene_id data)).
Proof. reflexivity. Qed.

Lemma track_ids_sorted_NoDup category scene_id (data : list (LabelRow num)) :
  let ids := sort_by id
    (unique (track_of <$> accepted_rows category scene_id data)) in
  StronglySorted (key_le id) ids ∧ NoDup ids ∧
  ∀ t, t ∈ ids ↔ t ∈ track_of <$> accepted_rows category scene_id data.
Proof.
  cbv zeta. split; [apply sort_by_sorted|]. split.
  - rewrite sort_by_Permutation. apply NoDup_unique.
  - intros t. by rewrite sort_by_Permutation, elem_of_unique.
Qed.

Lemma track_groups_lookup category scene_id (data : list (LabelRow num))
    (i : nat) group :
  track_groups category scene_id data !! i = Some group →
  ∃ track_id,
    sort_by id (unique (track_of <$> accepted_rows category scene_id data))
      !! i = Some track_id ∧
    StronglySorted (key_le frame_of) group ∧
    ∀ a, a ∈ group ↔
         a ∈ accepted_rows category scene_id data ∧ track_of a = track_id.
Proof.
  rewrite track_groups_unfold, list_lookup_fmap. intros Hg.
  destruct (sort_by id _ !! i) as [tid|] eqn:Htid; [|done].
  injection Hg as <-. exists tid. split; [done|].
  split; [apply sort_by_sorted|].
  intros a. rewrite sort_by_Permutation, list_elem_of_filter. tauto.
Qed.

(** X4: within one scene the track groups come in strictly ascending order
    of track id: every record of an earlier group has a smaller track id
    than every record of a later group, so each track forms one group. *)
Theorem track_groups_ascending category scene_id (data : list (LabelRow num))
    (i j : nat) g1 g2 a b :
  (i < j)%nat →
  track_groups category scene_id data !! i = Some g1 →
  track_groups category scene_id data !! j = Some g2 →
  a ∈ g1 → b ∈ g2 →
  track_of a < track_of b.
Proof.
  intros Hij H1 H2 Ha Hb.
  apply track_groups_lookup in H1 as (t1 & Ht1 & _ & Hg1).
  apply track_groups_lookup in H2 as (t2 & Ht2 & _ & Hg2).
  apply Hg1 in Ha as [_ ->]. apply Hg2 in Hb as [_ ->].
  destruct (track_ids_sorted_NoDup category scene_id data) as (Hs & Hnd & _).
  pose proof (sorted_lookup id _ i j t1 t2 Hs Hij Ht1 Ht2) as Hle.
  assert (t1 ≠ t2) as Hne.
  { intros ->. pose proof (NoDup_lookup _ _ _ _ Hnd Ht1 Ht2). lia. }
  unfold id in Hle. lia.
Qed.

Lemma subsample_sublist {A} split pi (group t : list A) :
  t ∈ subsample split pi group → t `sublist_of` group ∧ t ≠ [].
Proof.
  intros Ht. apply elem_of_subsample in Ht as (p & k & _ & Hp & ->).
  split; [apply stride_from_sublist|by apply stride_from_nonempty].
Qed.

(** X5: every tracklet of a constructed dataset is a non-empty run of
    records of one scene of the split and of one track id, each a row of
    that scene's label file whose type passes the category filter, in
    non-decreasing order of frame number. *)
Theorem tracklets_wellformed fs split cfg ds fs' tracklet :
  __init__ fs split cfg = (Ok ds, fs') →
  tracklet ∈ tracklet_annotations ds →
  tracklet ≠ [] ∧
  ∃ scene_ids scene_id data track_id,
    split_type_to_scene_ids (debug cfg) !! split = Some scene_ids ∧
    scene_id ∈ scene_ids ∧
    label_files fs !! label_path cfg scene_id = Some data ∧
    (∀ a, a ∈ tracklet →
       scene a = scene_id ∧ track_of a = track_id ∧ row a ∈ data ∧
       accepted_type (category_name cfg) (row a)) ∧
    (∀ (i j : nat) a b, (i < j)%nat →
       tracklet !! i = Some a → tracklet !! j = Some b →
       frame_of a ≤ frame_of b).
Proof.
  intros Hinit Ht.
  apply init_inv in Hinit as (_ & _ & _ & _ & _ & Hstage & _).
  apply index_stage_inv in Hstage as (_ & _ & ids & Hids & Hb).
  apply build_tracklet_annotations_inv in Hb as (tables & Htables & Hannos).
  rewrite Hannos in Ht.
  apply list_elem_of_bind in Ht as ([id data] & Ht & Hzip). simpl in Ht.
  apply elem_of_lookup_zip_with in Hzip as (n & id' & data' & [= <- <-] & Hid & Hdata).
  pose proof (Forall2_lookup_lr _ _ _ _ _ _ Htables Hid Hdata) as Hfile.
  unfold scene_tracklets in Ht.
  apply list_elem_of_bind in Ht as (group & Ht & Hgroup).
  apply list_elem_of_lookup in Hgroup as [m Hgroup].
  apply track_groups_lookup in Hgroup as (tid & _ & Hsorted & Hmem).
  apply subsample_sublist in Ht as [Hsub Hne].
  split; [done|]. exists ids, id, data, tid.
  split; [done|]. split; [by eapply list_elem_of_lookup_2|]. split; [done|].
  split.
  - intros a Ha. apply (sublist_elem_of _ _ _ Hsub), Hmem in Ha as [Ha Htr].
    apply elem_of_accepted_rows in Ha as (? & ? & ?). done.
  - intros i j a b Hij Ha Hb.
    apply (sorted_lookup frame_of tracklet i j); try done.
    by apply (sublist_sorted frame_of tracklet group).
Qed.

Lemma track_groups_Permutation category scene_id (data : list (LabelRow num)) :
  mjoin (track_groups category scene_id data)
    ≡ₚ accepted_rows category scene_id data.
Proof.
  rewrite track_groups_unfold.
  destruct (track_ids_sorted_NoDup category scene_id data) as (_ & Hnd & Hin).
  cbv zeta in *.
  set (rows := accepted_rows category scene_id data) in *.
  set (ids := sort_by id (unique (track_of <$> rows))) in *.
  transitivity (ids ≫= λ t, filter (λ a, track_of a = t) rows).
  - clear Hnd Hin. induction ids as [|t ids IH]; [done|]. csimpl.
    by rewrite IH, sort_by_Permutation.
  - rewrite group_by_key_Permutation by done.
    rewrite filter_all; [done|]. intros a Ha. apply Hin.
    apply list_elem_of_fmap. by exists a.
Qed.

Lemma scene_tracklets_copies split pi category scene_id
    (data : list (LabelRow num)) :
  match pi with Interval k => 1 ≤ k | IntervalAll => True end →
  mjoin (scene_tracklets split pi category scene_id data) ≡ₚ
    copies (match pi with
            | Interval _ => 1
            | IntervalAll => length (role_intervals split)
            end) (accepted_rows category scene_id data).
Proof.
  intros Hpi. unfold scene_tracklets.
  rewrite join_bind_copies by (intros; by apply subsample_copies).
  apply copies_Permutation, track_groups_Permutation.
Qed.

(** X6: indexing loses and invents nothing.  With a fixed interval of at
    least 1 the tracklets of a scene, taken together, hold exactly the
    label rows that pass the category filter, each once; in exhaustive mode
    they hold each of them five times for the split 'train' and once for
    any other split. *)
Theorem indexing_partitions_rows split category scene_id
    (data : list (LabelRow num)) :
  let rows := accepted_rows category scene_id data in
  (∀ k, 1 ≤ k →
     mjoin (scene_tracklets split (Interval k) category scene_id data)
       ≡ₚ rows) ∧
  (split = "train" →
     mjoin (scene_tracklets split IntervalAll category scene_id data)
       ≡ₚ rows ++ rows ++ rows ++ rows ++ rows) ∧
  (split ≠ "train" →
     mjoin (scene_tracklets split IntervalAll category scene_id data)
       ≡ₚ rows).
Proof.
  cbv zeta. split; [|split].
  - intros k Hk.
    rewrite (scene_tracklets_copies split (Interval k)) by done.
    simpl. by rewrite app_nil_r.
  - intros ->. rewrite (scene_tracklets_copies "train" IntervalAll) by done.
    simpl. by rewrite app_nil_r.
  - intros Hs. rewrite (scene_tracklets_copies split IntervalAll) by done.
    unfold role_intervals. rewrite decide_False by done.
    simpl. by rewrite app_nil_r.
Qed.

(** X7: when [num_frames()] returns, it is the number of label rows of the
    split's scenes that pass the category filter, counted once under a
    fixed interval and once per interval of the role's list in exhaustive
    mode (five times for 'train'). *)
Theorem num_frames_counts_rows fs split cfg ds fs' total :
  __init__ fs split cfg = (Ok ds, fs') →
  num_frames ds = Ok total →
  ∃ scene_ids tables,
    split_type_to_scene_ids (debug cfg) !! split = Some scene_ids ∧
    Forall2 (λ id data, label_files fs !! label_path cfg id = Some data)
      scene_ids tables ∧
    total =
      Z.of_nat (match preload_interval ds with
                | Interval _ => 1
                | IntervalAll => length (role_intervals split)
                end) *
      Z.of_nat (length (idd ← zip scene_ids tables;
                        accepted_rows (category_name cfg) idd.1 idd.2)).
Proof.
  intros Hinit Htotal. pose proof (init_indexed _ _ _ _ _ Hinit) as Hidx.
  pose proof (indexed_num_frames ds Hidx) as Hnf.
  destruct Hidx as (Hn & _ & _ & _).
  pose proof (init_inv _ _ _ _ _ Hinit) as (_ & _ & _ & _ & _ & Hstage & _).
  apply index_stage_inv in Hstage as (_ & _ & ids & Hids & Hb).
  apply build_tracklet_annotations_inv in Hb as (tables & Htables & Hannos).
  exists ids, tables. split; [done|]. split; [done|].
  rewrite Hnf in Htotal.
  destruct (tracklet_annotations ds) as [|t0 annos] eqn:Ha; [done|].
  injection Htotal as <-. rewrite Hn, sum_list_len_join, <- Nat2Z.inj_mul.
  f_equal. rewrite <- copies_length. apply Permutation_length.
  rewrite Hannos. apply join_bind_copies_gen. intros [id data] _. simpl.
  apply scene_tracklets_copies.
  destruct (preload_interval ds) as [k|] eqn:Hpi; [|done].
  destruct (decide (1 ≤ k)) as [|Hk]; [done|exfalso].
  assert (t0 :: annos = []) as Hnil; [|done].
  rewrite Hannos. apply bind_all_nil. intros [id' data'].
  unfold scene_tracklets. apply bind_all_nil. intros group.
  apply fixed_interval_nonpositive. lia.
Qed.
End IndexerOrder.

(** In the sample label file the group of track 0 comes before that of
    track 1. *)
Lemma track_groups_ascending_witness :
  track_of (car 0) < track_of {| scene := 0; row := label 1 1 "Van" |}.
Proof.
  eapply (track_groups_ascending "All" 0 labels 0 1).
  - lia.
  - vm_compute. reflexivity.
  - vm_compute. reflexivity.
  - apply list_elem_of_here.
  - apply list_elem_of_here.
Defined.

(** The first tracklet of the training split of the sample data root. *)
Lemma tracklets_wellformed_witness :
  ∃ ds fs' tracklet,
    __init__ Sample.fs "train" sample_config = (Ok ds, fs') ∧
    tracklet ∈ tracklet_annotations ds ∧ tracklet ≠ [].
Proof.
  assert (∃ ds fs' tracklet,
            __init__ Sample.fs "train" sample_config = (Ok ds, fs') ∧
            tracklet_annotations ds !! 0%nat = Some tracklet)
    as (ds & fs' & tracklet & Hinit & Hlook).
  { eexists _, _, _. split; vm_compute; reflexivity. }
  pose proof (list_elem_of_lookup_2 _ _ _ Hlook) as Hin.
  exists ds, fs', tracklet. split; [exact Hinit|]. split; [exact Hin|].
  exact (proj1 (tracklets_wellformed Sample.fs "train" sample_config ds fs'
                  tracklet Hinit Hin)).
Defined.

(** The sample label file under an interval of 2 and in exhaustive mode. *)
Lemma indexing_partitions_rows_witness :
  mjoin (scene_tracklets "train" (Interval 2) "All" 0 labels)
    ≡ₚ accepted_rows "All" 0 labels ∧
  length (mjoin (scene_tracklets "train" IntervalAll "All" 0 labels))
    = 45%nat.
Proof.
  destruct (indexing_partitions_rows "train" "All" 0 labels)
    as (Hfixed & Htrain & _).
  split; [apply Hfixed; lia|].
  rewrite (Htrain eq_refl). reflexivity.
Defined.

(** The 9 accepted rows of the sample label file, counted once. *)
Lemma num_frames_counts_rows_witness :
  ∃ ds fs', __init__ Sample.fs "train" sample_config = (Ok ds, fs') ∧
    num_frames ds = Ok 9 ∧
    ∃ scene_ids (tables : list (list (LabelRow Z))),
      split_type_to_scene_ids (debug sample_config) !! "train"
        = Some scene_ids ∧
      9 = Z.of_nat (match preload_interval ds with
                    | Interval _ => 1
                    | IntervalAll => length (role_intervals "train")
                    end) *
          Z.of_nat (length (idd ← zip scene_ids tables;
                            accepted_rows (category_name sample_config)
                              idd.1 idd.2)).
Proof.
  assert (∃ ds fs', __init__ Sample.fs "train" sample_config = (Ok ds, fs') ∧
                    num_frames ds = Ok 9) as (ds & fs' & Hinit & Hn).
  { eexists _, _. split; vm_compute; reflexivity. }
  exists ds, fs'. split; [exact Hinit|]. split; [exact Hn|].
  destruct (num_frames_counts_rows Sample.fs "train" sample_config ds fs' 9
              Hinit Hn) as (ids & tables & Hids & _ & Htotal).
  exists ids, tables. split; [exact Hids|exact Htotal].
Defined.

(** ** Independence of the row order *)

Section SortedUnique.
Context {A : Type} (key : A → Z).

Lemma sorted_Permutation_eq (l1 : list A) : ∀ l2,
  l1 ≡ₚ l2 →
  StronglySorted (key_le key) l1 → StronglySorted (key_le key) l2 →
  (∀ a b, a ∈ l1 → b ∈ l1 → key a = key b → a = b) →
  l1 = l2.
Proof.
  induction l1 as [|a l1 IH]; intros l2 Hp Hs1 Hs2 Hinj.
  - symmetry. by apply Permutation_nil_r.
  - destruct l2 as [|b l2]; [by apply Permutation_nil_r in Hp|].
    apply StronglySorted_inv in Hs1 as [Hs1 Ha].
    apply StronglySorted_inv in Hs2 as [Hs2 Hb].
    rewrite Forall_forall in Ha, Hb.
    assert (a ∈ b :: l2) as Ha2 by (rewrite <- Hp; left).
    assert (b ∈ a :: l1) as Hb1 by (rewrite Hp; left).
    assert (key a = key b) as Hk.
    { apply elem_of_cons in Ha2 as [->|Ha2]; [done|].
      pose proof Hb1 as Hb1'.
      apply elem_of_cons in Hb1' as [->|Hb1']; [done|].
      specialize (Ha _ Hb1'). specialize (Hb _ Ha2). unfold key_le in *. lia. }
    assert (a = b) as <- by (apply Hinj; [left|done|done]).
    apply Permutation_cons_inv in Hp. f_equal.
    apply IH; [done|done|done|].
    intros x y Hx Hy. apply Hinj; by right.
Qed.

Lemma sort_by_Permutation_eq (l1 l2 : list A) :
  l1 ≡ₚ l2 →
  (∀ a b, a ∈ l1 → b ∈ l1 → key a = key b → a = b) →
  sort_by key l1 = sort_by key l2.
Proof.
  intros Hp Hinj. apply sorted_Permutation_eq.
  - by rewrite !sort_by_Permutation.
  - apply sort_by_sorted.
  - apply sort_by_sorted.
  - intros a b. rewrite !sort_by_Permutation. apply Hinj.
Qed.
End SortedUnique.

Lemma unique_Permutation l1 l2 : l1 ≡ₚ l2 → unique l1 ≡ₚ unique l2.
Proof.
  intros Hp. apply NoDup_Permutation; [apply NoDup_unique..|].
  intros x. by rewrite !elem_of_unique, Hp.
Qed.

Section RowOrder.
Context {num : Type} `{!NumpyOps num} `{!GeometryUtils num}.

Lemma accepted_rows_Permutation category scene_id
    (data1 data2 : list (LabelRow num)) :
  data1 ≡ₚ data2 →
  accepted_rows category scene_id data1
    ≡ₚ accepted_rows category scene_id data2.
Proof. intros Hp. unfold accepted_rows. by rewrite Hp. Qed.

(** X18: the tracklets of a scene do not depend on the order of the rows
    in its label file, as long as no two accepted rows share track id and
    frame number (then the sort by frame has no ties to break). *)
Theorem row_order_irrelevant split pi category scene_id
    (data1 data2 : list (LabelRow num)) :
  data1 ≡ₚ data2 →
  (∀ r1 r2, r1 ∈ data1 → r2 ∈ data1 →
     accepted_type category r1 → accepted_type category r2 →
     row_track_id r1 = row_track_id r2 → row_frame r1 = row_frame r2 →
     r1 = r2) →
  scene_tracklets split pi category scene_id data1
    = scene_tracklets split pi category scene_id data2.
Proof.
  intros Hp Hinj. unfold scene_tracklets. f_equal.
  rewrite !track_groups_unfold.
  pose proof (accepted_rows_Permutation category scene_id _ _ Hp) as Hrows.
  set (rows1 := accepted_rows category scene_id data1) in *.
  set (rows2 := accepted_rows category scene_id data2) in *.
  assert (sort_by id (unique (track_of <$> rows1))
          = sort_by id (unique (track_of <$> rows2))) as <-.
  { apply sort_by_Permutation_eq; [|done].
    apply unique_Permutation. by rewrite Hrows. }
  apply list_fmap_ext. intros _ tid _.
  apply sort_by_Permutation_eq; [by rewrite Hrows|].
  intros a b Ha Hb Hframe.
  apply list_elem_of_filter in Ha as [Hta Ha].
  apply list_elem_of_filter in Hb as [Htb Hb].
  apply elem_of_accepted_rows in Ha as (Hsa & Hra & Hacca).
  apply elem_of_accepted_rows in Hb as (Hsb & Hrb & Haccb).
  destruct a as [sa ra], b as [sb rb]. simpl in *. subst.
  f_equal. by apply Hinj.
Qed.
End RowOrder.

(** Three rows out of order and the same rows reversed. *)
Lemma row_order_irrelevant_witness :
  scene_tracklets "train" (Interval 1) "Car" 0 labels_unordered
    = scene_tracklets "train" (Interval 1) "Car" 0 (reverse labels_unordered).
Proof.
  apply row_order_irrelevant.
  - symmetry. apply reverse_Permutation.
  - intros r1 r2 H1 H2 _ _ Ht Hf. unfold labels_unordered in *.
    repeat (apply elem_of_cons in H1 as [->|H1]);
      repeat (apply elem_of_cons in H2 as [->|H2]);
      try (by apply elem_of_nil in H1); try (by apply elem_of_nil in H2);
      simpl in *; done.
Defined.

(** ** Calibration files and the memo *)

Section Calibration.
Context {num : Type} `{!NumpyOps num} `{!GeometryUtils num}.
Implicit Types (ds : KITTIFull num) (fs : FileSystem num) (cfg : Config num).
Implicit Types (ci : gmap Z (gmap string (list (list num)))).

Lemma reshape_3_4_shape {A} (xs : list A) m :
  reshape_3_4 xs = Some m →
  length m = 3%nat ∧ Forall (λ r, length r = 4%nat) m ∧ mjoin m = xs.
Proof.
  unfold reshape_3_4. destruct (decide (length xs = 12%nat)) as [Hl|]; [|done].
  intros [= <-].
  do 13 (destruct xs as [|? xs]; [try done|]); [|done].
  simpl. repeat split; repeat constructor.
Qed.

Lemma parse_calib_line_lookup (data : gmap string (list (list num)))
    values key :
  parse_calib_line data values !! key =
    match calib_entry key values with
    | Some m => Some m
    | None => data !! key
    end.
Proof.
  unfold parse_calib_line, calib_entry.
  destruct values as [|k rest]; simpl.
  - reflexivity.
  - rewrite drop_0.
    destruct (mapM float rest ≫= reshape_3_4) as [m|] eqn:Hm.
    + destruct (decide (k = key)) as [->|Hne].
      * by rewrite lookup_insert_eq.
      * by rewrite lookup_insert_ne.
    + by destruct (decide (k = key)).
Qed.

(** X8: reading a calibration file fails only when the file is missing.
    Under each key the result holds the matrix of the last line that
    starts with the key and goes on with exactly 12 floats; every other
    line (dates, blank lines, wrong counts) is passed over.  Each matrix
    kept has 3 rows of 4 entries, the line's floats in order. *)
Theorem read_calibration_file_lookup fs filepath :
  (calib_files fs !! filepath = None →
     _read_calibration_file fs filepath = Raise FileNotFoundError) ∧
  (∀ lines, calib_files fs !! filepath = Some lines →
     ∃ calib, _read_calibration_file fs filepath = Ok calib ∧
       ∀ key,
         calib !! key = last (omap (calib_entry key) lines) ∧
         ∀ m, calib !! key = Some m →
           length m = 3%nat ∧ Forall (λ r, length r = 4%nat) m ∧
           ∃ values floats,
             values ∈ lines ∧ values = key :: drop 1 values ∧
             mapM float (drop 1 values) = Some floats ∧ mjoin m = floats).
Proof.
  unfold _read_calibration_file. split; [by intros ->|].
  intros lines ->. eexists. split; [done|]. intros key.
  assert (foldl parse_calib_line ∅ lines !! key
          = last (omap (calib_entry key) lines)) as Hlook.
  { induction lines as [|values lines IH] using rev_ind; [done|].
    rewrite foldl_snoc, parse_calib_line_lookup, IH, omap_app. simpl.
    destruct (calib_entry key values) as [m|]; simpl.
    - by rewrite last_snoc.
    - by rewrite app_nil_r. }
  split; [done|]. rewrite Hlook. intros m Hm.
  apply last_Some_elem_of, list_elem_of_omap in Hm as (values & Hin & Hentry).
  unfold calib_entry in Hentry. destruct values as [|k rest]; [done|].
  destruct (decide (k = key)) as [->|]; [|done].
  destruct (mapM float rest) as [floats|] eqn:Hfloats; [|done]. simpl in Hentry.
  apply reshape_3_4_shape in Hentry as (Hlen & Hrows & Hjoin).
  split; [done|]. split; [done|].
  exists (key :: rest), floats. simpl. rewrite ?drop_0. done.
Qed.
End Calibration.

(** The calibration file of scene 0 of the sample data root: the blank
    line and the date line are skipped. *)
Lemma read_calibration_file_lookup_witness :
  _read_calibration_file Sample.fs "data/calib/0001.txt"
    = Raise FileNotFoundError ∧
  ∃ calib,
    _read_calibration_file Sample.fs "data/calib/0000.txt" = Ok calib ∧
    calib !! "Tr_velo_cam"
      = Some [[1; 0; 0; 0]; [0; 1; 0; 0]; [0; 0; 1; 0]] ∧
    calib !! "calib_time:" = None.
Proof.
  split.
  - apply (proj1 (read_calibration_file_lookup Sample.fs
                    "data/calib/0001.txt")). reflexivity.
  - destruct (proj2 (read_calibration_file_lookup Sample.fs
                       "data/calib/0000.txt") calib_lines eq_refl)
      as (calib & Hread & Hkeys).
    exists calib. split; [exact Hread|]. split.
    + rewrite (proj1 (Hkeys "Tr_velo_cam")). reflexivity.
    + rewrite (proj1 (Hkeys "calib_time:")). reflexivity.
Defined.

Section Memo.
Context {num : Type} `{!NumpyOps num} `{!GeometryUtils num}.
Implicit Types (ds : KITTIFull num) (fs : FileSystem num) (cfg : Config num).
Implicit Types (ci : gmap Z (gmap string (list (list num)))).
Implicit Types (frame_anno : Anno num).

Lemma build_frame_state fs cfg frame_anno ci :
  (_build_frame fs cfg frame_anno ci).2
    = (get_calibration fs cfg (scene frame_anno) ci).2.
Proof. by rewrite build_frame_unfold, bbox_stage_unfold. Qed.

Lemma build_frame_result fs cfg frame_anno ci :
  (_build_frame fs cfg frame_anno ci).1 =
    calib ← (get_calibration fs cfg (scene frame_anno) ci).1;
    vb ← bbox_of_calib cfg frame_anno calib;
    Ok {| pcd := load_pcd fs cfg vb.1 (scene frame_anno)
                   (row_frame (row frame_anno));
          bbox := vb.2; anno := frame_anno |}.
Proof.
  rewrite build_frame_unfold, bbox_stage_unfold. simpl.
  destruct (get_calibration fs cfg (scene frame_anno) ci).1 as [calib|e];
    simpl; [|done].
  by destruct (bbox_of_calib cfg frame_anno calib).
Qed.

Lemma load_pcd_ext fs fs2 cfg v scene_id frame_id :
  velodyne_files fs2 = velodyne_files fs →
  load_pcd fs2 cfg v scene_id frame_id = load_pcd fs cfg v scene_id frame_id.
Proof. intros Hv. unfold load_pcd, load_pcd_try. by rewrite Hv. Qed.

(** X9: the calibration memo.  For a scene already memoised the memo is
    left as it is and no calibration file is consulted: the call gives the
    same under any data root that holds the same point-cloud files.  For a
    scene not memoised, a missing calibration file raises
    FileNotFoundError and leaves the memo as it is, and a file that is read
    is memoised under the scene id, whether or not the frame is then
    built.  No other scene's entry ever changes. *)
Theorem calibration_memo fs cfg frame_anno ci :
  let scene_id := scene frame_anno in
  let r := _build_frame fs cfg frame_anno ci in
  (∀ calib, ci !! scene_id = Some calib →
     r.2 = ci ∧
     ∀ fs2, velodyne_files fs2 = velodyne_files fs →
            _build_frame fs2 cfg frame_anno ci = r) ∧
  (ci !! scene_id = None →
     (calib_files fs !! calib_path cfg scene_id = None →
        r = (Raise FileNotFoundError, ci)) ∧
     (∀ calib,
        _read_calibration_file fs (calib_path cfg scene_id) = Ok calib →
        r.2 = <[scene_id := calib]> ci)) ∧
  (∀ s, s ≠ scene_id → r.2 !! s = ci !! s).
Proof.
  cbv zeta. split; [|split].
  - intros calib Hmemo.
    assert (∀ fs0, get_calibration fs0 cfg (scene frame_anno) ci
                   = (Ok calib, ci)) as Hget.
    { intros fs0. unfold get_calibration. by rewrite Hmemo. }
    split; [by rewrite build_frame_state, Hget|].
    intros fs2 Hv.
    rewrite (surjective_pairing (_build_frame fs2 cfg frame_anno ci)).
    rewrite (surjective_pairing (_build_frame fs cfg frame_anno ci)).
    rewrite !build_frame_state, !build_frame_result, !Hget. simpl.
    f_equal. destruct (bbox_of_calib cfg frame_anno calib) as [vb|e];
      simpl; [|done].
    by rewrite (load_pcd_ext fs fs2).
  - intros Hnone. split.
    + intros Hfile.
      rewrite (surjective_pairing (_build_frame fs cfg frame_anno ci)).
      rewrite build_frame_state, build_frame_result.
      unfold get_calibration, _read_calibration_file.
      by rewrite Hnone, Hfile.
    + intros calib Hread. rewrite build_frame_state.
      unfold get_calibration. by rewrite Hnone, Hread.
  - intros s Hs. rewrite build_frame_state. unfold get_calibration.
    destruct (ci !! scene frame_anno) as [calib|]; [done|].
    destruct (_read_calibration_file fs _) as [calib|e]; simpl; [|done].
    by rewrite lookup_insert_ne.
Qed.

(** X10: [_build_frame] raises nothing but FileNotFoundError (calibration
    file missing and scene not memoised), KeyError (the calibration has no
    'Tr_velo_cam'), AssertionError (the coordinate mode is neither 'camera'
    nor 'velodyne') and LinAlgError (velodyne mode, matrix not
    invertible), tested in this order; otherwise it returns a frame that
    carries the record it was given and the record's extents. *)
Theorem build_frame_outcome fs cfg frame_anno ci :
  let r := (_build_frame fs cfg frame_anno ci).1 in
  let velo_to_cam tr :=
    np_vstack tr [of_int 0; of_int 0; of_int 0; of_int 1] in
  (∀ e, r = Raise e →
     e ∈ [FileNotFoundError; KeyError; AssertionError; LinAlgError]) ∧
  (r = Raise FileNotFoundError ↔
     ci !! scene frame_anno = None ∧
     calib_files fs !! calib_path cfg (scene frame_anno) = None) ∧
  (∀ calib, (get_calibration fs cfg (scene frame_anno) ci).1 = Ok calib →
     (r = Raise KeyError ↔ calib !! "Tr_velo_cam" = None) ∧
     ∀ tr, calib !! "Tr_velo_cam" = Some tr →
       (r = Raise AssertionError ↔
          coordinate_mode cfg ∉ ["camera"; "velodyne"]) ∧
       (r = Raise LinAlgError ↔
          coordinate_mode cfg = "velodyne" ∧
          np_linalg_inv (velo_to_cam tr) = None) ∧
       (coordinate_mode cfg = "camera" ∨
        (coordinate_mode cfg = "velodyne" ∧
         is_Some (np_linalg_inv (velo_to_cam tr))) →
        ∃ frame, r = Ok frame)) ∧
  (∀ frame, r = Ok frame →
     anno frame = frame_anno ∧
     wlh (bbox frame) = [row_width (row frame_anno);
                         row_length (row frame_anno);
                         row_height (row frame_anno)]).
Proof.
  cbv zeta. rewrite build_frame_result.
  assert (∀ calib tr, calib !! "Tr_velo_cam" = Some tr →
    bbox_of_calib cfg frame_anno calib =
      (if bool_decide (coordinate_mode cfg ∈ ["camera"; "velodyne"])
       then (λ b, (np_vstack tr [of_int 0; of_int 0; of_int 0; of_int 1], b))
              <$> build_bbox cfg
                    (np_vstack tr [of_int 0; of_int 0; of_int 0; of_int 1])
                    frame_anno
       else Raise AssertionError)) as Hbox.
  { intros calib tr Htr. unfold bbox_of_calib. rewrite Htr. simpl.
    destruct (bool_decide _); simpl; [|done].
    by destruct (build_bbox _ _ _). }
  assert (∀ calib, calib !! "Tr_velo_cam" = None →
    bbox_of_calib cfg frame_anno calib = Raise KeyError) as Hkey.
  { intros calib Htr. unfold bbox_of_calib. by rewrite Htr. }
  assert (∀ e, (get_calibration fs cfg (scene frame_anno) ci).1 = Raise e →
    e = FileNotFoundError ∧ ci !! scene frame_anno = None ∧
    calib_files fs !! calib_path cfg (scene frame_anno) = None) as Hget.
  { intros e. unfold get_calibration, _read_calibration_file.
    destruct (ci !! scene frame_anno); [done|].
    destruct (calib_files fs !! _); simpl; [done|]. by intros [= <-]. }
  assert (∀ v, build_bbox cfg v frame_anno =
    if decide (coordinate_mode cfg = "camera")
    then build_bbox cfg v frame_anno
    else match np_linalg_inv v with
         | None => Raise LinAlgError
         | Some _ => build_bbox cfg v frame_anno
         end) as Hbb.
  { intros v. unfold build_bbox.
    destruct (decide (coordinate_mode cfg = "camera")); [done|].
    by destruct (np_linalg_inv v). }
  assert (∀ v b, build_bbox cfg v frame_anno = Ok b →
    wlh b = [row_width (row frame_anno); row_length (row frame_anno);
             row_height (row frame_anno)]) as Hwlh.
  { intros v b. unfold build_bbox.
    destruct (decide (coordinate_mode cfg = "camera")).
    - by intros [= <-].
    - destruct (np_linalg_inv v); [|done]. by intros [= <-]. }
  assert (∀ v e, build_bbox cfg v frame_anno = Raise e →
    e = LinAlgError ∧ coordinate_mode cfg ≠ "camera" ∧
    np_linalg_inv v = None) as Hlin.
  { intros v e. unfold build_bbox.
    destruct (decide (coordinate_mode cfg = "camera")); [done|].
    destruct (np_linalg_inv v); [done|]. by intros [= <-]. }
  assert (∀ v, coordinate_mode cfg = "camera" ∨
               (coordinate_mode cfg = "velodyne" ∧ is_Some (np_linalg_inv v)) →
    ∃ b, build_bbox cfg v frame_anno = Ok b) as Hok.
  { intros v Hm. unfold build_bbox.
    destruct (decide (coordinate_mode cfg = "camera")) as [|Hne]; [by eexists|].
    destruct Hm as [|[_ [inv ->]]]; [done|by eexists]. }
  destruct (get_calibration fs cfg (scene frame_anno) ci).1 as [calib|e0]
    eqn:Hcal; simpl.
  - assert (¬ (ci !! scene frame_anno = None ∧
               calib_files fs !! calib_path cfg (scene frame_anno) = None))
      as Hnot.
    { intros [H1 H2]. revert Hcal.
      unfold get_calibration, _read_calibration_file. by rewrite H1, H2. }
    destruct (calib !! "Tr_velo_cam") as [tr|] eqn:Htr.
    + rewrite (Hbox calib tr Htr).
      destruct (bool_decide_reflect
                  (coordinate_mode cfg ∈ ["camera"; "velodyne"])) as [Hm|Hm].
      * destruct (build_bbox cfg _ frame_anno) as [b|e] eqn:Hb; simpl.
        -- split; [done|]. split; [by split|]. split.
           ++ intros calib' [= <-]. split; [by rewrite Htr|].
              intros tr' Htr'. rewrite Htr in Htr'. injection Htr' as <-.
              split; [by split|]. split.
              ** split; [done|]. intros [Hv Hinv].
                 destruct (Hok (np_vstack tr
                   [of_int 0; of_int 0; of_int 0; of_int 1])) as [b' Hb'].
                 { rewrite Hbb, decide_False, Hinv in Hb by (by rewrite Hv).
                   done. }
                 rewrite Hbb, decide_False, Hinv in Hb by (by rewrite Hv).
                 done.
              ** intros _. by eexists.
           ++ intros frame [= <-]. simpl. split; [done|]. by eapply Hwlh.
        -- apply Hlin in Hb as (-> & Hne & Hinv).
           split.
           { intros e [= <-]. in_list. }
           split; [by split|]. split; [|done].
           intros calib' [= <-]. split; [by rewrite Htr|].
           intros tr' Htr'. rewrite Htr in Htr'. injection Htr' as <-.
           split; [by split|]. split.
           ++ split; [|done]. intros _. split; [|done].
              apply elem_of_cons in Hm as [Hm|Hm]; [done|].
              by apply list_elem_of_singleton in Hm.
           ++ intros [Hc|[_ [inv Hinv']]]; [done|]. by rewrite Hinv in Hinv'.
      * split.
        { intros e [= <-]. in_list. }
        split; [by split|]. split; [|done].
        intros calib' [= <-]. split; [by rewrite Htr|].
        intros tr' Htr'. rewrite Htr in Htr'. injection Htr' as <-.
        split; [done|]. split.
        -- split; [done|]. intros [Hv _]. exfalso. apply Hm.
           rewrite Hv. in_list.
        -- intros [Hv|[Hv _]]; exfalso; apply Hm; rewrite Hv; in_list.
    + rewrite (Hkey calib Htr). split.
      { intros e [= <-]. in_list. }
      split; [by split|]. split; [|done].
      intros calib' [= <-]. split; [done|].
      intros tr' Htr'. by rewrite Htr in Htr'.
  - destruct (Hget e0 eq_refl) as (-> & Hnone & Hfile).
    split.
    { intros e [= <-]. in_list. }
    split; [done|]. split; done.
Qed.
End Memo.

(** Frame 0 of scene 0 of the sample data root, on an empty memo and on
    the memo the first call leaves; without calibration files the first
    call fails and the second does not read them. *)
Lemma calibration_memo_witness :
  ∃ calib,
    (_build_frame Sample.fs camera_config (car 0) ∅).2 = {[ 0 := calib ]} ∧
    _build_frame fs_no_calib camera_config (car 0) ∅
      = (Raise FileNotFoundError, ∅) ∧
    _build_frame fs_no_calib camera_config (car 0) {[ 0 := calib ]}
      = _build_frame Sample.fs camera_config (car 0) {[ 0 := calib ]}.
Proof.
  assert (∃ calib, _read_calibration_file Sample.fs
                     (calib_path camera_config (scene (car 0))) = Ok calib)
    as [calib Hread].
  { eexists. vm_compute. reflexivity. }
  destruct (calibration_memo Sample.fs camera_config (car 0) ∅)
    as (_ & Hfresh & _).
  destruct (calibration_memo fs_no_calib camera_config (car 0) ∅)
    as (_ & Hmissing & _).
  destruct (calibration_memo Sample.fs camera_config (car 0) {[ 0 := calib ]})
    as (Hmemo & _ & _).
  exists calib. split; [|split].
  - rewrite (proj2 (Hfresh eq_refl) calib Hread). reflexivity.
  - apply (proj1 (Hmissing eq_refl)). reflexivity.
  - apply (proj2 (Hmemo calib (lookup_singleton_eq _ _))). reflexivity.
Defined.

(** Frame 0 of scene 0 of the sample data root, with and without the
    calibration files. *)
Lemma build_frame_outcome_witness :
  (_build_frame fs_no_calib camera_config (car 0) ∅).1
    = Raise FileNotFoundError ∧
  ∃ frame, (_build_frame Sample.fs camera_config (car 0) ∅).1 = Ok frame ∧
           anno frame = car 0.
Proof.
  split.
  - apply (proj1 (proj2 (build_frame_outcome fs_no_calib camera_config
                           (car 0) ∅))).
    split; reflexivity.
  - assert (∃ frame,
      (_build_frame Sample.fs camera_config (car 0) ∅).1 = Ok frame)
      as [frame Hframe].
    { eexists. vm_compute. reflexivity. }
    exists frame. split; [exact Hframe|].
    exact (proj1 (proj2 (proj2 (proj2 (build_frame_outcome Sample.fs
                     camera_config (car 0) ∅))) frame Hframe)).
Defined.

(** ** Access by global index and repeated access *)

Lemma lookup_join_offset {A} (ls : list (list A)) : ∀ (t f : nat) l a,
  ls !! t = Some l → l !! f = Some a →
  mjoin ls !! (length (mjoin (take t ls)) + f)%nat = Some a.
Proof.
  induction ls as [|l0 ls IH]; intros t f l a Ht Hf; [done|].
  destruct t as [|t]; simpl in Ht.
  - injection Ht as ->. rewrite take_0. csimpl.
    by rewrite lookup_app_l by (by eapply lookup_lt_Some).
  - csimpl. rewrite length_app, <- Nat.add_assoc.
    rewrite lookup_app_r by lia.
    replace (length l0 + (length (mjoin (take t ls)) + f) - length l0)%nat
      with (length (mjoin (take t ls)) + f)%nat by lia.
    by eapply IH.
Qed.

Section Access.
Context {num : Type} `{!NumpyOps num} `{!GeometryUtils num}.
Implicit Types (ds : KITTIFull num) (fs : FileSystem num) (cfg : Config num).
Implicit Types (ci : gmap Z (gmap string (list (list num)))).
Implicit Types (frame_anno : Anno num).

Lemma with_calibration_info_id ds :
  with_calibration_info ds (calibration_info ds) = ds.
Proof. by destruct ds. Qed.

Lemma calib_consistent_ext fs fs2 cfg ci :
  calib_files fs2 = calib_files fs →
  calib_consistent fs cfg ci → calib_consistent fs2 cfg ci.
Proof.
  intros Hfiles Hci s c Hs. unfold _read_calibration_file. rewrite Hfiles.
  by apply Hci.
Qed.

Lemma build_frame_fresh_ext fs fs2 cfg frame_anno :
  calib_files fs2 = calib_files fs →
  velodyne_files fs2 = velodyne_files fs →
  build_frame_fresh fs2 cfg frame_anno = build_frame_fresh fs cfg frame_anno.
Proof.
  intros Hc Hv. unfold build_frame_fresh. rewrite !build_frame_result.
  unfold get_calibration, _read_calibration_file. rewrite lookup_empty, Hc.
  destruct (calib_files fs !! _) as [lines|]; simpl; [|done].
  destruct (bbox_of_calib cfg frame_anno _) as [vb|e]; simpl; [|done].
  by rewrite (load_pcd_ext fs fs2).
Qed.

(** What a successful construction leaves behind: the data root differs at
    most by the cache file, and every memoised calibration is what its
    file holds. *)
Lemma init_files fs split cfg ds fs' :
  __init__ fs split cfg = (Ok ds, fs') →
  label_files fs' = label_files fs ∧ calib_files fs' = calib_files fs ∧
  velodyne_files fs' = velodyne_files fs ∧
  calib_consistent fs cfg (calibration_info ds).
Proof.
  intros Hinit.
  apply init_inv in Hinit as (_ & _ & _ & _ & _ & _ & Hc).
  destruct (cache ds).
  - destruct (cache_files fs !! cache_path split cfg) as [stored|].
    + destruct Hc as (_ & -> & ->). repeat split.
      apply calib_consistent_empty.
    + destruct Hc as (stored & Hm & _ & ->). repeat split.
      apply materialize_all_consistent in Hm as [_ Hci]; [done|].
      apply calib_consistent_empty.
  - destruct Hc as (_ & -> & ->). repeat split. apply calib_consistent_empty.
Qed.

Lemma get_frame_memo fs ds ci tracklet_id frame_id :
  calib_consistent fs (cfg ds) (calibration_info ds) →
  calib_consistent fs (cfg ds) ci →
  (get_frame fs (with_calibration_info ds ci) tracklet_id frame_id).1
    = (get_frame fs ds tracklet_id frame_id).1 ∧
  ∃ ci', (get_frame fs (with_calibration_info ds ci) tracklet_id frame_id).2
           = with_calibration_info ds ci' ∧
         calib_consistent fs (cfg ds) ci'.
Proof.
  intros Hds Hci. destruct (truthy (tracklets ds)) eqn:Htr.
  - unfold get_frame. simpl. rewrite Htr. simpl. split; [done|].
    by exists ci.
  - split.
    + by rewrite !get_frame_on_demand.
    + unfold get_frame. simpl. rewrite Htr.
      destruct (py_index (tracklet_annotations ds) tracklet_id) as [ta|e];
        simpl; [|by exists ci].
      destruct (py_index ta frame_id) as [a|e]; simpl; [|by exists ci].
      destruct (build_frame_consistent fs (cfg ds) a ci Hci) as [_ Hci'].
      destruct (_build_frame fs (cfg ds) a ci) as [[fr|e] ci'];
        by exists ci'.
Qed.

(** X11: the calibration memo cannot be observed through [get_frame].  On
    a constructed dataset, whatever calls were made before, each call in a
    sequence returns what it would return as the first call after
    construction (frame or exception); and the calls change nothing of
    the dataset but the memo. *)
Theorem get_frame_history_independent fs split conf ds fs' requests :
  __init__ fs split conf = (Ok ds, fs') →
  (get_frames fs' ds requests).1
    = (λ req, (get_frame fs' ds req.1 req.2).1) <$> requests ∧
  ∃ ci, (get_frames fs' ds requests).2 = with_calibration_info ds ci.
Proof.
  intros Hinit.
  pose proof (init_inv _ _ _ _ _ Hinit) as (_ & Hcfg & _).
  destruct (init_files _ _ _ _ _ Hinit) as (_ & Hcal & _ & Hds0).
  assert (calib_consistent fs' (cfg ds) (calibration_info ds)) as Hds.
  { rewrite Hcfg. by apply (calib_consistent_ext fs). }
  clear Hds0 Hinit Hcal Hcfg.
  unfold get_frames.
  assert (∀ ci acc, calib_consistent fs' (cfg ds) ci →
    let out := foldl (λ acc req,
                 let out := get_frame fs' acc.2 req.1 req.2 in
                 (acc.1 ++ [out.1], out.2))
               (acc, with_calibration_info ds ci) requests in
    out.1 = acc ++ ((λ req, (get_frame fs' ds req.1 req.2).1) <$> requests) ∧
    ∃ ci', out.2 = with_calibration_info ds ci') as Hloop.
  { induction requests as [|[t f] requests IH]; intros ci acc Hci; simpl.
    - rewrite app_nil_r. split; [done|]. by exists ci.
    - destruct (get_frame_memo fs' ds ci t f Hds Hci)
        as (-> & ci' & -> & Hci').
      destruct (IH ci' (acc ++ [(get_frame fs' ds t f).1]) Hci')
        as [Hres Hst].
      cbv zeta in Hres, Hst. rewrite Hres, <- app_assoc. done. }
  pose proof (Hloop (calibration_info ds) [] Hds) as Hl.
  rewrite with_calibration_info_id in Hl. exact Hl.
Qed.

(** X12: the global index runs through the tracklets in order.  For
    [0 <= g < num_frames()] the pair [get_tracklet_frame_id(g)] returns
    addresses the [g]-th record of the concatenation of all tracklets, and
    [get_frame] at that pair raises no IndexError: without a cache file
    read at construction it returns what [_build_frame] gives for that
    record, cropped when the offset is positive. *)
Theorem global_index_enumerates fs split cfg ds fs' total g :
  __init__ fs split cfg = (Ok ds, fs') →
  num_frames ds = Ok total →
  0 ≤ g < total →
  total = len (mjoin (tracklet_annotations ds)) ∧
  ∃ (t f : nat) tracklet a,
    get_tracklet_frame_id ds g = Ok (Z.of_nat t, Z.of_nat f) ∧
    tracklet_annotations ds !! t = Some tracklet ∧
    tracklet !! f = Some a ∧
    mjoin (tracklet_annotations ds) !! Z.to_nat g = Some a ∧
    (cache ds = false ∨ cache_files fs !! cache_path split cfg = None →
     (get_frame fs' ds (Z.of_nat t) (Z.of_nat f)).1
       = crop_if_positive (preload_offset ds)
           <$> build_frame_fresh fs cfg a).
Proof.
  intros Hinit Htotal Hg.
  pose proof (init_indexed _ _ _ _ _ Hinit) as Hidx.
  pose proof (indexed_num_frames ds Hidx) as Hnf.
  destruct Hidx as (Hn & Hpos & Hs & He).
  rewrite Hnf in Htotal.
  destruct (tracklet_annotations ds) as [|t0 annos0] eqn:Ha; [done|].
  rewrite <- Ha in *. injection Htotal as <-.
  split; [by rewrite Hn, sum_list_len_join|].
  destruct (resolve_correct _ g Hpos Hg)
    as (t & s & e & Hres & Hst & _ & Hnum & Hrange & _).
  pose proof (lookup_lt_Some _ _ _ Hst) as Hlt. rewrite length_starts in Hlt.
  rewrite starts_lookup in Hst by done. injection Hst as Hs'.
  rewrite Hn, list_lookup_fmap in Hnum.
  destruct (tracklet_annotations ds !! t) as [tracklet|] eqn:Ht; [|done].
  injection Hnum as Hnum. unfold len in Hnum.
  rewrite Hn, <- fmap_take, sum_list_len_join in Hs'.
  destruct (lookup_lt_is_Some_2 tracklet (Z.to_nat (g - s))) as [a Hf]; [lia|].
  exists t, (Z.to_nat (g - s)), tracklet, a.
  split; [|split; [done|split; [done|split]]].
  - unfold get_tracklet_frame_id. rewrite Hs, He, Hres.
    by rewrite Z2Nat.id by lia.
  - pose proof (lookup_join_offset _ _ _ _ _ Ht Hf) as Hjoin.
    replace (Z.to_nat g)
      with (length (mjoin (take t (tracklet_annotations ds)))
            + Z.to_nat (g - s))%nat by lia.
    done.
  - intros Hsrc.
    pose proof (init_inv _ _ _ _ _ Hinit) as (_ & Hcfg & _ & _ & _ & _ & Hc).
    assert ((tracklet_anno ← py_index (tracklet_annotations ds) (Z.of_nat t);
             frame_anno ← py_index tracklet_anno (Z.of_nat (Z.to_nat (g - s)));
             crop_if_positive (preload_offset ds)
               <$> build_frame_fresh fs cfg frame_anno)
            = crop_if_positive (preload_offset ds)
                <$> build_frame_fresh fs cfg a) as <-.
    { rewrite (py_index_lookup _ _ _ Ht). simpl.
      by rewrite (py_index_lookup _ _ _ Hf). }
    destruct (cache ds) eqn:Hcache.
    + destruct Hsrc as [|Hmiss]; [done|].
      destruct (init_cache_miss _ _ _ _ _ Hinit Hcache Hmiss)
        as (stored & Hstored & _ & Hall & _).
      assert (stored ≠ []) as Hne.
      { intros ->. apply Forall2_nil_inv_r in Hall. by rewrite Hall in Ht. }
      rewrite (get_frame_stored _ _ _ _ stored Hstored Hne). simpl.
      by apply stored_frame_lookup.
    + destruct Hc as (Hnone & -> & Hci).
      rewrite get_frame_on_demand.
      * by rewrite Hcfg.
      * by rewrite Hnone.
      * rewrite Hci. apply calib_consistent_empty.
Qed.
End Access.

(** Three calls in a row on the training split of the sample data root. *)
Lemma get_frame_history_independent_witness :
  ∃ ds fs', __init__ Sample.fs "train" sample_config = (Ok ds, fs') ∧
    (get_frames fs' ds [(0, 0); (1, 2); (0, 0)]).1
      = [(get_frame fs' ds 0 0).1; (get_frame fs' ds 1 2).1;
         (get_frame fs' ds 0 0).1].
Proof.
  assert (∃ ds fs', __init__ Sample.fs "train" sample_config = (Ok ds, fs'))
    as (ds & fs' & Hinit).
  { eexists _, _. vm_compute. reflexivity. }
  exists ds, fs'. split; [exact Hinit|].
  exact (proj1 (get_frame_history_independent Sample.fs "train" sample_config
                  ds fs' [(0, 0); (1, 2); (0, 0)] Hinit)).
Defined.

(** Index 5 of the training split of the sample data root. *)
Lemma global_index_enumerates_witness :
  ∃ ds fs', __init__ Sample.fs "train" sample_config = (Ok ds, fs') ∧
    num_frames ds = Ok 9 ∧ 0 ≤ 5 < 9 ∧
    9 = len (mjoin (tracklet_annotations ds)).
Proof.
  assert (∃ ds fs', __init__ Sample.fs "train" sample_config = (Ok ds, fs') ∧
                    num_frames ds = Ok 9) as (ds & fs' & Hinit & Hn).
  { eexists _, _. split; vm_compute; reflexivity. }
  assert (0 ≤ 5 < 9) as Hg by lia.
  exists ds, fs'. split; [exact Hinit|]. split; [exact Hn|].
  split; [exact Hg|].
  exact (proj1 (global_index_enumerates Sample.fs "train" sample_config
                  ds fs' 9 5 Hinit Hn Hg)).
Defined.

(** ** The cache file *)

Section CacheKey.
Context {num : Type} `{!NumpyOps num} `{!GeometryUtils num}.
Implicit Types (ds : KITTIFull num) (fs : FileSystem num) (cfg : Config num).
Implicit Types (ci : gmap Z (gmap string (list (list num)))).
Implicit Types (frame_anno : Anno num).

Lemma init_valid_category fs split cfg ds fs' :
  __init__ fs split cfg = (Ok ds, fs') →
  py_assert (bool_decide
    (category_name cfg ∈ ["Van"; "Car"; "Pedestrian"; "Cyclist"; "All"]))
    = Ok tt.
Proof.
  unfold __init__. by destruct (py_assert _) as [[]|].
Qed.

Lemma init_cache_file fs split cfg ds fs' :
  __init__ fs split cfg = (Ok ds, fs') →
  cache ds = true →
  ∃ stored, tracklets ds = Some stored ∧
            cache_files fs' !! cache_path split cfg = Some stored ∧
            label_files fs' = label_files fs.
Proof.
  intros Hinit Hcache.
  apply init_inv in Hinit as (_ & _ & _ & _ & _ & _ & Hc).
  rewrite Hcache in Hc.
  destruct (cache_files fs !! cache_path split cfg) as [stored|] eqn:Hfile.
  - destruct Hc as (Ht & -> & _). by exists stored.
  - destruct Hc as (stored & _ & Ht & ->). exists stored.
    split; [done|]. split; [|done]. simpl. apply lookup_insert_eq.
Qed.

Lemma get_comp_template_pcd_tracklets ds ds2 tracklet_id :
  tracklets ds2 = tracklets ds →
  get_comp_template_pcd ds2 tracklet_id = get_comp_template_pcd ds tracklet_id.
Proof. intros Ht. unfold get_comp_template_pcd. by rewrite Ht. Qed.

Lemma comp_template_lookup fs cfg offset annos stored (t : nat) tracklet :
  Forall2 (materialises fs cfg offset) annos stored →
  annos !! t = Some tracklet →
  ∃ built,
    mapM (build_frame_fresh fs cfg) tracklet = Ok built ∧
    (tm ← py_index stored (Z.of_nat t); Ok (comp_template_pcd tm))
      = Ok (merge_template_pcds (pcd <$> built) (bbox <$> built)
              (model_offset cfg) (model_scale cfg)).
Proof.
  intros Hall Ht.
  destruct (Forall2_lookup_l _ _ _ _ _ Hall Ht)
    as (tm & Htm & built & Hbuilt & Htemplate & _).
  exists built. split; [done|].
  rewrite (py_index_lookup _ _ _ Htm). simpl. by rewrite Htemplate.
Qed.

(** X13: the cache file is keyed by category, split, coordinate mode,
    offset and interval only.  After a construction with caching on, a
    construction under a configuration that differs in [model_offset] and
    [model_scale] alone reads that file: it holds the same tracklets and
    writes nothing, and when the first construction built them, every
    template it serves is the one merged with the first configuration's
    parameters. *)
Theorem cache_ignores_model_parameters fs split cfg ds fs1 offset scale :
  __init__ fs split cfg = (Ok ds, fs1) →
  cache ds = true →
  cache_path split (with_model offset scale cfg) = cache_path split cfg ∧
  ∃ ds2,
    __init__ fs1 split (with_model offset scale cfg) = (Ok ds2, fs1) ∧
    tracklets ds2 = tracklets ds ∧
    tracklet_annotations ds2 = tracklet_annotations ds ∧
    (∀ tracklet_id,
       get_comp_template_pcd ds2 tracklet_id
       = get_comp_template_pcd ds tracklet_id) ∧
    (cache_files fs !! cache_path split cfg = None →
     ∀ (t : nat) tracklet,
       tracklet_annotations ds2 !! t = Some tracklet →
       ∃ built,
         mapM (build_frame_fresh fs cfg) tracklet = Ok built ∧
         get_comp_template_pcd ds2 (Z.of_nat t)
         = Ok (merge_template_pcds (pcd <$> built) (bbox <$> built)
                 (model_offset cfg) (model_scale cfg))).
Proof.
  intros Hinit Hcache. split; [done|].
  pose proof (init_inv _ _ _ _ _ Hinit)
    as (_ & _ & Hpi & Hoff & Hc & Hidx & _).
  destruct (init_cache_file _ _ _ _ _ Hinit Hcache)
    as (stored & Hstored & Hfile & Hlabels).
  rewrite Hpi in Hidx.
  destruct (init_from_index fs1 split (with_model offset scale cfg)
              (tracklet_annotations ds) (tracklet_num_frames ds)
              (tracklet_st_frame_id ds) (tracklet_ed_frame_id ds))
    as [_ Hhit].
  { exact (init_valid_category _ _ _ _ _ Hinit). }
  { rewrite <- Hidx. by apply index_stage_ext. }
  specialize (Hhit stored). rewrite Hcache in Hc. simpl in Hhit.
  rewrite <- Hc in Hhit. specialize (Hhit eq_refl Hfile).
  eexists. split; [exact Hhit|]. simpl.
  split; [done|]. split; [done|]. split.
  - intros t. by apply get_comp_template_pcd_tracklets.
  - intros Hmiss t tracklet Ht.
    destruct (init_cache_miss _ _ _ _ _ Hinit Hcache Hmiss)
      as (stored' & Hstored' & _ & Hall & _).
    rewrite Hstored in Hstored'. injection Hstored' as <-.
    unfold get_comp_template_pcd. simpl.
    by apply (comp_template_lookup fs cfg (preload_offset ds)
                (tracklet_annotations ds)).
Qed.

(** X14: [get_comp_template_pcd] needs the materialisation.  On a dataset
    constructed with caching off it raises TypeError for every argument,
    while [get_frame] still serves the frames.  After a construction that
    built the tracklets it returns, for each tracklet, the merge of the
    frames as [_build_frame] gives them, and raises IndexError from
    [num_tracklets()] on. *)
Theorem comp_template_access fs split cfg ds fs' :
  __init__ fs split cfg = (Ok ds, fs') →
  (cache ds = false →
     ∀ tracklet_id, get_comp_template_pcd ds tracklet_id = Raise TypeError) ∧
  (cache ds = true →
   cache_files fs !! cache_path split cfg = None →
     (∀ (t : nat) tracklet,
        tracklet_annotations ds !! t = Some tracklet →
        ∃ built,
          mapM (build_frame_fresh fs cfg) tracklet = Ok built ∧
          get_comp_template_pcd ds (Z.of_nat t)
          = Ok (merge_template_pcds (pcd <$> built) (bbox <$> built)
                  (model_offset cfg) (model_scale cfg))) ∧
     (∀ tracklet_id, num_tracklets ds ≤ tracklet_id →
        get_comp_template_pcd ds tracklet_id = Raise IndexError)).
Proof.
  intros Hinit. split.
  - intros Hcache tracklet_id.
    apply init_inv in Hinit as (_ & _ & _ & _ & _ & _ & Hc).
    rewrite Hcache in Hc. destruct Hc as (Hnone & _).
    unfold get_comp_template_pcd. by rewrite Hnone.
  - intros Hcache Hmiss.
    destruct (init_cache_miss _ _ _ _ _ Hinit Hcache Hmiss)
      as (stored & Hstored & _ & Hall & _).
    unfold get_comp_template_pcd. rewrite Hstored. split.
    + intros t tracklet Ht.
      by apply (comp_template_lookup fs cfg (preload_offset ds)
                  (tracklet_annotations ds)).
    + intros tracklet_id Hge. rewrite py_index_out_of_range; [done|].
      unfold num_tracklets, len in *.
      by rewrite <- (Forall2_length _ _ _ Hall).
Qed.

Lemma scene_tracklets_scene split pi category scene_id
    (data : list (LabelRow num)) tracklet a :
  tracklet ∈ scene_tracklets split pi category scene_id data →
  a ∈ tracklet → scene a = scene_id.
Proof.
  unfold scene_tracklets. intros Ht Ha.
  apply list_elem_of_bind in Ht as (group & Ht & Hgroup).
  apply list_elem_of_lookup in Hgroup as [m Hgroup].
  apply track_groups_lookup in Hgroup as (tid & _ & _ & Hmem).
  apply subsample_sublist in Ht as [Hsub _].
  apply (sublist_elem_of _ _ _ Hsub), Hmem in Ha as [Ha _].
  by apply elem_of_accepted_rows in Ha as (? & _).
Qed.

Lemma build_tracklet_annotations_scene fs split pi cfg ids annos tracklet a :
  _build_tracklet_annotations fs split pi cfg ids = Ok annos →
  tracklet ∈ annos → a ∈ tracklet → scene a ∈ ids.
Proof.
  intros Hb Ht Ha.
  apply build_tracklet_annotations_inv in Hb as (tables & _ & ->).
  apply list_elem_of_bind in Ht as ([id data] & Ht & Hzip). simpl in Ht.
  rewrite (scene_tracklets_scene _ _ _ _ _ _ _ Ht Ha).
  apply elem_of_zip_l in Hzip. done.
Qed.

Lemma materialize_all_Ok fs cfg offset annos : ∀ ci,
  calib_consistent fs cfg ci →
  (∀ ta, ta ∈ annos → ∃ built, mapM (build_frame_fresh fs cfg) ta = Ok built) →
  ∃ stored ci',
    m_mapM (materialize_tracklet fs cfg offset) annos ci = (Ok stored, ci').
Proof.
  induction annos as [|ta annos IH]; intros ci Hci Hall; simpl.
  - by eexists _, _.
  - unfold m_bind at 1. rewrite materialize_tracklet_unfold.
    destruct (build_frames_consistent fs cfg ta ci Hci) as [Hb Hci1].
    destruct (Hall ta) as [built Hbuilt]; [by left|].
    destruct (m_mapM (_build_frame fs cfg) ta ci) as [r ci1].
    simpl in Hb, Hci1. rewrite Hbuilt in Hb. subst r. simpl.
    destruct (IH ci1 Hci1) as (stored & ci2 & Hrest).
    { intros ta' Hta'. apply Hall. by right. }
    unfold m_bind. rewrite Hrest. by eexists _, _.
Qed.

(** X15: construction with caching on does not depend on the point-cloud
    files.  On a cache miss it succeeds, builds one stored tracklet per
    tracklet with one frame per record, and writes them to the cache
    file, as soon as the label file of every scene of the split is there
    and its calibration file holds a 'Tr_velo_cam' matrix (invertible once
    extended, in velodyne mode). *)
Theorem cached_init_succeeds fs split cfg :
  let velo_to_cam tr :=
    np_vstack tr [of_int 0; of_int 0; of_int 0; of_int 1] in
  ∀ scene_ids,
    valid_category cfg →
    split_type_to_scene_ids (debug cfg) !! split = Some scene_ids →
    (if decide (split = "train") then cache_train cfg else cache_eval cfg)
      = true →
    cache_files fs !! cache_path split cfg = None →
    (∀ id, id ∈ scene_ids →
       is_Some (label_files fs !! label_path cfg id) ∧
       ∃ calib tr,
         _read_calibration_file fs (calib_path cfg id) = Ok calib ∧
         calib !! "Tr_velo_cam" = Some tr ∧
         (coordinate_mode cfg = "camera" ∨
          coordinate_mode cfg = "velodyne" ∧
          is_Some (np_linalg_inv (velo_to_cam tr)))) →
    ∃ ds stored,
      __init__ fs split cfg
        = (Ok ds, write_cache fs (cache_path split cfg) stored) ∧
      tracklets ds = Some stored ∧
      Forall2 (λ tracklet_anno tracklet,
                 length (frames tracklet) = length tracklet_anno)
        (tracklet_annotations ds) stored.
Proof.
  intros velo_to_cam ids Hcat Hsplit Hcache Hmiss Hfiles.
  destruct (build_tracklet_annotations_Ok fs split
              (default (Interval 1) (cfg_preload_interval cfg)) cfg ids)
    as [annos Hannos]; [intros id Hid; by apply Hfiles|].
  pose proof (build_tracklet_annotations_positive _ _ _ _ _ _ Hannos) as Hpos.
  assert (∀ ta, ta ∈ annos →
            ∃ built, mapM (build_frame_fresh fs cfg) ta = Ok built) as Hbuilt.
  { intros ta Hta. apply build_frames_fresh_Ok. intros a Ha.
    pose proof (build_tracklet_annotations_scene _ _ _ _ _ _ _ _ Hannos Hta Ha)
      as Hscene.
    destruct (Hfiles _ Hscene) as (_ & calib & tr & Hread & Htr & Hmode).
    rewrite bbox_stage_unfold. simpl.
    unfold get_calibration. rewrite lookup_empty, Hread. simpl.
    unfold bbox_of_calib. rewrite Htr. simpl.
    rewrite bool_decide_true
      by (destruct Hmode as [->|[-> _]]; in_list).
    simpl. unfold build_bbox.
    destruct Hmode as [Hm|[Hm [inv Hinv]]].
    - rewrite decide_True by done. by eexists.
    - rewrite decide_False by (by rewrite Hm).
      fold (velo_to_cam tr). rewrite Hinv. by eexists. }
  destruct (materialize_all_Ok fs cfg
              (if decide (split = "train") then cfg_preload_offset cfg else -1)
              annos ∅ (calib_consistent_empty fs cfg) Hbuilt)
    as (stored & ci' & Hm).
  pose proof (materialize_all_consistent _ _ _ _ _ _ _
                (calib_consistent_empty fs cfg) Hm) as [Hall _].
  eexists _, stored. split; [|split].
  - unfold __init__, cache_path in *. cbv zeta.
    unfold valid_category in Hcat. rewrite bool_decide_true by done. simpl.
    unfold index_stage. rewrite Hsplit. simpl. rewrite Hannos. simpl.
    unfold build_index. rewrite index_loop_positive by done. simpl.
    rewrite Hcache, Hmiss, Hm. reflexivity.
  - done.
  - simpl. eapply Forall2_impl; [exact Hall|].
    intros ta tm (built & Hb & _ & ->).
    apply mapM_result_Forall2, Forall2_length in Hb.
    destruct (0 <? _); by rewrite ?length_fmap.
Qed.
End CacheKey.

(** The training split of the sample data root, constructed with caching
    and then again with other template parameters. *)
Lemma cache_ignores_model_parameters_witness :
  ∃ ds fs1,
    __init__ Sample.fs "train" cached_config = (Ok ds, fs1) ∧
    cache ds = true ∧
    ∃ ds2,
      __init__ fs1 "train" (with_model 7 2 cached_config) = (Ok ds2, fs1) ∧
      tracklets ds2 = tracklets ds.
Proof.
  assert (∃ ds fs1,
            __init__ Sample.fs "train" cached_config = (Ok ds, fs1) ∧
            cache ds = true) as (ds & fs1 & Hinit & Hcache).
  { eexists _, _. split; vm_compute; reflexivity. }
  exists ds, fs1. split; [exact Hinit|]. split; [exact Hcache|].
  destruct (cache_ignores_model_parameters Sample.fs "train" cached_config
              ds fs1 7 2 Hinit Hcache) as (_ & ds2 & Hinit2 & Ht & _).
  exists ds2. split; [exact Hinit2|exact Ht].
Defined.

(** The training split of the sample data root without caching. *)
Lemma comp_template_access_witness :
  ∃ ds fs', __init__ Sample.fs "train" sample_config = (Ok ds, fs') ∧
    cache ds = false ∧ get_comp_template_pcd ds 0 = Raise TypeError.
Proof.
  assert (∃ ds fs',
            __init__ Sample.fs "train" sample_config = (Ok ds, fs') ∧
            cache ds = false) as (ds & fs' & Hinit & Hcache).
  { eexists _, _. split; vm_compute; reflexivity. }
  exists ds, fs'. split; [exact Hinit|]. split; [exact Hcache|].
  exact (proj1 (comp_template_access Sample.fs "train" sample_config ds fs'
                  Hinit) Hcache 0).
Defined.

(** The debug training split (scene 0) of the sample data root in camera
    mode: five of the seven point-cloud files are missing or broken. *)
Lemma cached_init_succeeds_witness :
  ∃ ds stored,
    __init__ Sample.fs "train" cached_config
      = (Ok ds, write_cache Sample.fs (cache_path "train" cached_config) stored) ∧
    tracklets ds = Some stored.
Proof.
  destruct (cached_init_succeeds Sample.fs "train" cached_config [0])
    as (ds & stored & Hinit & Ht & _).
  - unfold valid_category. simpl. in_list.
  - vm_compute. reflexivity.
  - reflexivity.
  - vm_compute. reflexivity.
  - intros id Hid. apply list_elem_of_singleton in Hid as ->. split.
    + eexists. vm_compute. reflexivity.
    + eexists _, _. split; [vm_compute; reflexivity|].
      split; [vm_compute; reflexivity|]. left. reflexivity.
  - exists ds, stored. split; [exact Hinit|exact Ht].
Defined.

Section CacheHit.
Context {num : Type} `{!NumpyOps num} `{!GeometryUtils num}.
Implicit Types (ds : KITTIFull num) (fs : FileSystem num).

(** X17: on a cache hit nothing but the label files and the cache file is
    read.  The stored list is taken as it is and nothing is written; the
    same dataset is constructed under any data root with the same label
    files and the same cache file, whatever its calibration and
    point-cloud files; and when the list is not empty, [get_frame] serves
    its frames without consulting the data root or the annotations. *)
Theorem cache_hit_reads_no_sensor_file fs split conf ds fs' stored :
  __init__ fs split conf = (Ok ds, fs') →
  cache ds = true →
  cache_files fs !! cache_path split conf = Some stored →
  fs' = fs ∧ tracklets ds = Some stored ∧
  (∀ fs2, label_files fs2 = label_files fs →
          cache_files fs2 !! cache_path split conf = Some stored →
          __init__ fs2 split conf = (Ok ds, fs2)) ∧
  (stored ≠ [] →
   ∀ fs2 tracklet_id frame_id,
     get_frame fs2 ds tracklet_id frame_id
     = (tracklet ← py_index stored tracklet_id;
        py_index (frames tracklet) frame_id, ds)).
Proof.
  intros Hinit Hcache Hfile.
  pose proof (init_inv _ _ _ _ _ Hinit)
    as (Hsplit & Hconf & Hpi & Hoff & Hc & Hidx & Hstored).
  rewrite Hcache, Hfile in Hstored. destruct Hstored as (Ht & -> & Hci).
  split; [done|]. split; [done|]. split.
  - intros fs2 Hlabels Hfile2. rewrite Hpi in Hidx.
    destruct (init_from_index fs2 split conf
                (tracklet_annotations ds) (tracklet_num_frames ds)
                (tracklet_st_frame_id ds) (tracklet_ed_frame_id ds))
      as [_ Hhit].
    { exact (init_valid_category _ _ _ _ _ Hinit). }
    { rewrite <- Hidx. by apply index_stage_ext. }
    rewrite (Hhit stored); [|by rewrite <- Hc|done].
    do 2 f_equal. destruct ds. simpl in *. subst. by rewrite <- Hc.
  - intros Hne fs2 t f. by apply get_frame_stored.
Qed.
End CacheHit.

(** The training split of the sample data root, constructed from the
    cache file a first construction wrote. *)
Lemma cache_hit_reads_no_sensor_file_witness :
  ∃ ds1 fs1 ds stored,
    __init__ Sample.fs "train" cached_config = (Ok ds1, fs1) ∧
    __init__ fs1 "train" cached_config = (Ok ds, fs1) ∧
    cache_files fs1 !! cache_path "train" cached_config = Some stored ∧
    tracklets ds = Some stored.
Proof.
  assert (∃ ds1 fs1 ds stored,
            __init__ Sample.fs "train" cached_config = (Ok ds1, fs1) ∧
            __init__ fs1 "train" cached_config = (Ok ds, fs1) ∧
            cache ds = true ∧
            cache_files fs1 !! cache_path "train" cached_config = Some stored)
    as (ds1 & fs1 & ds & stored & Hinit1 & Hinit & Hcache & Hfile).
  { eexists _, _, _, _. repeat split; vm_compute; reflexivity. }
  exists ds1, fs1, ds, stored. split; [exact Hinit1|]. split; [exact Hinit|].
  split; [exact Hfile|].
  destruct (cache_hit_reads_no_sensor_file fs1 "train" cached_config ds fs1
              stored Hinit Hcache Hfile) as (_ & Ht & _).
  exact Ht.
Defined.

(** ** Point-cloud buffers *)

Lemma omap_lookup_total {A B} (f : A → option B) (l : list A) :
  Forall (λ x, is_Some (f x)) l →
  length (omap f l) = length l ∧ ∀ j : nat, omap f l !! j = l !! j ≫= f.
Proof.
  induction 1 as [|x l [y Hy] Hl [IH1 IH2]]; [done|].
  simpl. rewrite Hy. simpl. split; [by f_equal|].
  intros [|j]; simpl; [done|apply IH2].
Qed.

Section ArrayFacts.
Context {A : Type}.

Lemma chunks_rows (cols : nat) : ∀ (n fuel : nat) (xs : list A),
  (0 < cols)%nat → length xs = (n * cols)%nat → (n ≤ fuel)%nat →
  chunks fuel cols xs
    = (λ j : nat, take cols (drop (j * cols) xs)) <$> seq 0 n.
Proof.
  induction n as [|n IH]; intros fuel xs Hc Hlen Hfuel.
  - destruct xs; [|done]. by destruct fuel.
  - destruct fuel as [|fuel]; [lia|]. simpl.
    destruct xs as [|x xs]; [simpl in Hlen; lia|].
    rewrite drop_0. f_equal.
    rewrite (IH fuel (drop cols (x :: xs)) Hc)
      by (rewrite ?length_drop; lia).
    rewrite <- fmap_S_seq, <- list_fmap_compose.
    apply list_fmap_ext. intros _ j _. simpl.
    rewrite drop_drop. repeat f_equal; lia.
Qed.

Lemma transpose_rows_4 (xs : list A) (n : nat) :
  length xs = (4 * n)%nat →
  ∃ rows, reshape_rows_4 xs = Some rows ∧
    length (transpose 4 rows) = 4%nat ∧
    ∀ c : nat, (c < 4)%nat →
      ∃ row, transpose 4 rows !! c = Some row ∧ length row = n ∧
             ∀ j : nat, (j < n)%nat → row !! j = xs !! (4 * j + c)%nat.
Proof.
  intros Hlen. unfold reshape_rows_4.
  rewrite decide_True
    by (rewrite Hlen, Nat.mul_comm; apply Nat.Div0.mod_mul).
  eexists. split; [done|].
  rewrite (chunks_rows 4 n) by lia.
  unfold transpose. split; [by rewrite length_fmap, length_seq|].
  intros c Hc. rewrite list_lookup_fmap, lookup_seq_lt by done. simpl.
  eexists. split; [done|].
  destruct (omap_lookup_total (λ row : list A, row !! c)
              ((λ j : nat, take 4 (drop (j * 4) xs)) <$> seq 0 n))
    as [Hl Hlook].
  { apply Forall_fmap, Forall_forall. intros j Hj. apply elem_of_seq in Hj.
    simpl. apply lookup_lt_is_Some_2. rewrite length_take, length_drop. lia. }
  split; [by rewrite Hl, length_fmap, length_seq|].
  intros j Hj. rewrite Hlook, list_lookup_fmap, lookup_seq_lt by done. simpl.
  rewrite lookup_take_lt by done. rewrite lookup_drop. f_equal. lia.
Qed.
End ArrayFacts.

Section Buffer.
Context {num : Type} `{!NumpyOps num} `{!GeometryUtils num}.
Implicit Types (ds : KITTIFull num) (fs : FileSystem num) (cfg : Config num).

(** X16: the layout of a point cloud that is read.  A file of [4 n]
    floats gives a buffer of 4 rows of [n] entries whose column [j] holds
    the floats [4 j .. 4 j + 3] of the file, point by point.  In velodyne
    mode (in any mode but 'camera') this buffer is the frame's cloud; in
    camera mode it is what [transform] receives, and the placeholder
    stands in when [transform] raises. *)
Theorem pcd_buffer_layout fs cfg velo_to_cam scene_id frame_id xs (n : nat) :
  velodyne_files fs !! pcd_path cfg scene_id frame_id = Some (FloatData xs) →
  length xs = (4 * n)%nat →
  ∃ buffer,
    length buffer = 4%nat ∧
    (∀ c : nat, (c < 4)%nat →
       ∃ row, buffer !! c = Some row ∧ length row = n ∧
              ∀ j : nat, (j < n)%nat → row !! j = xs !! (4 * j + c)%nat) ∧
    (coordinate_mode cfg ≠ "camera" →
       load_pcd fs cfg velo_to_cam scene_id frame_id
         = {| points := buffer |}) ∧
    (coordinate_mode cfg = "camera" →
       load_pcd fs cfg velo_to_cam scene_id frame_id
         = default placeholder_pcd
             (pcd_transform velo_to_cam {| points := buffer |})).
Proof.
  intros Hfile Hlen.
  destruct (transpose_rows_4 xs n Hlen) as (rows & Hrows & Hl & Hlayout).
  exists (transpose 4 rows). split; [done|]. split; [done|].
  unfold load_pcd, load_pcd_try. rewrite Hfile, Hrows.
  split; intros Hmode.
  - by rewrite decide_False.
  - rewrite decide_True by done. by destruct (pcd_transform _ _).
Qed.
End Buffer.

(** The point cloud of frame 0 of the sample data root: two points. *)
Lemma pcd_buffer_layout_witness :
  ∃ buffer,
    length buffer = 4%nat ∧
    load_pcd Sample.fs velodyne_config [] 0 0 = {| points := buffer |}.
Proof.
  destruct (pcd_buffer_layout Sample.fs velodyne_config [] 0 0
              [1; 2; 3; 4; 5; 6; 7; 8] 2)
    as (buffer & Hlen & _ & Hvelo & _).
  - vm_compute. reflexivity.
  - reflexivity.
  - exists buffer. split; [exact Hlen|]. apply Hvelo. discriminate.
Defined.

(** ** Cross attention: constructor and shapes *)

Section AttentionShapes.
Import CrossMultiheadAttention.

Lemma init_inv_attention E H kd vd this :
  __init__ E H kd vd = TOk this →
  H ≠ 0 ∧ head_dim this ≠ 0 ∧ head_dim this * H = E ∧
  embed_dim this = E ∧ num_heads this = H ∧
  q1 this = torch.Build_Linear E (E / 2) ∧
  kv1 this = torch.Build_Linear E E ∧
  q2 this = torch.Build_Linear E (E / 2) ∧
  kv2 this = torch.Build_Linear E E ∧
  proj1 this = torch.Build_Linear (E / 2) (E / 2) ∧
  proj2 this = torch.Build_Linear (E / 2) (E / 2).
Proof.
  unfold __init__, floordiv. cbv zeta.
  destruct (decide (H = 0)); [done|]. simpl.
  destruct (decide (E / H * H = E)); [|done]. simpl.
  destruct (decide (E / H = 0)); [done|]. simpl.
  intros [= <-]. simpl. done.
Qed.

Lemma filter_negative_nil (dims : torch.Size) :
  Forall (λ d, 0 ≤ d) dims → filter (λ d, d < 0) dims = [].
Proof.
  induction 1 as [|d dims Hd _ IH]; [done|].
  rewrite filter_cons, decide_False by lia. exact IH.
Qed.

Lemma reshape_ok x dims :
  Forall (λ d, 0 ≤ d) dims → torch.numel x = torch.numel dims →
  torch.reshape x dims = TOk dims.
Proof.
  intros Hd Hn. unfold torch.reshape.
  by rewrite filter_negative_nil, decide_True.
Qed.

Lemma reshape_fails x dims :
  Forall (λ d, 0 ≤ d) dims → torch.numel x ≠ torch.numel dims →
  torch.reshape x dims = TRaise RuntimeError.
Proof.
  intros Hd Hn. unfold torch.reshape.
  by rewrite filter_negative_nil, decide_False.
Qed.

Lemma Linear_call_ok (l : torch.Linear) front d :
  d = torch.in_features l →
  torch.Linear_call l (front ++ [d]) = TOk (front ++ [torch.out_features l]).
Proof.
  intros ->. unfold torch.Linear_call. rewrite reverse_snoc.
  by rewrite decide_True, reverse_involutive.
Qed.

Lemma numel_nonneg (s : torch.Size) :
  Forall (λ d, 0 ≤ d) s → 0 ≤ torch.numel s.
Proof. induction 1; simpl; [lia|]. unfold torch.numel in *. simpl. lia. Qed.

Lemma permute_kv (a b c d e : Z) :
  torch.permute [a; b; c; d; e] [2; 0; 1; 3; 4]%nat = TOk [c; a; b; d; e].
Proof.
  unfold torch.permute. rewrite decide_True; [done|].
  apply (bool_decide_unpack _). by vm_compute.
Qed.

Lemma getitem_ok d rest i :
  - d ≤ i < d → torch.getitem (d :: rest) i = TOk rest.
Proof. intros Hi. unfold torch.getitem. by rewrite decide_True. Qed.

Lemma bmm_ok b n m p : torch.bmm [b; n; m] [b; m; p] = TOk [b; n; p].
Proof. unfold torch.bmm. by rewrite decide_True. Qed.

Lemma transpose_01 (a b c : Z) :
  torch.transpose [a; b; c] 0 1 = TOk [b; a; c].
Proof. reflexivity. Qed.

Lemma transpose_12 (a b c : Z) :
  torch.transpose [a; b; c] 1 2 = TOk [a; c; b].
Proof. reflexivity. Qed.

Lemma attend_even this q kv proj (Nq B Nk m : Z) :
  let D := head_dim this in
  let E := D * (2 * m) in
  num_heads this = 2 * m → 0 < m → 0 < D → 0 ≤ Nq → 0 ≤ B → 0 ≤ Nk →
  q = torch.Build_Linear E (E / 2) →
  kv = torch.Build_Linear E E →
  proj = torch.Build_Linear (E / 2) (E / 2) →
  attend this q kv proj [Nq; B; E] [Nk; B; E] Nq B E Nk
    = TOk ([Nq; B; E / 2], [B * m; Nq; Nk]).
Proof.
  intros D E HH Hm HD HNq HB HNk -> -> ->.
  assert (E / 2 = D * m) as HE2.
  { unfold E. symmetry. apply (Z.div_unique_exact); lia. }
  assert (2 * m / 2 = m) as Hm2.
  { symmetry. apply Z.div_unique_exact; lia. }
  assert (B * (2 * m) / 2 = B * m) as HBm.
  { symmetry. apply Z.div_unique_exact; lia. }
  unfold attend. rewrite HH. fold D. cbv zeta.
  rewrite HE2, Hm2, HBm. unfold torch.view, torch.softmax.
  rewrite (Linear_call_ok _ [Nq; B] E) by done. tbind. simpl app.
  cbn [torch.out_features].
  rewrite (reshape_ok [Nq; B; D * m] [Nq; B; m; D]);
    [tbind|nonneg|unfold torch.numel; simpl; lia].
  rewrite (Linear_call_ok _ [Nk; B] E) by done. tbind. simpl app.
  cbn [torch.out_features].
  rewrite (reshape_ok [Nk; B; E] [Nk; B; 2; m; D]);
    [tbind|nonneg|unfold torch.numel, E; simpl; lia].
  rewrite permute_kv. tbind.
  rewrite !getitem_ok by lia. tbind.
  rewrite (reshape_ok [Nq; B; m; D] [Nq; B * m; D]);
    [tbind|nonneg|unfold torch.numel; simpl; lia].
  rewrite (reshape_ok [Nk; B; m; D] [Nk; B * m; D]);
    [tbind|nonneg|unfold torch.numel; simpl; lia].
  rewrite !transpose_01. tbind. rewrite transpose_12. tbind.
  rewrite bmm_ok. tbind. rewrite bmm_ok. tbind.
  rewrite transpose_01. tbind.
  rewrite (reshape_ok [Nq; B * m; D] [Nq; B; D * m]);
    [tbind|nonneg|unfold torch.numel; simpl; lia].
  rewrite (Linear_call_ok _ [Nq; B] (D * m)) by done. done.
Qed.

Lemma attend_odd this q kv proj (Nq B Nk m : Z) :
  let D := head_dim this in
  let E := D * (2 * m + 1) in
  num_heads this = 2 * m + 1 → 0 ≤ m → 0 < D → 0 < Nq → 0 < B → 0 < Nk →
  q = torch.Build_Linear E (E / 2) →
  kv = torch.Build_Linear E E →
  attend this q kv proj [Nq; B; E] [Nk; B; E] Nq B E Nk
    = TRaise RuntimeError.
Proof.
  intros D E HH Hm HD HNq HB HNk -> ->.
  assert ((2 * m + 1) / 2 = m) as Hm2.
  { symmetry. apply (Z.div_unique _ _ _ 1); lia. }
  unfold attend. rewrite HH. fold D. cbv zeta. rewrite Hm2.
  rewrite (Linear_call_ok _ [Nq; B] E) by done. tbind. simpl app.
  cbn [torch.out_features].
  destruct (decide (D = 1)) as [HD1|HD1].
  - assert (E / 2 = m) as HE2.
    { unfold E. rewrite HD1. symmetry. apply (Z.div_unique _ _ _ 1); lia. }
    rewrite HE2, HD1.
    rewrite (reshape_ok [Nq; B; m] [Nq; B; m; 1]);
      [tbind|nonneg|unfold torch.numel; simpl; lia].
    rewrite (Linear_call_ok _ [Nk; B] E) by done. tbind. simpl app.
    cbn [torch.out_features].
    rewrite (reshape_fails [Nk; B; E] [Nk; B; 2; m; 1]); [done|nonneg|].
    unfold torch.numel, E. simpl. rewrite HD1, !Z.mul_1_r, !Z.mul_1_l.
    intros Heq.
    apply Z.mul_reg_l in Heq; [|lia]. apply Z.mul_reg_l in Heq; [|lia]. lia.
  - rewrite (reshape_fails [Nq; B; E / 2] [Nq; B; m; D]); [done|nonneg|].
    unfold torch.numel. simpl.
    assert (D * m + 1 ≤ E / 2) as Hlt.
    { unfold E. apply Z.div_le_lower_bound; lia. }
    rewrite !Z.mul_1_r. intros Heq.
    apply Z.mul_reg_l in Heq; [|lia]. apply Z.mul_reg_l in Heq; [|lia]. lia.
Qed.

(** X19: the constructor of the cross attention.  A head count of 0
    raises ZeroDivisionError; a head count that does not divide the
    embedding dimension fails the assertion; an embedding dimension of 0
    raises ZeroDivisionError when the scale is computed; from an
    embedding dimension of 2 on, a head count that divides it gives a
    module whose head dimension times its head count is its embedding
    dimension. *)
Theorem cross_attention_init E H kd vd :
  (H = 0 → __init__ E H kd vd = TRaise ZeroDivisionError) ∧
  (H ≠ 0 → ¬ (H | E) →
     __init__ E H kd vd = TRaise (PyExn AssertionError)) ∧
  (H ≠ 0 → E = 0 → __init__ E H kd vd = TRaise ZeroDivisionError) ∧
  (H ≠ 0 → (H | E) → 2 ≤ E →
     ∃ this, __init__ E H kd vd = TOk this ∧
       embed_dim this = E ∧ num_heads this = H ∧
       head_dim this * H = E).
Proof.
  unfold __init__, floordiv. cbv zeta. split; [|split; [|split]].
  - intros ->. done.
  - intros HH Hdiv. rewrite decide_False by done. tbind.
    destruct (decide (E / H * H = E)) as [Heq|]; [exfalso|done].
    apply Hdiv. exists (E / H). lia.
  - intros HH ->. rewrite decide_False by done. tbind.
    rewrite Z.div_0_l by done.
    destruct (decide (0 * H = 0)); [|lia]. tbind.
    by destruct (decide (0 = 0)).
  - intros HH [k ->] HE. rewrite decide_False by done. tbind.
    rewrite Z.div_mul by done.
    destruct (decide (k * H = k * H)); [|done]. tbind.
    destruct (decide (k = 0)); [lia|]. tbind.
    eexists. split; [done|]. done.
Qed.

(** X20: shapes through [forward] of a constructed cross attention, for a
    query of shape (Nq, B, E) and key-value tensors of shapes (Nkg, B, E)
    and (Nkl, B, E) with positive sizes.  With an even head count no
    reshape, view or product fails and the results have the shapes
    (Nq, B, E/2), (B, Nq, Nkg), (Nq, B, E/2), (B, Nq, Nkl), the two
    halves adding up to E.  With an odd head count, which the constructor
    accepts, [forward] raises RuntimeError. *)
Theorem cross_attention_forward_shapes E H kd vd this Nq B Nkg Nkl :
  0 < E → 0 < H →
  __init__ E H kd vd = TOk this →
  0 < Nq → 0 < B → 0 < Nkg → 0 < Nkl →
  (Z.even H = true →
     forward this [Nq; B; E] [Nkg; B; E] [Nkl; B; E]
       = TOk (([Nq; B; E / 2], [B; Nq; Nkg]), ([Nq; B; E / 2], [B; Nq; Nkl]))
     ∧ E / 2 + E / 2 = E) ∧
  (Z.even H = false →
     forward this [Nq; B; E] [Nkg; B; E] [Nkl; B; E] = TRaise RuntimeError).
Proof.
  intros HE HH Hinit HNq HB HNkg HNkl.
  apply init_inv_attention in Hinit
    as (_ & HD0 & HDH & _ & Hheads & Hq1 & Hkv1 & Hq2 & Hkv2 & Hp1 & Hp2).
  assert (0 < head_dim this) as HD by nia.
  unfold forward. rewrite Hq1, Hkv1, Hq2, Hkv2, Hp1, Hp2.
  split; intros Hparity.
  - apply Z.even_spec in Hparity as [m Hm].
    assert (0 < m) as Hmpos by lia.
    assert (num_heads this = 2 * m) as Hheads' by lia.
    assert (E = head_dim this * (2 * m)) as HEm by (rewrite <- Hm; lia).
    assert (2 * m / 2 = m) as Hm2.
    { symmetry. apply Z.div_unique_exact; lia. }
    clear HDH. subst E. split.
    + rewrite (attend_even this _ _ _ Nq B Nkg m Hheads') by (done || lia).
      tbind.
      rewrite (attend_even this _ _ _ Nq B Nkl m Hheads') by (done || lia).
      tbind. cbn [fst snd]. rewrite Hheads', Hm2. unfold torch.view.
      rewrite (reshape_ok [B * m; Nq; Nkg] [B; m; Nq; Nkg]);
        [tbind|nonneg|unfold torch.numel; simpl; lia].
      rewrite (reshape_ok [B * m; Nq; Nkl] [B; m; Nq; Nkl]);
        [tbind|nonneg|unfold torch.numel; simpl; lia].
      reflexivity.
    + assert (head_dim this * (2 * m) / 2 = head_dim this * m) as ->; [|lia].
      symmetry. apply Z.div_unique_exact; lia.
  - assert (Z.odd H = true) as Hodd by (by rewrite <- Z.negb_even, Hparity).
    apply Z.odd_spec in Hodd as [m Hm].
    assert (0 ≤ m) as Hmpos by lia.
    assert (num_heads this = 2 * m + 1) as Hheads' by lia.
    assert (E = head_dim this * (2 * m + 1)) as HEm by (rewrite <- Hm; lia).
    clear HDH. subst E.
    by rewrite (attend_odd this _ _ _ Nq B Nkg m Hheads') by (done || lia).
Qed.
End AttentionShapes.

(** Eight dimensions with no head, with three heads and with four heads,
    and no dimension at all. *)
Lemma cross_attention_init_witness :
  CrossMultiheadAttention.__init__ 8 0 None None = TRaise ZeroDivisionError ∧
  CrossMultiheadAttention.__init__ 8 3 None None
    = TRaise (PyExn AssertionError) ∧
  CrossMultiheadAttention.__init__ 0 4 None None = TRaise ZeroDivisionError ∧
  ∃ this, CrossMultiheadAttention.__init__ 8 4 None None = TOk this ∧
          CrossMultiheadAttention.head_dim this = 2.
Proof.
  split; [|split; [|split]].
  - apply (proj1 (cross_attention_init 8 0 None None)). reflexivity.
  - apply (proj1 (proj2 (cross_attention_init 8 3 None None))); [lia|].
    intros [k Hk]. lia.
  - apply (proj1 (proj2 (proj2 (cross_attention_init 0 4 None None))));
      [lia|reflexivity].
  - destruct (proj2 (proj2 (proj2 (cross_attention_init 8 4 None None))))
      as (this & Hinit & _ & _ & Hhead); [lia|by exists 2|lia|].
    exists this. split; [exact Hinit|lia].
Defined.

(** Four heads on 8 dimensions and three heads on 6 dimensions, for 5
    queries, 7 global and 3 local entries in batches of 2. *)
Lemma cross_attention_forward_shapes_witness :
  ∃ even_heads odd_heads,
    CrossMultiheadAttention.__init__ 8 4 None None = TOk even_heads ∧
    CrossMultiheadAttention.__init__ 6 3 None None = TOk odd_heads ∧
    CrossMultiheadAttention.forward even_heads [5; 2; 8] [7; 2; 8] [3; 2; 8]
      = TOk (([5; 2; 4], [2; 5; 7]), ([5; 2; 4], [2; 5; 3])) ∧
    CrossMultiheadAttention.forward odd_heads [5; 2; 6] [7; 2; 6] [3; 2; 6]
      = TRaise RuntimeError.
Proof.
  eexists _, _. split; [reflexivity|]. split; [reflexivity|]. split.
  - apply (proj1 (proj1 (cross_attention_forward_shapes 8 4 None None _
                           5 2 7 3 ltac:(lia) ltac:(lia) eq_refl
                           ltac:(lia) ltac:(lia) ltac:(lia) ltac:(lia))
                   eq_refl)).
  - apply (proj2 (cross_attention_forward_shapes 6 3 None None _
                    5 2 7 3 ltac:(lia) ltac:(lia) eq_refl
                    ltac:(lia) ltac:(lia) ltac:(lia) ltac:(lia))
             eq_refl).
Defined.
